(** * hack/image-upload.py: conditional upload of a Packer-built OVA

    A shallow embedding of [hack/image-upload.py] and a verification of the
    conditional-upload decision procedure it implements.

    Conventions of the embedding.

    - A Python [str] is a [string]; a character is a code point below 256.
      The interpreter is Python 3: files opened with mode ['r'] translate
      line endings, [str.strip] removes every character for which
      [str.isspace] holds, and [\d] in a [str] pattern matches a decimal
      digit (below code point 256 these are ['0'..'9'] only).
    - [None] is the [None] of [option].
    - Everything the script asks of its environment (the file system, the
      HTTP endpoint, the external tools) is answered by a [world]; the
      answers may depend on everything that happened before.
    - The script's effects are recorded as a trace of [event]s.

    The module [GoBuild] embeds the helpers and the build target of
    [support/gobuild] as well; its conventions are given there. *)

From Stdlib Require Import String Ascii List ZArith Bool Arith Lia.
Import ListNotations.

Local Open Scope list_scope.
Local Open Scope string_scope.

(* ================================================================== *)
(** ** Python strings *)

Module PyStr.

Definition code (c : ascii) : nat := nat_of_ascii c.

(** [str.isspace] on one character, for code points below 256:
    TAB, LF, VT, FF, CR, FS, GS, RS, US, SPACE, NEL and NBSP. *)
Definition isspace (c : ascii) : bool :=
  let n := code c in
  (((9 <=? n) && (n <=? 13)) || ((28 <=? n) && (n <=? 32))
  || (n =? 133) || (n =? 160))%nat.

(** Decimal digits, ['0'..'9']. *)
Definition isdigit (c : ascii) : bool :=
  let n := code c in ((48 <=? n) && (n <=? 57))%nat.

Definition LF : ascii := ascii_of_nat 10.
Definition CR : ascii := ascii_of_nat 13.

Fixpoint all_space (s : string) : bool :=
  match s with
  | EmptyString => true
  | String c s' => isspace c && all_space s'
  end.

(** [s.lstrip()] *)
Fixpoint lstrip (s : string) : string :=
  match s with
  | EmptyString => EmptyString
  | String c s' => if isspace c then lstrip s' else s
  end.

(** [s.rstrip()] *)
Fixpoint rstrip (s : string) : string :=
  match s with
  | EmptyString => EmptyString
  | String c s' => if all_space s then EmptyString else String c (rstrip s')
  end.

(** [s.strip()] *)
Definition strip (s : string) : string := rstrip (lstrip s).

(** [s.startswith(p)] *)
Definition startswith (s p : string) : bool := String.prefix p s.

(** First and last character, when there is one. *)
Definition first (s : string) : option ascii :=
  match s with EmptyString => None | String c _ => Some c end.

Fixpoint last (s : string) : option ascii :=
  match s with
  | EmptyString => None
  | String c EmptyString => Some c
  | String _ s' => last s'
  end.

(** [s.endswith("/")]-style test on the last character. *)
Definition endswith_char (s : string) (c : ascii) : bool :=
  match last s with Some d => Ascii.eqb c d | None => false end.

(** [s.split(sep)] for a one-character separator. *)
Fixpoint split (sep : ascii) (s : string) : list string :=
  match s with
  | EmptyString => [EmptyString]
  | String c s' =>
      if Ascii.eqb c sep then EmptyString :: split sep s'
      else match split sep s' with
           | [] => [String c EmptyString]
           | w :: ws => String c w :: ws
           end
  end.

(** [sep.join(xs)] *)
Definition join (sep : string) (xs : list string) : string :=
  String.concat sep xs.

(** [f.readline()] on a freshly opened text file holding [s]: the first
    line with its terminator.  Mode ['r'] reads with universal newlines,
    so a terminating CR or CR LF is delivered as LF. *)
Fixpoint readline (s : string) : string :=
  match s with
  | EmptyString => EmptyString
  | String c s' =>
      if Ascii.eqb c LF || Ascii.eqb c CR then String LF EmptyString
      else String c (readline s')
  end.

(** The first line without its terminator. *)
Fixpoint first_line (s : string) : string :=
  match s with
  | EmptyString => EmptyString
  | String c s' =>
      if Ascii.eqb c LF || Ascii.eqb c CR then EmptyString
      else String c (first_line s')
  end.

End PyStr.

(* ================================================================== *)
(** ** Regular expressions, as far as [re.match] is used *)

Module Re.

Inductive regex : Type :=
| Bol                          (* ^ *)
| Eol                          (* $ *)
| Lit (c : ascii)              (* a literal character, also escaped: \. *)
| Digit                        (* \d *)
| Seq (r1 r2 : regex)          (* r1 r2 *)
| Opt (r : regex)              (* r? *)
| Plus (r : regex).            (* r+ *)

(** A position in the subject: how much was consumed, and what is left. *)
Definition cursor : Type := (nat * string)%type.

Definition consumed (c : cursor) : nat := fst c.
Definition rest (c : cursor) : string := snd c.

(** One or more repetitions of [step], longest first.  A repetition that
    consumed nothing is not repeated again. *)
Fixpoint repeat1 (step : cursor -> list cursor) (fuel : nat) (c : cursor)
  : list cursor :=
  match fuel with
  | O => []
  | S fuel' =>
      flat_map
        (fun c' =>
           ((if (String.length (rest c') <? String.length (rest c))%nat
             then repeat1 step fuel' c' else []) ++ [c'])%list)
        (step c)
  end.

(** All the positions at which a match of [r] started at [c] can end, in
    the order a backtracking matcher tries them. *)
Fixpoint exec (r : regex) (c : cursor) : list cursor :=
  match r with
  | Bol => if (consumed c =? 0)%nat then [c] else []
  | Eol =>
      (* without MULTILINE: at the end, or just before a final newline *)
      match rest c with
      | EmptyString => [c]
      | String a EmptyString => if Ascii.eqb a PyStr.LF then [c] else []
      | _ => []
      end
  | Lit a =>
      match rest c with
      | String b s => if Ascii.eqb a b then [(S (consumed c), s)] else []
      | EmptyString => []
      end
  | Digit =>
      match rest c with
      | String b s => if PyStr.isdigit b then [(S (consumed c), s)] else []
      | EmptyString => []
      end
  | Seq r1 r2 => flat_map (exec r2) (exec r1 c)
  | Opt r' => (exec r' c ++ [c])%list
  | Plus r' => repeat1 (exec r') (S (String.length (rest c))) c
  end.

(** [re.match(r, s)] as a truth value: is there a match starting at the
    beginning of [s]? *)
Definition match_ (r : regex) (s : string) : bool :=
  match exec r (0, s) with
  | [] => false
  | _ :: _ => true
  end.

(** A match that has to end at the very end of the subject. *)
Definition fullmatch (r : regex) (s : string) : bool :=
  existsb (fun c => match rest c with EmptyString => true | _ => false end)
          (exec r (0, s)).

End Re.

Declare Scope regex_scope.
Delimit Scope regex_scope with re.
Bind Scope regex_scope with Re.regex.
Notation "r1 >> r2" := (Re.Seq r1 r2)
  (at level 61, right associativity) : regex_scope.

(* ================================================================== *)
(** ** [os.path] on POSIX *)

Module OsPath.

Definition slash : ascii := "/"%char.

(** [os.path.isabs(p)] *)
Definition isabs (p : string) : bool := PyStr.startswith p "/".

(** [os.path.join(a, b)] *)
Definition join (a b : string) : string :=
  if PyStr.startswith b "/" then b
  else if (a =? "") || PyStr.endswith_char a slash then a ++ b
  else a ++ "/" ++ b.

(** The number of leading slashes [normpath] keeps: POSIX allows one or
    two, and treats three or more as one. *)
Definition initial_slashes (path : string) : nat :=
  if PyStr.startswith path "/" then
    if PyStr.startswith path "//" && negb (PyStr.startswith path "///")
    then 2 else 1
  else 0.

(** One round of the loop of [normpath] over the components. *)
Definition norm_step (initial : nat) (new_comps : list string)
           (comp : string) : list string :=
  if (comp =? "") || (comp =? ".") then new_comps
  else if negb (comp =? "..")
          || ((initial =? 0)%nat && (List.length new_comps =? 0)%nat)
          || (negb (List.length new_comps =? 0)%nat
              && (List.last new_comps "" =? ".."))
  then (new_comps ++ [comp])%list
  else List.removelast new_comps.

(** [os.path.normpath(path)] *)
Definition normpath (path : string) : string :=
  if path =? "" then "."
  else
    let initial := initial_slashes path in
    let comps := fold_left (norm_step initial) (PyStr.split slash path) [] in
    let joined := PyStr.join "/" comps in
    let path' :=
      match initial with
      | 0 => joined
      | 1 => "/" ++ joined
      | _ => "//" ++ joined
      end in
    if path' =? "" then "." else path'.

(** [os.path.abspath(path)] when the working directory is [cwd]. *)
Definition abspath (cwd path : string) : string :=
  normpath (if isabs path then path else join cwd path).

End OsPath.

(* ================================================================== *)
(** ** The environment of a run *)

(** The exceptions that can end a run.  [IOError] stands for the whole
    [OSError] family ([IOError] and [EnvironmentError] are its aliases). *)
Inductive exn : Type :=
| TypeError
| IOError
| ValueError
| KeyError
| IndexError
| ConnectionError
| CalledProcessError (returncode : Z) (cmd : list string).

Inductive result (A : Type) : Type :=
| Ok (a : A)
| Raise (e : exn).
Arguments Ok {A} a.
Arguments Raise {A} e.

(** What [requests.get] comes back with: a response, or an exception of
    the transport (no connection, no name resolution, ...). *)
Inductive http_result : Type :=
| Response (status_code : Z) (text : string)
| TransportFailure.

(** What running an external program comes back with: its exit status, or
    the failure to start it at all. *)
Inductive proc_result : Type :=
| Exited (returncode : Z)
| SpawnFailed.

Inductive event : Type :=
| Print (line : string)
| Chdir (path : string) (ok : bool)
| Open (path : string) (ok : bool)
| HttpGet (url : string) (r : http_result)
| Spawn (argv : list string) (r : proc_result).

Definition trace : Type := list event.

(** The command line, after [argparse]: [BUILD_DIR] defaults to ["."];
    [--key-file] is required, but given without a value it is [None]. *)
Record args : Type := mkArgs {
  build_dir : string;
  key_file : option string
}.

(** The environment.  Every answer may depend on the trace so far. *)
Record world : Type := mkWorld {
  (** the working directory the tool is started in *)
  w_cwd : string;
  (** [os.chdir(path)] from [cwd]: the new working directory, if any *)
  w_chdir : trace -> string -> string -> option string;
  (** the text of the file at a path, if it can be opened and read *)
  w_open : trace -> string -> option string;
  (** [json.load] and the subscripts [data['builds'][0]], [build['name']],
      [build['custom_data']['kubernetes_semver']] on a manifest text: the
      two strings, or the exception raised on the way *)
  w_manifest : string -> result (string * string);
  (** [requests.get(url)] *)
  w_get : trace -> string -> http_result;
  (** running [argv] as an external program, in a working directory *)
  w_spawn : trace -> string -> list string -> proc_result
}.

(** Functions registered with [atexit]. *)
Inductive exitfunc : Type :=
| deactivate_service_account_hook.

Record state : Type := mkState {
  st_cwd : string;
  st_trace : trace;
  st_atexit : list exitfunc
}.

(** The destination of an upload, lines 67-88 of [main]. *)
Record Destination : Type := mkDestination {
  ova : string;
  ova_sum : string;
  rem_ova : string;
  upload_dir : string;
  gcs_ova : string;
  gcs_ova_sum : string;
  url_ova : string;
  url_ova_sum : string
}.

(** [r'^v?\d+\.\d+\.\d(-\d+)?$'] *)
Definition release_pattern : Re.regex :=
  (Re.Bol >> Re.Opt (Re.Lit "v") >>
   Re.Plus Re.Digit >> Re.Lit "." >>
   Re.Plus Re.Digit >> Re.Lit "." >>
   Re.Digit >>
   Re.Opt (Re.Lit "-" >> Re.Plus Re.Digit) >> Re.Eol)%re.

(** Lines 75-78: release or CI image. *)
Definition classify (kubernetes_semver : string) : string :=
  if Re.match_ release_pattern kubernetes_semver then "release" else "ci".

Definition Resolve (name kubernetes_semver : string) : Destination :=
  let ova := name ++ ".ova" in
  let ova_sum := ova ++ ".sha256" in
  let rem_ova := name ++ "-kube-" ++ kubernetes_semver ++ ".ova" in
  let upload_dir := classify kubernetes_semver in
  let gcs_ova :=
    "gs://capv-images/" ++ upload_dir ++ "/" ++ kubernetes_semver
                        ++ "/" ++ rem_ova in
  let gcs_ova_sum := gcs_ova ++ ".sha256" in
  let url_ova :=
    "http://storage.googleapis.com/capv-images/" ++ upload_dir ++ "/"
      ++ kubernetes_semver ++ "/" ++ rem_ova in
  let url_ova_sum := url_ova ++ ".sha256" in
  mkDestination ova ova_sum rem_ova upload_dir
                gcs_ova gcs_ova_sum url_ova url_ova_sum.

(** ["%s" % v] for an optional string. *)
Definition str_of (v : option string) : string :=
  match v with Some s => s | None => "None" end.

(** [a == b] for a string [a] and an optional string [b]. *)
Definition py_eq (a : string) (b : option string) : bool :=
  match b with Some s => a =? s | None => false end.

(* ================================================================== *)
(** ** Computations *)

(** A computation reads and extends the state, and returns a value or
    raises. *)
Definition M (A : Type) : Type := state -> result A * state.

Definition ret {A} (a : A) : M A := fun st => (Ok a, st).

Definition raise {A} (e : exn) : M A := fun st => (Raise e, st).

Definition bind {A B} (m : M A) (k : A -> M B) : M B :=
  fun st =>
    match m st with
    | (Ok a, st') => k a st'
    | (Raise e, st') => (Raise e, st')
    end.

Notation "x <- m ;; k" := (bind m (fun x => k))
  (at level 100, m at next level, right associativity).
Notation "m ;; k" := (bind m (fun _ => k))
  (at level 100, right associativity).

(** The state after one more event. *)
Definition record (e : event) (st : state) : state :=
  mkState (st_cwd st) (st_trace st ++ [e])%list (st_atexit st).

Definition emit (e : event) : M unit := fun st => (Ok tt, record e st).

Definition print (line : string) : M unit := emit (Print line).

(** [os.path.abspath(path)]; [None] is not a path. *)
Definition os_path_abspath (path : option string) : M string :=
  fun st =>
    match path with
    | Some p => (Ok (OsPath.abspath (st_cwd st) p), st)
    | None => (Raise TypeError, st)
    end.

(** [atexit.register(f)] *)
Definition atexit_register (f : exitfunc) : M unit :=
  fun st => (Ok tt, mkState (st_cwd st) (st_trace st) (f :: st_atexit st)).

(* ================================================================== *)
(** ** The script *)

Section Script.

Variable w : world.

(** [os.chdir(path)] *)
Definition os_chdir (path : string) : M unit :=
  fun st =>
    match w_chdir w (st_trace st) (st_cwd st) path with
    | Some cwd' =>
        (Ok tt, mkState cwd' (st_trace st ++ [Chdir path true])%list
                        (st_atexit st))
    | None => (Raise IOError, record (Chdir path false) st)
    end.

(** [with open(path, 'r') as f:], giving the text of the file. *)
Definition open_r (path : string) : M string :=
  fun st =>
    let full := OsPath.join (st_cwd st) path in
    match w_open w (st_trace st) full with
    | Some text => (Ok text, record (Open full true) st)
    | None => (Raise IOError, record (Open full false) st)
    end.

(** [requests.get(url)] *)
Definition requests_get (url : string) : M (Z * string) :=
  fun st =>
    let r := w_get w (st_trace st) url in
    match r with
    | Response status_code text =>
        (Ok (status_code, text), record (HttpGet url r) st)
    | TransportFailure => (Raise ConnectionError, record (HttpGet url r) st)
    end.

(** [subprocess.call(argv)] *)
Definition subprocess_call (argv : list string) : M Z :=
  fun st =>
    let r := w_spawn w (st_trace st) (st_cwd st) argv in
    match r with
    | Exited returncode => (Ok returncode, record (Spawn argv r) st)
    | SpawnFailed => (Raise IOError, record (Spawn argv r) st)
    end.

(** [subprocess.check_call(argv)] *)
Definition subprocess_check_call (argv : list string) : M unit :=
  retcode <- subprocess_call argv ;;
  if (retcode =? 0)%Z then ret tt
  else raise (CalledProcessError retcode argv).

Definition activate_service_account (path : string) : M unit :=
  let args := ["gcloud"; "auth"; "activate-service-account";
               "--key-file"; path] in
  subprocess_check_call args.

Definition deactivate_service_account : M unit :=
  subprocess_call ["gcloud"; "auth"; "revoke"] ;;
  ret tt.

Definition get_remote_checksum (url : string) : M (option string) :=
  r <- requests_get url ;;
  if ((fst r >=? 200) && (fst r <=? 299))%Z
  then ret (Some (PyStr.strip (snd r)))
  else ret None.

Definition get_local_checksum (path : string) : M string :=
  f <- open_r path ;;
  ret (PyStr.strip (PyStr.readline f)).

(** Lines 56-65: the name of the first build and its Kubernetes version. *)
Definition load_manifest : M (string * string) :=
  f <- open_r "packer-manifest.json" ;;
  match w_manifest w f with
  | Ok build => ret build
  | Raise e => raise e
  end.

Definition main (a : args) : M unit :=
  (* Get the absolute path to the GCS key file. *)
  key_file <- os_path_abspath (key_file a) ;;
  (* Change the working directory if one is specified. *)
  os_chdir (build_dir a) ;;
  print ("image-build-ova: cd " ++ build_dir a) ;;
  (* Load the packer manifest JSON and get the first build. *)
  build <- load_manifest ;;
  let name := fst build in
  let kubernetes_semver := snd build in
  print ("image-upload-ova: loaded " ++ name ++ "-kube-"
           ++ kubernetes_semver) ;;
  let d := Resolve name kubernetes_semver in
  (* Compare the remote checksum with the local checksum. *)
  lcl_ova_sum_val <- get_local_checksum (ova_sum d) ;;
  print ("image-upload-ova:  local sha256 " ++ lcl_ova_sum_val) ;;
  rem_ova_sum_val <- get_remote_checksum (url_ova_sum d) ;;
  print ("image-upload-ova: remote sha256 " ++ str_of rem_ova_sum_val) ;;
  if py_eq lcl_ova_sum_val rem_ova_sum_val then
    print "image-upload-ova: skipping upload" ;;
    print ("image-upload-ova: download from " ++ url_ova d) ;;
    ret tt
  else
    (* Activate the GCS service account. *)
    activate_service_account key_file ;;
    atexit_register deactivate_service_account_hook ;;
    (* Upload the OVA and its checksum. *)
    print ("image-upload-ova: upload " ++ gcs_ova d) ;;
    subprocess_check_call ["gsutil"; "cp"; ova d; gcs_ova d] ;;
    print ("image-upload-ova: upload " ++ gcs_ova_sum d) ;;
    subprocess_check_call ["gsutil"; "cp"; ova_sum d; gcs_ova_sum d] ;;
    print ("image-upload-ova: download from " ++ url_ova d).

(** *** The interpreter around [main] *)

Definition run_exitfunc (f : exitfunc) : M unit :=
  match f with
  | deactivate_service_account_hook => deactivate_service_account
  end.

(** At exit the registered functions run, last registered first; an
    exception of one of them is reported and dropped. *)
Fixpoint run_exitfuncs (fs : list exitfunc) (st : state) : state :=
  match fs with
  | [] => st
  | f :: fs' => run_exitfuncs fs' (snd (run_exitfunc f st))
  end.

Definition initial_state : state := mkState (w_cwd w) [] [].

(** The exit status of the interpreter: 1 after an uncaught exception. *)
Definition exit_status (r : result unit) : Z :=
  match r with Ok _ => 0 | Raise _ => 1 end.

(** A whole run: [main], then the exit functions. *)
Definition run (a : args) : result unit * trace :=
  let (r, st) := main a initial_state in
  (r, st_trace (run_exitfuncs (st_atexit st) st)).

End Script.

(* ================================================================== *)
(** ** The phases of [main] *)

Section Phases.

Variable w : world.

(** Lines 49-88: the key file, the build directory, the manifest and the
    destination. *)
Definition locate (a : args) : M (string * Destination) :=
  key_file <- os_path_abspath (key_file a) ;;
  os_chdir w (build_dir a) ;;
  print ("image-build-ova: cd " ++ build_dir a) ;;
  build <- load_manifest w ;;
  print ("image-upload-ova: loaded " ++ fst build ++ "-kube-"
           ++ snd build) ;;
  ret (key_file, Resolve (fst build) (snd build)).

(** Lines 90-94: the two checksums. *)
Definition checksums (d : Destination) : M (string * option string) :=
  lcl_ova_sum_val <- get_local_checksum w (ova_sum d) ;;
  print ("image-upload-ova:  local sha256 " ++ lcl_ova_sum_val) ;;
  rem_ova_sum_val <- get_remote_checksum w (url_ova_sum d) ;;
  print ("image-upload-ova: remote sha256 " ++ str_of rem_ova_sum_val) ;;
  ret (lcl_ova_sum_val, rem_ova_sum_val).

(** Lines 95-110: skip, or authenticate and upload. *)
Definition decide (key_file : string) (d : Destination)
           (lcl_ova_sum_val : string) (rem_ova_sum_val : option string)
  : M unit :=
  if py_eq lcl_ova_sum_val rem_ova_sum_val then
    print "image-upload-ova: skipping upload" ;;
    print ("image-upload-ova: download from " ++ url_ova d) ;;
    ret tt
  else
    activate_service_account w key_file ;;
    atexit_register deactivate_service_account_hook ;;
    print ("image-upload-ova: upload " ++ gcs_ova d) ;;
    subprocess_check_call w ["gsutil"; "cp"; ova d; gcs_ova d] ;;
    print ("image-upload-ova: upload " ++ gcs_ova_sum d) ;;
    subprocess_check_call w ["gsutil"; "cp"; ova_sum d; gcs_ova_sum d] ;;
    print ("image-upload-ova: download from " ++ url_ova d).

(** [main], phase by phase. *)
Definition main_by_phases (a : args) : M unit :=
  kd <- locate a ;;
  sums <- checksums (snd kd) ;;
  decide (fst kd) (snd kd) (fst sums) (snd sums).

End Phases.

(* ================================================================== *)
(** ** Vocabulary for traces and outcomes *)

(** From here on [++] joins traces; strings are joined with [%string]. *)
Local Open Scope list_scope.

Definition activate_argv (path : string) : list string :=
  ["gcloud"; "auth"; "activate-service-account"; "--key-file"; path].

Definition revoke_argv : list string := ["gcloud"; "auth"; "revoke"].

Definition artifact_copy_argv (d : Destination) : list string :=
  ["gsutil"; "cp"; ova d; gcs_ova d].

Definition checksum_copy_argv (d : Destination) : list string :=
  ["gsutil"; "cp"; ova_sum d; gcs_ova_sum d].

(** An external program was started, or its start was attempted.  These
    are the only events through which a run changes anything outside of
    its own process: credentials and remote objects. *)
Definition is_spawn (e : event) : bool :=
  match e with Spawn _ _ => true | _ => false end.

Definition spawns (tr : trace) : trace := filter is_spawn tr.

(** The outcome of [subprocess.check_call] for a result of the program. *)
Definition checked (argv : list string) (r : proc_result) : result unit :=
  match r with
  | Exited returncode =>
      if (returncode =? 0)%Z then Ok tt
      else Raise (CalledProcessError returncode argv)
  | SpawnFailed => Raise IOError
  end.

(** The result of [get_remote_checksum] for an answer of the endpoint. *)
Definition remote_checksum (r : http_result) : result (option string) :=
  match r with
  | Response status_code text =>
      if ((status_code >=? 200) && (status_code <=? 299))%Z
      then Ok (Some (PyStr.strip text)) else Ok None
  | TransportFailure => Raise ConnectionError
  end.

(** The result of [get_local_checksum] for a sidecar file. *)
Definition local_checksum (f : option string) : result string :=
  match f with
  | Some text => Ok (PyStr.strip (PyStr.readline text))
  | None => Raise IOError
  end.

(** The events of the SKIP path after the checksums were compared. *)
Definition skip_report (d : Destination) : trace :=
  [Print "image-upload-ova: skipping upload";
   Print ("image-upload-ova: download from " ++ url_ova d)%string].

(** The trace of a whole run that leaves [main] in state [st]. *)
Definition at_exit (w : world) (st : state) : trace :=
  st_trace (run_exitfuncs w (st_atexit st) st).

(** [c] is [s] stripped of surrounding whitespace. *)
Definition stripped_of (s c : string) : Prop :=
  exists pre post,
    s = (pre ++ c ++ post)%string
    /\ PyStr.all_space pre = true /\ PyStr.all_space post = true
    /\ match PyStr.first c with
       | Some a => PyStr.isspace a = false
       | None => True
       end
    /\ match PyStr.last c with
       | Some a => PyStr.isspace a = false
       | None => True
       end.

(** The fixed roots of the two kinds of address. *)
Definition bucket_root : string := "gs://capv-images/".
Definition public_root : string :=
  "http://storage.googleapis.com/capv-images/".

(** The release pattern in the words of the specification: an optional
    leading [v], one or more digits, a dot, one or more digits, a dot, one
    or more digits, optionally followed by a dash and one or more digits;
    the whole version string has to match. *)
Definition spec_release_pattern : Re.regex :=
  (Re.Opt (Re.Lit "v") >>
   Re.Plus Re.Digit >> Re.Lit "." >>
   Re.Plus Re.Digit >> Re.Lit "." >>
   Re.Plus Re.Digit >>
   Re.Opt (Re.Lit "-" >> Re.Plus Re.Digit))%re.

Definition spec_classify (version : string) : string :=
  if Re.fullmatch spec_release_pattern version then "release" else "ci".

(** *** What a pattern matches

    The matcher [Re.exec] is checked against this description. *)
Module ReSpec.
Import Re.

(** One or more steps of [R], each but the last consuming something. *)
Inductive iter1 (R : cursor -> cursor -> Prop) : cursor -> cursor -> Prop :=
| iter1_once c c' : R c c' -> iter1 R c c'
| iter1_more c c1 c2 :
    R c c1 ->
    String.length (rest c1) < String.length (rest c) ->
    iter1 R c1 c2 ->
    iter1 R c c2.

(** [matches r c c']: a match of [r] started at [c] can end at [c']. *)
Fixpoint matches (r : regex) (c c' : cursor) : Prop :=
  match r with
  | Bol => consumed c = 0 /\ c' = c
  | Eol => (rest c = "" \/ rest c = String PyStr.LF "") /\ c' = c
  | Lit a => exists s, rest c = String a s /\ c' = (S (consumed c), s)
  | Digit =>
      exists b s,
        rest c = String b s /\ PyStr.isdigit b = true
        /\ c' = (S (consumed c), s)
  | Seq r1 r2 => exists c1, matches r1 c c1 /\ matches r2 c1 c'
  | Opt r' => matches r' c c' \/ c' = c
  | Plus r' => iter1 (matches r') c c'
  end.

End ReSpec.

Fixpoint all_digits (s : string) : bool :=
  match s with
  | EmptyString => true
  | String c s' => PyStr.isdigit c && all_digits s'
  end.

(** One or more decimal digits. *)
Definition number (s : string) : Prop := s <> "" /\ all_digits s = true.

(** The versions the pattern of the script matches. *)
Definition script_release_shape (v : string) : Prop :=
  exists pre major minor patch build nl,
    v = (pre ++ major ++ "." ++ minor ++ "." ++ String patch (build ++ nl))%string
    /\ (pre = "" \/ pre = "v")
    /\ number major /\ number minor /\ PyStr.isdigit patch = true
    /\ (build = "" \/ exists b, number b /\ build = String "-" b)
    /\ (nl = "" \/ nl = String PyStr.LF "").

(** The versions the specification calls releases. *)
Definition spec_release_shape (v : string) : Prop :=
  exists pre major minor patch build,
    v = (pre ++ major ++ "." ++ minor ++ "." ++ patch ++ build)%string
    /\ (pre = "" \/ pre = "v")
    /\ number major /\ number minor /\ number patch
    /\ (build = "" \/ exists b, number b /\ build = String "-" b).

(** Two worlds that differ at most in how [gcloud auth revoke] ends. *)
Record same_but_revoke (w w' : world) : Prop := {
  sbr_cwd : w_cwd w = w_cwd w';
  sbr_chdir : forall t c p, w_chdir w t c p = w_chdir w' t c p;
  sbr_open : forall t p, w_open w t p = w_open w' t p;
  sbr_manifest : forall text, w_manifest w text = w_manifest w' text;
  sbr_get : forall t u, w_get w t u = w_get w' t u;
  sbr_spawn : forall t c argv,
      argv <> revoke_argv -> w_spawn w t c argv = w_spawn w' t c argv
}.

(** *** The outcomes of the publish path

    [publish_outcome w k d st r st'] lists what [decide] can do from [st]
    once the checksums differ: stop at a failed authentication, stop at a
    failed copy of the artifact, or reach the copy of the checksum. *)
Inductive publish_outcome (w : world) (k : string) (d : Destination)
          (st : state) : result unit -> state -> Prop :=
| po_auth_failed r1 :
    w_spawn w (st_trace st) (st_cwd st) (activate_argv k) = r1 ->
    r1 <> Exited 0 ->
    publish_outcome w k d st (checked (activate_argv k) r1)
      (mkState (st_cwd st)
         (st_trace st ++ [Spawn (activate_argv k) r1])
         (st_atexit st))
| po_artifact_failed r2 :
    w_spawn w (st_trace st) (st_cwd st) (activate_argv k) = Exited 0 ->
    w_spawn w
      (st_trace st ++
         [Spawn (activate_argv k) (Exited 0);
          Print ("image-upload-ova: upload " ++ gcs_ova d)%string])
      (st_cwd st) (artifact_copy_argv d) = r2 ->
    r2 <> Exited 0 ->
    publish_outcome w k d st (checked (artifact_copy_argv d) r2)
      (mkState (st_cwd st)
         (st_trace st ++
            [Spawn (activate_argv k) (Exited 0);
             Print ("image-upload-ova: upload " ++ gcs_ova d)%string;
             Spawn (artifact_copy_argv d) r2])
         (deactivate_service_account_hook :: st_atexit st))
| po_checksum r3 :
    w_spawn w (st_trace st) (st_cwd st) (activate_argv k) = Exited 0 ->
    w_spawn w
      (st_trace st ++
         [Spawn (activate_argv k) (Exited 0);
          Print ("image-upload-ova: upload " ++ gcs_ova d)%string])
      (st_cwd st) (artifact_copy_argv d) = Exited 0 ->
    w_spawn w
      (st_trace st ++
         [Spawn (activate_argv k) (Exited 0);
          Print ("image-upload-ova: upload " ++ gcs_ova d)%string;
          Spawn (artifact_copy_argv d) (Exited 0);
          Print ("image-upload-ova: upload " ++ gcs_ova_sum d)%string])
      (st_cwd st) (checksum_copy_argv d) = r3 ->
    publish_outcome w k d st (checked (checksum_copy_argv d) r3)
      (mkState (st_cwd st)
         (st_trace st ++
            [Spawn (activate_argv k) (Exited 0);
             Print ("image-upload-ova: upload " ++ gcs_ova d)%string;
             Spawn (artifact_copy_argv d) (Exited 0);
             Print ("image-upload-ova: upload " ++ gcs_ova_sum d)%string;
             Spawn (checksum_copy_argv d) r3]
            ++ match checked (checksum_copy_argv d) r3 with
               | Ok _ =>
                   [Print ("image-upload-ova: download from "
                             ++ url_ova d)%string]
               | Raise _ => []
               end)
         (deactivate_service_account_hook :: st_atexit st)).

(** *** The outcomes of a run *)
Inductive run_outcome (w : world) (a : args) : result unit -> trace -> Prop :=
| ro_locate_failed e st1 :
    locate w a (initial_state w) = (Raise e, st1) ->
    run_outcome w a (Raise e) (st_trace st1)
| ro_checksums_failed k d st1 e st2 :
    locate w a (initial_state w) = (Ok (k, d), st1) ->
    checksums w d st1 = (Raise e, st2) ->
    run_outcome w a (Raise e) (st_trace st2)
| ro_skip k d st1 lcl st2 :
    locate w a (initial_state w) = (Ok (k, d), st1) ->
    checksums w d st1 = (Ok (lcl, Some lcl), st2) ->
    run_outcome w a (Ok tt) (st_trace st2 ++ skip_report d)
| ro_publish k d st1 lcl rem st2 r st3 :
    locate w a (initial_state w) = (Ok (k, d), st1) ->
    checksums w d st1 = (Ok (lcl, rem), st2) ->
    rem <> Some lcl ->
    publish_outcome w k d st2 r st3 ->
    run_outcome w a r (at_exit w st3).

(** *** A concrete environment

    The tool is started in [/home/u] as
    [image-upload.py --key-file key.json out]; the build directory holds
    the manifest of the build [centos] for Kubernetes [v1.15.3]. *)
Module Demo.

Definition cmdline : args := mkArgs "out" (Some "key.json").

Definition manifest_text : string := "manifest of centos, v1.15.3".

Definition files (sidecar : option string) (p : string) : option string :=
  if (p =? "/home/u/out/packer-manifest.json")%string
  then Some manifest_text
  else if (p =? "/home/u/out/centos.ova.sha256")%string then sidecar
  else None.

Definition decode (text : string) : result (string * string) :=
  if (text =? manifest_text)%string then Ok ("centos", "v1.15.3")
  else Raise ValueError.

(** The sidecar file, the answer of the HTTP endpoint and the behaviour
    of the external tools vary. *)
Definition world_of (sidecar : option string) (remote : http_result)
           (tools : list string -> proc_result) : world :=
  mkWorld "/home/u"
          (fun _ cwd p => Some (OsPath.abspath cwd p))
          (fun _ p => files sidecar p)
          decode
          (fun _ _ => remote)
          (fun _ _ argv => tools argv).

Definition all_succeed (argv : list string) : proc_result := Exited 0.

(** Every tool succeeds, except that [gsutil cp] of the artifact ends
    with status 1. *)
Definition artifact_copy_fails (argv : list string) : proc_result :=
  match argv with
  | ["gsutil"; "cp"; "centos.ova"; _] => Exited 1
  | _ => Exited 0
  end.

(** [gcloud] ends with status 1 whatever it is asked to do. *)
Definition gcloud_fails (argv : list string) : proc_result :=
  match argv with
  | "gcloud" :: _ => Exited 1
  | _ => Exited 0
  end.

(** Only [gcloud auth revoke] fails. *)
Definition revoke_fails (argv : list string) : proc_result :=
  if list_eq_dec string_dec argv revoke_argv then Exited 1 else Exited 0.

Definition sidecar_text : string :=
  "abc123  centos.ova" ++ String PyStr.LF "".

Definition d : Destination := Resolve "centos" "v1.15.3".

(** The remote checksum is the local one. *)
Definition w_published : world :=
  world_of (Some sidecar_text) (Response 200 sidecar_text) all_succeed.

(** Nothing was uploaded before. *)
Definition w_first : world :=
  world_of (Some sidecar_text) (Response 404 "Not Found") all_succeed.

Definition w_artifact_copy_fails : world :=
  world_of (Some sidecar_text) (Response 404 "Not Found")
           artifact_copy_fails.

Definition w_gcloud_fails : world :=
  world_of (Some sidecar_text) (Response 404 "Not Found") gcloud_fails.

Definition w_revoke_fails : world :=
  world_of (Some sidecar_text) (Response 404 "Not Found") revoke_fails.

(** The endpoint answers with status 500. *)
Definition w_server_error : world :=
  world_of (Some sidecar_text) (Response 500 "Internal Server Error")
           all_succeed.

(** The endpoint cannot be reached. *)
Definition w_offline : world :=
  world_of (Some sidecar_text) TransportFailure all_succeed.

(** The build directory has no sidecar file. *)
Definition w_no_sidecar : world :=
  world_of None (Response 404 "Not Found") all_succeed.

(** The sidecar file is empty and so is the remote object. *)
Definition w_empty : world :=
  world_of (Some "") (Response 200 (String PyStr.LF "")) all_succeed.

(** The state in which [main] reaches line 90, and line 95. *)
Definition located (w : world) : state :=
  snd (locate w cmdline (initial_state w)).

Definition compared (w : world) : state :=
  snd (checksums w d (located w)).

End Demo.

(* ================================================================== *)
(** ** More vocabulary for runs *)

(** The sidecar file as [get_local_checksum] opens it from state [st]. *)
Definition sidecar_path (st : state) (d : Destination) : string :=
  OsPath.join (st_cwd st) (ova_sum d).

(** The trace at the time the endpoint is asked, after the local checksum
    [lcl] was read from state [st]. *)
Definition asked (st : state) (d : Destination) (lcl : string) : trace :=
  st_trace st ++
    [Open (sidecar_path st d) true;
     Print ("image-upload-ova:  local sha256 " ++ lcl)%string].

(** *** The outcomes of reading the two checksums *)
Inductive checksums_outcome (w : world) (d : Destination) (st : state)
  : result (string * option string) -> state -> Prop :=
| co_no_sidecar :
    w_open w (st_trace st) (sidecar_path st d) = None ->
    checksums_outcome w d st (Raise IOError)
      (mkState (st_cwd st)
         (st_trace st ++ [Open (sidecar_path st d) false])
         (st_atexit st))
| co_no_answer text :
    w_open w (st_trace st) (sidecar_path st d) = Some text ->
    w_get w (asked st d (PyStr.strip (PyStr.readline text))) (url_ova_sum d)
    = TransportFailure ->
    checksums_outcome w d st (Raise ConnectionError)
      (mkState (st_cwd st)
         (asked st d (PyStr.strip (PyStr.readline text))
            ++ [HttpGet (url_ova_sum d) TransportFailure])
         (st_atexit st))
| co_answer text status_code body rem :
    w_open w (st_trace st) (sidecar_path st d) = Some text ->
    w_get w (asked st d (PyStr.strip (PyStr.readline text))) (url_ova_sum d)
    = Response status_code body ->
    remote_checksum (Response status_code body) = Ok rem ->
    checksums_outcome w d st
      (Ok (PyStr.strip (PyStr.readline text), rem))
      (mkState (st_cwd st)
         (asked st d (PyStr.strip (PyStr.readline text))
            ++ [HttpGet (url_ova_sum d) (Response status_code body);
                Print ("image-upload-ova: remote sha256 " ++ str_of rem)%string])
         (st_atexit st)).

(** An HTTP request was made. *)
Definition is_get (e : event) : bool :=
  match e with HttpGet _ _ => true | _ => false end.

Definition gets (tr : trace) : trace := filter is_get tr.

(** A line that reports where the image can be downloaded from. *)
Definition is_download_report (e : event) : bool :=
  match e with
  | Print line => String.prefix "image-upload-ova: download from " line
  | _ => false
  end.

Definition download_reports (tr : trace) : trace :=
  filter is_download_report tr.

(** No line break in a string. *)
Fixpoint one_line (s : string) : bool :=
  match s with
  | EmptyString => true
  | String c s' =>
      negb (Ascii.eqb c PyStr.LF || Ascii.eqb c PyStr.CR) && one_line s'
  end.

(** *** More concrete environments *)
Module Startup.

(** [image-upload.py out --key-file]: the flag without a value. *)
Definition no_key : args := mkArgs "out" None.

(** The build directory cannot be entered. *)
Definition w_no_build_dir : world :=
  mkWorld "/home/u" (fun _ _ _ => None) (fun _ p => Demo.files None p)
          Demo.decode (fun _ _ => TransportFailure) (fun _ _ _ => SpawnFailed).

(** The build directory is empty. *)
Definition w_no_manifest : world :=
  mkWorld "/home/u" (fun _ cwd p => Some (OsPath.abspath cwd p))
          (fun _ _ => None)
          Demo.decode (fun _ _ => TransportFailure) (fun _ _ _ => SpawnFailed).

(** The manifest is not JSON. *)
Definition w_bad_manifest : world :=
  mkWorld "/home/u" (fun _ cwd p => Some (OsPath.abspath cwd p))
          (fun _ p => Demo.files None p)
          (fun _ => Raise ValueError)
          (fun _ _ => TransportFailure) (fun _ _ _ => SpawnFailed).

(** The remote object holds two lines. *)
Definition w_two_lines : world :=
  Demo.world_of (Some Demo.sidecar_text)
                (Response 200 ("abc123  centos.ova" ++ String PyStr.LF "x"))
                Demo.all_succeed.

End Startup.

(* ================================================================== *)
(** ** support/gobuild: the build target and its helpers

    The build farm runs these modules with the Python 2.7 its tool chain
    pins: a [str] is a string of bytes, [map] gives a list, a file opened
    in text mode is read as it is, and in a pattern [\s] is one of the six
    ASCII blanks and [.] any byte but the line feed.  Paths are POSIX
    paths. *)

Module GoBuild.

(** A dictionary from strings to strings, in the order of insertion. *)
Definition dict : Type := list (string * string).

(** [d.get(key)] *)
Fixpoint dict_get (d : dict) (key : string) : option string :=
  match d with
  | [] => None
  | (k, v) :: d' => if (k =? key)%string then Some v else dict_get d' key
  end.

(** [d[key] = value] *)
Fixpoint dict_set (d : dict) (key value : string) : dict :=
  match d with
  | [] => [(key, value)]
  | (k, v) :: d' =>
      if (k =? key)%string then (k, value) :: d'
      else (k, v) :: dict_set d' key value
  end.

(** The exceptions of these modules. *)
Inductive target_exn : Type :=
| TargetException (msg : string)
| AssertionError
| KeyError (key : string).

Inductive outcome (A : Type) : Type :=
| Returns (a : A)
| Raises (e : target_exn).
Arguments Returns {A} a.
Arguments Raises {A} e.

(** *** [helpers/util.py] *)

(** [p.rfind('/') + 1]: the number of characters up to the last slash and
    with it, 0 if there is none. *)
Fixpoint rfind_slash_plus_1 (p : string) : nat :=
  match p with
  | EmptyString => 0
  | String c p' =>
      match rfind_slash_plus_1 p' with
      | 0 => if Ascii.eqb c "/" then 1 else 0
      | S n => S (S n)
      end
  end.

(** [p[i:]] *)
Fixpoint slice_from (i : nat) (p : string) : string :=
  match i, p with
  | 0, _ => p
  | S _, EmptyString => EmptyString
  | S i', String _ p' => slice_from i' p'
  end.

(** [p[:i]] *)
Fixpoint slice_to (i : nat) (p : string) : string :=
  match i, p with
  | 0, _ => EmptyString
  | S _, EmptyString => EmptyString
  | S i', String c p' => String c (slice_to i' p')
  end.

(** [os.path.basename(p)] *)
Definition basename (p : string) : string :=
  slice_from (rfind_slash_plus_1 p) p.

(** Patterns, as far as [ExtractMacro] builds them; [Group] is the one
    group of the pattern. *)
Inductive rx : Type :=
| Eps                            (* nothing *)
| Bol                            (* ^ *)
| Eol                            (* $ *)
| Chr (p : ascii -> bool)        (* one character: a literal, \s, ., [.] *)
| Seq (r1 r2 : rx)               (* r1 r2 *)
| Star (r : rx)                  (* r* *)
| Plus (r : rx)                  (* r+ *)
| Group (r : rx).                (* (r) *)

(** A position in the subject: how much was consumed, what is left, and
    what the group has matched. *)
Record rx_cursor : Type := mkCursor {
  consumed : nat;
  rest : string;
  group1 : option string
}.

(** Zero or more repetitions of [step], longest first.  A repetition that
    consumed nothing is not repeated again. *)
Fixpoint many (step : rx_cursor -> list rx_cursor) (fuel : nat) (c : rx_cursor)
  : list rx_cursor :=
  match fuel with
  | O => [c]
  | S fuel' =>
      flat_map
        (fun c' =>
           if (String.length (rest c') <? String.length (rest c))%nat
           then many step fuel' c' else [])
        (step c)
      ++ [c]
  end.

(** All the positions at which a match of [r] started at [c] can end, in
    the order a backtracking matcher tries them. *)
Fixpoint rx_exec (r : rx) (c : rx_cursor) : list rx_cursor :=
  match r with
  | Eps => [c]
  | Bol => if (consumed c =? 0)%nat then [c] else []
  | Eol =>
      match rest c with
      | EmptyString => [c]
      | String a EmptyString => if Ascii.eqb a PyStr.LF then [c] else []
      | _ => []
      end
  | Chr p =>
      match rest c with
      | String b s =>
          if p b then [mkCursor (S (consumed c)) s (group1 c)] else []
      | EmptyString => []
      end
  | Seq r1 r2 => flat_map (rx_exec r2) (rx_exec r1 c)
  | Star r' => many (rx_exec r') (String.length (rest c)) c
  | Plus r' =>
      flat_map (fun c' => many (rx_exec r') (String.length (rest c')) c')
               (rx_exec r' c)
  | Group r' =>
      map (fun c' =>
             mkCursor (consumed c') (rest c')
                      (Some (slice_to (consumed c' - consumed c) (rest c))))
          (rx_exec r' c)
  end.

(** [regexp.match(line)]: the first match, if there is one. *)
Definition rx_match (r : rx) (line : string) : option rx_cursor :=
  match rx_exec r (mkCursor 0 line None) with
  | [] => None
  | m :: _ => Some m
  end.

(** [m.group(1)] *)
Definition group (m : rx_cursor) : string :=
  match group1 m with Some s => s | None => EmptyString end.

(** The character classes of the pattern. *)
Definition quote : ascii := "034"%char.

Definition lit (a : ascii) : rx := Chr (Ascii.eqb a).

(** [\s]: blank, TAB, LF, VT, FF, CR. *)
Definition blank (c : ascii) : bool :=
  let n := nat_of_ascii c in
  (((9 <=? n) && (n <=? 13)) || (n =? 32))%nat.

(** [.]: any character but the line feed. *)
Definition dot (c : ascii) : bool := negb (Ascii.eqb c PyStr.LF).

(** The characters that are not taken literally in a pattern. *)
Definition special (c : ascii) : bool :=
  existsb (Ascii.eqb c)
          (list_ascii_of_string ".^$*+?{}[]\|()").

Fixpoint plain (s : string) : bool :=
  match s with
  | EmptyString => true
  | String c s' => negb (special c) && plain s'
  end.

(** The pattern a text without special characters stands for. *)
Fixpoint literal (s : string) : rx :=
  match s with
  | EmptyString => Eps
  | String c s' => Seq (lit c) (literal s')
  end.

(** [re.compile(r'^\s*#\s*define\s+%s\s+"(.+[.].+[.].+)"\s*$' % macro)],
    for a macro without special characters; for any other macro the
    pattern is not given here. *)
Definition ExtractMacro_pattern (macro : string) : option rx :=
  if plain macro then
    Some (Seq Bol (Seq (Star (Chr blank)) (Seq (lit "#")
         (Seq (Star (Chr blank)) (Seq (literal "define")
         (Seq (Plus (Chr blank)) (Seq (literal macro)
         (Seq (Plus (Chr blank)) (Seq (lit quote)
         (Seq (Group
                 (Seq (Plus (Chr dot)) (Seq (lit ".")
                 (Seq (Plus (Chr dot)) (Seq (lit ".")
                      (Plus (Chr dot)))))))
         (Seq (lit quote) (Seq (Star (Chr blank)) Eol))))))))))))
  else None.

(** The lines of a file, as [for line in fh] gives them: each with the
    line feed that ends it, the last one as it is. *)
Fixpoint readlines (s : string) : list string :=
  match s with
  | EmptyString => []
  | String c s' =>
      if Ascii.eqb c PyStr.LF then String c EmptyString :: readlines s'
      else
        match readlines s' with
        | [] => [String c EmptyString]
        | line :: lines => String c line :: lines
        end
  end.

(** The loop of [ExtractMacro] over the lines. *)
Fixpoint first_match (regexp : rx) (lines : list string) : string :=
  match lines with
  | [] => EmptyString
  | line :: lines' =>
      match rx_match regexp line with
      | Some m => group m
      | None => first_match regexp lines'
      end
  end.

(** The dictionary that describes a command. *)
Record command_dict : Type := mkCommand {
  desc : string;
  root : string;
  log : string;
  command : string;
  env : dict
}.

(** [not logfile], for a name that may be [None]. *)
Definition not_given (logfile : option string) : bool :=
  match logfile with
  | None => true
  | Some s => (s =? "")%string
  end.

Section Util.

(** [os.environ] *)
Variable environ : dict.

(** The text of a file, if it can be opened and read. *)
Variable files : string -> option string.

(** [ExtractMacro(filename, macro)], for a macro without special
    characters ([None] for any other). *)
Definition ExtractMacro (filename macro : string) : option string :=
  match ExtractMacro_pattern macro with
  | None => None
  | Some regexp =>
      Some match files filename with
           | Some text => first_match regexp (readlines text)
           | None => EmptyString
           end
  end.

Definition MkdirCommand (hosttype path : string) (root : string)
           (logfile : option string) : outcome command_dict :=
  let logfile :=
    if not_given logfile then ("mkdir-" ++ basename path ++ ".log")%string
    else match logfile with Some s => s | None => EmptyString end in
  let mkdir : outcome string :=
    if PyStr.startswith hosttype "linux" then
      Returns "/build/toolchain/lin32/coreutils-5.97/bin/mkdir"%string
    else if PyStr.startswith hosttype "macosx" then
      Returns "/build/toolchain/mac32/coreutils-5.97/bin/mkdir"%string
    else if PyStr.startswith hosttype "windows" then
      let tcroot :=
        match dict_get environ "TCROOT" with
        | Some v => v
        | None => "C:/TCROOT-not-set"%string
        end in
      Returns (tcroot ++ "/win32/coreutils-5.3.0/bin/mkdir.exe")%string
    else Raises (TargetException ("Unknown hosttype " ++ hosttype)%string) in
  match mkdir with
  | Raises e => Raises e
  | Returns mkdir =>
      Returns (mkCommand ("Creating directory " ++ path)%string root logfile
                         (mkdir ++ " -p " ++ path)%string [])
  end.

End Util.

(** *** [targets/vio_cluster_api.py] *)

(** [os.pathsep] *)
Definition pathsep : string := ":".

Section Target.

(** [helpers.env.SafeEnvironment]: the environment to start from. *)
Variable SafeEnvironment : string -> dict.

Definition _GetEnvironment (hosttype : string) : outcome dict :=
  if negb (PyStr.startswith hosttype "linux") then Raises AssertionError
  else
    let env := SafeEnvironment hosttype in
    (* Add mounted toolchain programs *)
    let paths :=
      map (fun x => ("/build/toolchain/lin64/" ++ x ++ "/bin")%string)
          ["python-2.7.8"; "make-3.81"; "coreutils-5.97"; "tar-1.23"]%string in
    (* Add cayman toolchain python with dependencies *)
    match dict_get env "PATH" with
    | None => Raises (KeyError "PATH")
    | Some path =>
        let env :=
          dict_set env "PATH"
            (PyStr.join pathsep
               (paths ++
                  ["/build/toolchain//lin32/git-2.6.2/bin";
                   "/build/toolchain/lin32/rsync-3.0.7/bin";
                   path])) in
        (* Adding other paths *)
        match dict_get env "PATH" with
        | None => Raises (KeyError "PATH")
        | Some path =>
            let env :=
              dict_set env "PATH"
                (PyStr.join pathsep
                   (paths ++
                      ["/usr/bin"; "/bin"; "/sbin"; "/usr/sbin"; path])) in
            let env :=
              dict_set env "PYTHONPATH"
                (PyStr.join pathsep
                   ["/build/toolchain/noarch/jinja2-2.5.5/lib/python2.7/site-packages";
                    "/build/toolchain/lin64/pyyaml-3.10/lib/python2.7/site-packages";
                    "/build/toolchain/noarch/argparse-1.1/lib/python2.6/site-packages"]) in
            Returns env
        end
    end.

End Target.

End GoBuild.

(** *** Vocabulary for the build target *)

Module GoBuildSpec.
Import GoBuild.

(** Every character of [s] passes [p]. *)
Fixpoint all (p : ascii -> bool) (s : string) : bool :=
  match s with
  | EmptyString => true
  | String c s' => p c && all p s'
  end.

Definition no_slash (s : string) : Prop :=
  all (fun c => negb (Ascii.eqb c "/")) s = true.

(** The three families of host types [MkdirCommand] knows. *)
Definition known_host (hosttype : string) : bool :=
  PyStr.startswith hosttype "linux"
  || PyStr.startswith hosttype "macosx"
  || PyStr.startswith hosttype "windows".

(** The directories of the tool chain, of the system, and of the two
    more tools. *)
Definition toolchain : list string :=
  ["/build/toolchain/lin64/python-2.7.8/bin";
   "/build/toolchain/lin64/make-3.81/bin";
   "/build/toolchain/lin64/coreutils-5.97/bin";
   "/build/toolchain/lin64/tar-1.23/bin"]%string.

Definition system_dirs : list string :=
  ["/usr/bin"; "/bin"; "/sbin"; "/usr/sbin"]%string.

Definition more_tools : list string :=
  ["/build/toolchain//lin32/git-2.6.2/bin";
   "/build/toolchain/lin32/rsync-3.0.7/bin"]%string.

Definition python_path : list string :=
  ["/build/toolchain/noarch/jinja2-2.5.5/lib/python2.7/site-packages";
   "/build/toolchain/lin64/pyyaml-3.10/lib/python2.7/site-packages";
   "/build/toolchain/noarch/argparse-1.1/lib/python2.6/site-packages"]%string.

End GoBuildSpec.

(** *** What the pattern of [ExtractMacro] matches *)

Module RxSpec.
Import GoBuild GoBuildSpec.

(** Any number of steps of [R], each consuming something. *)
Inductive iter (R : rx_cursor -> rx_cursor -> Prop) : rx_cursor -> rx_cursor -> Prop :=
| iter_stop c : iter R c c
| iter_more c c1 c2 :
    R c c1 ->
    String.length (rest c1) < String.length (rest c) ->
    iter R c1 c2 ->
    iter R c c2.

(** [rx_matches r c c']: a match of [r] started at [c] can end at [c']. *)
Fixpoint rx_matches (r : rx) (c c' : rx_cursor) : Prop :=
  match r with
  | Eps => c' = c
  | Bol => consumed c = 0 /\ c' = c
  | Eol => (rest c = ""%string \/ rest c = String PyStr.LF "") /\ c' = c
  | Chr p =>
      exists b s,
        rest c = String b s /\ p b = true
        /\ c' = mkCursor (S (consumed c)) s (group1 c)
  | Seq r1 r2 => exists c1, rx_matches r1 c c1 /\ rx_matches r2 c1 c'
  | Star r' => iter (rx_matches r') c c'
  | Plus r' => exists c1, rx_matches r' c c1 /\ iter (rx_matches r') c1 c'
  | Group r' =>
      exists c1,
        rx_matches r' c c1
        /\ c' = mkCursor (consumed c1) (rest c1)
                         (Some (slice_to (consumed c1 - consumed c) (rest c)))
  end.

(** [span c t c']: from [c] to [c'] the text [t] is consumed, and the
    group is left as it is. *)
Definition span (c : rx_cursor) (t : string) (c' : rx_cursor) : Prop :=
  rest c = (t ++ rest c')%string
  /\ consumed c' = consumed c + String.length t
  /\ group1 c' = group1 c.

(** The position after [t], with [s] left. *)
Definition after (c : rx_cursor) (t s : string) : rx_cursor :=
  mkCursor (consumed c + String.length t) s (group1 c).

(** [r] matches the texts of [P], wherever it starts, and leaves the
    group as it is. *)
Definition denotes (r : rx) (P : string -> Prop) : Prop :=
  forall c c', rx_matches r c c' <-> exists t, P t /\ span c t c'.

(** Blanks, and text that stays on its line. *)
Definition blanks (s : string) : Prop := all blank s = true.
Definition on_line (s : string) : Prop := all dot s = true.

(** A text that the group of the pattern matches: three parts and two
    dots between them, no part empty, no line feed. *)
Definition version_text (v : string) : Prop :=
  exists x y z,
    v = (x ++ "." ++ y ++ "." ++ z)%string
    /\ x <> ""%string /\ y <> ""%string /\ z <> ""%string
    /\ on_line x /\ on_line y /\ on_line z.

(** [line] defines [macro] as [v]: blanks, [#], blanks, [define], at
    least one blank, the macro, at least one blank, and [v] between two
    quotes, with nothing but blanks after the second. *)
Definition defines (macro line v : string) : Prop :=
  exists b1 b2 b3 b4 b5,
    line = (b1 ++ "#" ++ b2 ++ "define" ++ b3 ++ macro ++ b4
            ++ String quote (v ++ String quote b5))%string
    /\ blanks b1 /\ blanks b2
    /\ blanks b3 /\ b3 <> ""%string
    /\ blanks b4 /\ b4 <> ""%string
    /\ blanks b5
    /\ version_text v.

End RxSpec.

(** *** A header file *)

Module MacroDemo.
Import GoBuild.

(** A header of three lines; the second defines [PRODUCT_VERSION]. *)
Definition header : string :=
  ("/* version */" ++ String PyStr.LF
   ("  # define  PRODUCT_VERSION   " ++ String quote
   ("1.2.3" ++ String quote
   (String PyStr.LF ("#define OTHER 1" ++ String PyStr.LF "")))))%string.

Definition headers (name : string) : option string :=
  if (name =? "version.h")%string then Some header else None.

End MacroDemo.

(** *** Proof steps *)

(** Brings traces to the form [t ++ [e1; ...; en]]. *)
Ltac norm :=
  unfold record; cbn [st_trace st_cwd st_atexit fst snd];
  rewrite <- ?app_assoc; cbn [app].

Ltac norm_in H :=
  unfold record in H; cbn [st_trace st_cwd st_atexit fst snd] in H;
  rewrite <- ?app_assoc in H; cbn [app] in H.

(* ================================================================== *)
(** ** Strings: basic facts *)

Lemma append_nil_r (s : string) : (s ++ "")%string = s.
Proof. induction s as [|c s IH]; simpl; [reflexivity | now rewrite IH]. Qed.

Lemma append_assoc (s1 s2 s3 : string) :
  ((s1 ++ s2) ++ s3 = s1 ++ s2 ++ s3)%string.
Proof. induction s1 as [|c s1 IH]; simpl; [reflexivity | now rewrite IH]. Qed.

Lemma length_append (s1 s2 : string) :
  String.length (s1 ++ s2) = String.length s1 + String.length s2.
Proof. induction s1 as [|c s1 IH]; simpl; [reflexivity | now rewrite IH]. Qed.

Lemma append_neq_self (s t : string) : t <> "" -> (s ++ t)%string <> s.
Proof.
  intros Ht E. apply (f_equal String.length) in E.
  rewrite length_append in E. destruct t; [congruence | simpl in E; lia].
Qed.

(** ** Stripping *)

Module PyStrFacts.
Import PyStr.

Lemma all_space_app s t :
  all_space (s ++ t) = all_space s && all_space t.
Proof.
  induction s as [|c s IH]; simpl; [reflexivity|].
  rewrite IH. now rewrite andb_assoc.
Qed.

Lemma lstrip_all_space s : all_space s = true -> lstrip s = "".
Proof.
  induction s as [|c s IH]; simpl; [reflexivity|].
  intros H. apply andb_prop in H as [Hc Hs]. rewrite Hc. auto.
Qed.

Lemma rstrip_all_space s : all_space s = true -> rstrip s = "".
Proof. destruct s as [|c s]; [reflexivity|]. intros H. cbn [rstrip]. now rewrite H. Qed.

(** What [lstrip] removes is whitespace, and what is left does not start
    with whitespace. *)
Lemma lstrip_spec s :
  exists pre, s = (pre ++ lstrip s)%string /\ all_space pre = true
              /\ match first (lstrip s) with
                 | Some a => isspace a = false
                 | None => True
                 end.
Proof.
  induction s as [|c s (pre & E & Hpre & Hfirst)].
  - exists "". simpl. auto.
  - simpl. destruct (isspace c) eqn:Hc.
    + exists (String c pre). simpl. rewrite <- E, Hc, Hpre. auto.
    + exists "". simpl. auto.
Qed.

Lemma rstrip_spec s :
  exists post, s = (rstrip s ++ post)%string /\ all_space post = true
               /\ match last (rstrip s) with
                  | Some a => isspace a = false
                  | None => True
                  end.
Proof.
  induction s as [|c s (post & E & Hpost & Hlast)].
  - exists "". simpl. auto.
  - cbn [rstrip]. destruct (all_space (String c s)) eqn:Hall.
    + exists (String c s). simpl. auto.
    + exists post. cbn [append]. rewrite <- E. repeat split; auto.
      cbn [last]. destruct (rstrip s) as [|c' s'] eqn:Er; [|exact Hlast].
      simpl in Hall. destruct (isspace c) eqn:Hc; [|reflexivity].
      simpl in Hall. rewrite E in Hall. simpl in Hall. congruence.
Qed.

Lemma first_rstrip s :
  match first s with Some a => isspace a = false | None => True end ->
  match first (rstrip s) with Some a => isspace a = false | None => True end.
Proof.
  destruct s as [|c s]; [auto|]. cbn [rstrip].
  destruct (all_space (String c s)); simpl; auto.
Qed.

Theorem strip_spec s : stripped_of s (strip s).
Proof.
  unfold stripped_of, strip.
  destruct (lstrip_spec s) as (pre & E1 & Hpre & Hfirst).
  destruct (rstrip_spec (lstrip s)) as (post & E2 & Hpost & Hlast).
  exists pre, post. repeat split; auto.
  - now rewrite <- E2.
  - now apply first_rstrip.
Qed.

Lemma lstrip_app s t :
  lstrip (s ++ t) = if all_space s then lstrip t else (lstrip s ++ t)%string.
Proof.
  induction s as [|c s IH]; simpl; [reflexivity|].
  destruct (isspace c); simpl; [exact IH | reflexivity].
Qed.

Lemma rstrip_app_space s t : all_space t = true -> rstrip (s ++ t) = rstrip s.
Proof.
  intros Ht. induction s as [|c s IH]; simpl.
  - now apply rstrip_all_space.
  - rewrite all_space_app, Ht, andb_true_r, IH. reflexivity.
Qed.

Lemma strip_app_space s t : all_space t = true -> strip (s ++ t) = strip s.
Proof.
  intros Ht. unfold strip. rewrite lstrip_app.
  destruct (all_space s) eqn:Hs.
  - rewrite (lstrip_all_space t Ht), (lstrip_all_space s Hs). reflexivity.
  - now apply rstrip_app_space.
Qed.

Lemma strip_all_space s : all_space s = true -> strip s = "".
Proof. intros H. unfold strip. now rewrite lstrip_all_space. Qed.

Lemma readline_first_line s :
  readline s = first_line s \/ readline s = (first_line s ++ String LF "")%string.
Proof.
  induction s as [|c s IH]; simpl; [now left|].
  destruct (Ascii.eqb c LF || Ascii.eqb c CR); [now right|].
  destruct IH as [-> | ->]; [now left | now right].
Qed.

Lemma strip_readline s : strip (readline s) = strip (first_line s).
Proof.
  destruct (readline_first_line s) as [-> | ->]; [reflexivity|].
  now apply strip_app_space.
Qed.

(** Stripping is determined by its description. *)
Lemma first_nonspace_lstrip c :
  match first c with Some a => isspace a = false | None => True end ->
  lstrip c = c.
Proof. destruct c as [|a c]; simpl; [auto|]. now intros ->. Qed.

Lemma last_nonspace_rstrip c :
  match last c with Some a => isspace a = false | None => True end ->
  rstrip c = c.
Proof.
  induction c as [|a c IH]; [auto|]. intros H. cbn [rstrip].
  destruct c as [|b c].
  - simpl in *. now rewrite H.
  - assert (Hc : rstrip (String b c) = String b c) by (apply IH; exact H).
    destruct (all_space (String a (String b c))) eqn:Hall.
    + exfalso. change (isspace a && all_space (String b c) = true) in Hall.
      apply andb_prop in Hall as [_ Hall].
      apply rstrip_all_space in Hall. congruence.
    + now rewrite Hc.
Qed.

Theorem stripped_of_unique s c : stripped_of s c -> c = strip s.
Proof.
  intros (pre & post & -> & Hpre & Hpost & Hf & Hl).
  unfold strip. rewrite lstrip_app, Hpre.
  destruct c as [|a c].
  - simpl. now rewrite (lstrip_all_space post Hpost).
  - rewrite lstrip_app. simpl in Hf. cbn [all_space]. rewrite Hf. cbn [andb].
    rewrite (first_nonspace_lstrip (String a c)) by exact Hf.
    rewrite rstrip_app_space by exact Hpost.
    symmetry. now apply last_nonspace_rstrip.
Qed.

End PyStrFacts.

(* ================================================================== *)
(** ** Traces *)

Lemma spawns_app (t1 t2 : trace) : spawns (t1 ++ t2) = spawns t1 ++ spawns t2.
Proof. apply filter_app. Qed.

Lemma in_spawns argv r (tr : trace) :
  In (Spawn argv r) tr <-> In (Spawn argv r) (spawns tr).
Proof.
  unfold spawns. rewrite filter_In. simpl. tauto.
Qed.

Lemma quiet_no_spawn (tr : trace) argv r :
  spawns tr = [] -> ~ In (Spawn argv r) tr.
Proof. intros Hq Hin. apply in_spawns in Hin. rewrite Hq in Hin. exact Hin. Qed.

(** ** External programs *)

Lemma check_call_eq w argv st :
  subprocess_check_call w argv st =
  (checked argv (w_spawn w (st_trace st) (st_cwd st) argv),
   record (Spawn argv (w_spawn w (st_trace st) (st_cwd st) argv)) st).
Proof.
  unfold subprocess_check_call, subprocess_call, bind, checked.
  destruct (w_spawn w (st_trace st) (st_cwd st) argv) as [c|]; [|reflexivity].
  destruct (c =? 0)%Z; reflexivity.
Qed.

Lemma checked_ok argv r : checked argv r = Ok tt <-> r = Exited 0.
Proof.
  unfold checked. destruct r as [c|]; [|split; discriminate].
  destruct (Z.eqb_spec c 0) as [->|Hc]; split; try reflexivity; try discriminate.
  intros [= E]. contradiction.
Qed.

Lemma checked_raise argv r e : checked argv r = Raise e -> r <> Exited 0.
Proof. intros H ->. discriminate. Qed.

Lemma checked_failed argv r : r <> Exited 0 -> exists e, checked argv r = Raise e.
Proof.
  intros Hr. destruct (checked argv r) as [[]|e] eqn:E; [|now exists e].
  apply checked_ok in E. contradiction.
Qed.

(** ** The phases of [main] *)

Lemma main_phases (w : world) (a : args) (st : state) :
  main w a st = main_by_phases w a st.
Proof.
  unfold main, main_by_phases, locate, checksums, decide, bind, ret.
  destruct (os_path_abspath (key_file a) st) as [[k|e] st1]; [|reflexivity].
  destruct (os_chdir w (build_dir a) st1) as [[[]|e] st2]; [|reflexivity].
  destruct (print _ st2) as [[[]|e] st3]; [|reflexivity].
  destruct (load_manifest w st3) as [[b|e] st4]; [|reflexivity].
  destruct (print _ st4) as [[[]|e] st5]; [|reflexivity].
  cbn [fst snd].
  destruct (get_local_checksum w _ st5) as [[l|e] st6]; [|reflexivity].
  destruct (print _ st6) as [[[]|e] st7]; [|reflexivity].
  destruct (get_remote_checksum w _ st7) as [[r|e] st8]; [|reflexivity].
  destruct (print _ st8) as [[[]|e] st9]; reflexivity.
Qed.

(** What [locate] does when it succeeds. *)
Lemma locate_ok w a st k d st1 :
  locate w a st = (Ok (k, d), st1) ->
  exists p cwd' text name version,
    key_file a = Some p
    /\ k = OsPath.abspath (st_cwd st) p
    /\ w_chdir w (st_trace st) (st_cwd st) (build_dir a) = Some cwd'
    /\ w_manifest w text = Ok (name, version)
    /\ d = Resolve name version
    /\ st_cwd st1 = cwd'
    /\ st_atexit st1 = st_atexit st
    /\ st_trace st1 =
       st_trace st ++
         [Chdir (build_dir a) true;
          Print ("image-build-ova: cd " ++ build_dir a)%string;
          Open (OsPath.join cwd' "packer-manifest.json") true;
          Print ("image-upload-ova: loaded " ++ name ++ "-kube-"
                   ++ version)%string]
    /\ w_open w
         (st_trace st ++
            [Chdir (build_dir a) true;
             Print ("image-build-ova: cd " ++ build_dir a)%string])
         (OsPath.join cwd' "packer-manifest.json") = Some text.
Proof.
  unfold locate, bind, os_path_abspath, os_chdir, load_manifest, bind, open_r,
    print, emit, ret, raise.
  destruct (key_file a) as [p|]; [|discriminate].
  destruct (w_chdir w (st_trace st) (st_cwd st) (build_dir a)) as [cwd'|] eqn:Ec;
    [|discriminate].
  norm.
  destruct (w_open w _ _) as [text|] eqn:Eo; [|discriminate].
  destruct (w_manifest w text) as [[name version]|e] eqn:Em; [|discriminate].
  intros [= <- <- <-]. norm.
  exists p, cwd', text, name, version. repeat split; auto.
Qed.

(** Whatever [locate] does, it starts no program and registers nothing. *)
Lemma locate_quiet w a st r st1 :
  locate w a st = (r, st1) ->
  st_atexit st1 = st_atexit st
  /\ exists t, st_trace st1 = st_trace st ++ t /\ spawns t = [].
Proof.
  unfold locate, bind, os_path_abspath, os_chdir, load_manifest, bind, open_r,
    print, emit, ret, raise.
  destruct (key_file a) as [p|].
  2:{ intros [= <- <-]. split; [reflexivity|]. exists []. now rewrite app_nil_r. }
  destruct (w_chdir w (st_trace st) (st_cwd st) (build_dir a)) as [cwd'|].
  2:{ intros [= <- <-]. split; [reflexivity|]. eexists. split; reflexivity. }
  norm.
  destruct (w_open w _ _) as [text|].
  2:{ intros [= <- <-]. norm. split; [reflexivity|]. eexists. split; reflexivity. }
  destruct (w_manifest w text) as [[name version]|e].
  - intros [= <- <-]. norm. split; [reflexivity|]. eexists. split; reflexivity.
  - intros [= <- <-]. norm. split; [reflexivity|]. eexists. split; reflexivity.
Qed.

Lemma get_remote_checksum_eq w url st :
  get_remote_checksum w url st =
  (remote_checksum (w_get w (st_trace st) url),
   record (HttpGet url (w_get w (st_trace st) url)) st).
Proof.
  unfold get_remote_checksum, requests_get, bind, remote_checksum, ret.
  destruct (w_get w (st_trace st) url) as [s body|]; [|reflexivity].
  cbn [fst snd]. destruct ((s >=? 200) && (s <=? 299))%Z; reflexivity.
Qed.

Lemma get_local_checksum_eq w path st :
  let full := OsPath.join (st_cwd st) path in
  get_local_checksum w path st =
  (local_checksum (w_open w (st_trace st) full),
   record (Open full match w_open w (st_trace st) full with
                     | Some _ => true | None => false end) st).
Proof.
  unfold get_local_checksum, open_r, bind, local_checksum, ret.
  cbv zeta. destruct (w_open w _ _); reflexivity.
Qed.

Lemma checksums_quiet w d st r st1 :
  checksums w d st = (r, st1) ->
  st_atexit st1 = st_atexit st /\ st_cwd st1 = st_cwd st
  /\ exists t, st_trace st1 = st_trace st ++ t /\ spawns t = [].
Proof.
  unfold checksums, bind. rewrite get_local_checksum_eq.
  destruct (local_checksum _) as [lcl|e].
  2:{ intros [= <- <-]. norm. repeat split. eexists. split; reflexivity. }
  unfold print at 1, emit. rewrite get_remote_checksum_eq.
  destruct (remote_checksum _) as [rem|e].
  2:{ intros [= <- <-]. norm. repeat split. eexists. split; reflexivity. }
  unfold print, emit, ret. intros [= <- <-]. norm. repeat split.
  eexists. split; reflexivity.
Qed.

(* ================================================================== *)
(** ** The decision *)

Lemma py_eq_true lcl rem : py_eq lcl rem = true <-> rem = Some lcl.
Proof.
  unfold py_eq. destruct rem as [s|]; [|split; discriminate].
  rewrite String.eqb_eq. split; [now intros -> | now intros [= ->]].
Qed.

Lemma py_eq_false lcl rem : py_eq lcl rem = false <-> rem <> Some lcl.
Proof.
  rewrite <- py_eq_true. destruct (py_eq lcl rem); split; congruence.
Qed.

Lemma decide_skip w k d lcl rem st :
  py_eq lcl rem = true ->
  decide w k d lcl rem st =
  (Ok tt, mkState (st_cwd st) (st_trace st ++ skip_report d) (st_atexit st)).
Proof.
  intros H. unfold decide. rewrite H. unfold bind, print, emit, ret. norm.
  reflexivity.
Qed.

Lemma decide_publish w k d lcl rem st r st' :
  py_eq lcl rem = false ->
  decide w k d lcl rem st = (r, st') ->
  publish_outcome w k d st r st'.
Proof.
  intros Hne H. unfold decide in H. rewrite Hne in H.
  unfold activate_service_account in H. fold (activate_argv k) in H.
  fold (artifact_copy_argv d) in H. fold (checksum_copy_argv d) in H.
  unfold bind at 1 in H. rewrite check_call_eq in H.
  destruct (checked (activate_argv k) _) as [[]|e] eqn:E1.
  2:{ injection H as <- <-. rewrite <- E1. apply po_auth_failed; [reflexivity|].
      exact (checked_raise _ _ _ E1). }
  apply checked_ok in E1. rewrite E1 in H.
  unfold bind at 1 in H. unfold atexit_register at 1 in H.
  unfold bind at 1 in H. unfold print at 1, emit in H.
  unfold bind at 1 in H. rewrite check_call_eq in H. norm_in H.
  destruct (checked (artifact_copy_argv d) _) as [[]|e] eqn:E2.
  2:{ injection H as <- <-. rewrite <- E2. norm.
      apply po_artifact_failed; [assumption|reflexivity|].
      exact (checked_raise _ _ _ E2). }
  apply checked_ok in E2. rewrite E2 in H.
  unfold bind at 1 in H. unfold print at 1, emit in H.
  unfold bind at 1 in H. rewrite check_call_eq in H. norm_in H.
  pose proof (po_checksum w k d st _ E1 E2 eq_refl) as P.
  destruct (checked (checksum_copy_argv d) _) as [[]|e] eqn:E3.
  - unfold print, emit in H. injection H as <- <-. norm. exact P.
  - injection H as <- <-. norm. cbn [app] in P. rewrite ?app_nil_r in P. exact P.
Qed.

(** The publish path keeps the working directory, extends the trace, and
    registers at most the revocation. *)
Lemma publish_outcome_atexit w k d st r st' :
  publish_outcome w k d st r st' ->
  st_cwd st' = st_cwd st
  /\ (st_atexit st' = st_atexit st
      \/ st_atexit st' = deactivate_service_account_hook :: st_atexit st).
Proof. intros []; cbn; auto. Qed.

(** ** Exit functions *)

Lemma deactivate_eq w st :
  snd (deactivate_service_account w st) =
  record (Spawn revoke_argv (w_spawn w (st_trace st) (st_cwd st) revoke_argv)) st.
Proof.
  unfold deactivate_service_account, subprocess_call, bind, ret.
  fold revoke_argv.
  destruct (w_spawn w (st_trace st) (st_cwd st) revoke_argv); reflexivity.
Qed.

Lemma at_exit_nil w st : st_atexit st = [] -> at_exit w st = st_trace st.
Proof. unfold at_exit. now intros ->. Qed.

Lemma at_exit_hook w st :
  st_atexit st = [deactivate_service_account_hook] ->
  at_exit w st =
  st_trace st ++
    [Spawn revoke_argv (w_spawn w (st_trace st) (st_cwd st) revoke_argv)].
Proof.
  unfold at_exit. intros ->. cbn [run_exitfuncs run_exitfunc].
  now rewrite deactivate_eq.
Qed.

(** ** Whole runs *)

Lemma run_eq w a :
  run w a =
  (fst (main_by_phases w a (initial_state w)),
   at_exit w (snd (main_by_phases w a (initial_state w)))).
Proof.
  unfold run. rewrite main_phases.
  now destruct (main_by_phases w a (initial_state w)).
Qed.

Lemma run_locate_failed w a e st1 :
  locate w a (initial_state w) = (Raise e, st1) ->
  run w a = (Raise e, st_trace st1).
Proof.
  intros H. rewrite run_eq. unfold main_by_phases, bind. rewrite H. cbn [fst snd].
  apply locate_quiet in H as [Hx _]. now rewrite at_exit_nil.
Qed.

Lemma run_checksums_failed w a k d st1 e st2 :
  locate w a (initial_state w) = (Ok (k, d), st1) ->
  checksums w d st1 = (Raise e, st2) ->
  run w a = (Raise e, st_trace st2).
Proof.
  intros H1 H2. rewrite run_eq. unfold main_by_phases, bind. rewrite H1.
  cbn [fst snd]. rewrite H2. cbn [fst snd].
  apply locate_quiet in H1 as [Hx _]. apply checksums_quiet in H2 as (Hy & _).
  rewrite at_exit_nil; [reflexivity|]. now rewrite Hy, Hx.
Qed.

Lemma run_decide w a k d st1 lcl rem st2 :
  locate w a (initial_state w) = (Ok (k, d), st1) ->
  checksums w d st1 = (Ok (lcl, rem), st2) ->
  run w a = (fst (decide w k d lcl rem st2),
             at_exit w (snd (decide w k d lcl rem st2)))
  /\ st_atexit st2 = [].
Proof.
  intros H1 H2. rewrite run_eq. unfold main_by_phases, bind. rewrite H1.
  cbn [fst snd]. rewrite H2. cbn [fst snd]. split.
  - now destruct (decide w k d lcl rem st2).
  - apply locate_quiet in H1 as [Hx _]. apply checksums_quiet in H2 as (Hy & _).
    now rewrite Hy, Hx.
Qed.

Lemma run_skip w a k d st1 lcl st2 :
  locate w a (initial_state w) = (Ok (k, d), st1) ->
  checksums w d st1 = (Ok (lcl, Some lcl), st2) ->
  run w a = (Ok tt, st_trace st2 ++ skip_report d).
Proof.
  intros H1 H2. destruct (run_decide _ _ _ _ _ _ _ _ H1 H2) as [-> Hx].
  rewrite decide_skip by now apply py_eq_true. cbn [fst snd].
  now rewrite at_exit_nil.
Qed.

Lemma run_publish w a k d st1 lcl rem st2 :
  locate w a (initial_state w) = (Ok (k, d), st1) ->
  checksums w d st1 = (Ok (lcl, rem), st2) ->
  rem <> Some lcl ->
  exists r st3, publish_outcome w k d st2 r st3 /\ run w a = (r, at_exit w st3).
Proof.
  intros H1 H2 Hne. destruct (run_decide _ _ _ _ _ _ _ _ H1 H2) as [-> Hx].
  destruct (decide w k d lcl rem st2) as [r st3] eqn:Hd.
  exists r, st3. split; [|reflexivity].
  apply (decide_publish _ _ _ lcl rem); [now apply py_eq_false | exact Hd].
Qed.

(** Every run is of one of four kinds. *)
Lemma run_cases w a r tr : run w a = (r, tr) -> run_outcome w a r tr.
Proof.
  intros H.
  destruct (locate w a (initial_state w)) as [[[k d]|e] st1] eqn:H1.
  2:{ rewrite (run_locate_failed _ _ _ _ H1) in H. injection H as <- <-.
      now apply ro_locate_failed. }
  destruct (checksums w d st1) as [[[lcl rem]|e] st2] eqn:H2.
  2:{ rewrite (run_checksums_failed _ _ _ _ _ _ _ H1 H2) in H.
      injection H as <- <-. now apply (ro_checksums_failed _ _ k d st1). }
  destruct (py_eq lcl rem) eqn:Hpy.
  - apply py_eq_true in Hpy. subst rem.
    rewrite (run_skip _ _ _ _ _ _ _ H1 H2) in H. injection H as <- <-.
    now apply (ro_skip _ _ k d st1 lcl).
  - apply py_eq_false in Hpy.
    destruct (run_publish _ _ _ _ _ _ _ _ H1 H2 Hpy) as (r' & st3 & Hp & Hr).
    rewrite Hr in H. injection H as <- <-.
    now apply (ro_publish _ _ k d st1 lcl rem st2).
Qed.

(* ================================================================== *)
(** ** The command lines are told apart *)

Lemma ova_sum_neq_ova name version :
  ova_sum (Resolve name version) <> ova (Resolve name version).
Proof. cbn [Resolve ova_sum ova]. now apply append_neq_self. Qed.

Lemma copies_distinct name version :
  checksum_copy_argv (Resolve name version)
  <> artifact_copy_argv (Resolve name version).
Proof.
  unfold checksum_copy_argv, artifact_copy_argv. intros [= E _].
  now apply ova_sum_neq_ova in E.
Qed.

(** ** Where an event sits in a trace *)

Lemma split_cons {A} (a x : A) l p q :
  a :: l = p ++ x :: q ->
  (p = [] /\ a = x /\ q = l) \/ (exists p', p = a :: p' /\ l = p' ++ x :: q).
Proof.
  destruct p as [|b p']; cbn [app]; intros [= -> ->]; [left | right]; eauto.
Qed.

Lemma split_nil {A} (x : A) p q : [] = p ++ x :: q -> False.
Proof. destruct p; discriminate. Qed.

(** If [x] is not in [t], it sits in [l] wherever it sits in [t ++ l]. *)
Lemma split_app_right {A} (x : A) t l p q :
  ~ In x t -> t ++ l = p ++ x :: q ->
  exists p', p = t ++ p' /\ l = p' ++ x :: q.
Proof.
  revert p. induction t as [|b t IH]; intros p Hx E.
  - exists p. auto.
  - destruct p as [|c p'].
    + cbn [app] in E. injection E as -> _. exfalso. apply Hx. now left.
    + cbn [app] in E. injection E as -> E.
      destruct (IH p') as (p'' & -> & ->); auto.
      * intros Hin. apply Hx. now right.
      * exists p''. auto.
Qed.

Ltac argv_unfold :=
  unfold checksum_copy_argv, artifact_copy_argv, activate_argv, revoke_argv
    in *.

(** Goes through the positions of a listed trace at which an event can
    sit, dropping those that hold another event. *)
Ltac splits H :=
  repeat
    (first
       [ apply split_nil in H; contradiction
       | apply split_cons in H as [(-> & H & ->) | (? & -> & H)];
         [ try discriminate H; try (exfalso; injection H; congruence) | ] ]).

(** The same for membership in [t ++ l], with [t] free of programs. *)
Ltac members Q H :=
  apply in_app_or in H as [H|H];
  [ exfalso; exact (quiet_no_spawn _ _ _ Q H) | ];
  cbn [In] in H;
  repeat (destruct H as [H|H];
          [ try discriminate H; try (exfalso; injection H; congruence) | ]);
  try contradiction.

(** The trace up to the decision holds no started program. *)
Lemma before_decision_quiet w a k d st1 r st2 :
  locate w a (initial_state w) = (Ok (k, d), st1) ->
  checksums w d st1 = (r, st2) ->
  spawns (st_trace st2) = [] /\ st_atexit st2 = [] /\ st_cwd st2 = st_cwd st1.
Proof.
  intros H1 H2.
  apply locate_quiet in H1 as (Ha1 & t1 & E1 & Q1).
  apply checksums_quiet in H2 as (Ha2 & Hc & t2 & E2 & Q2).
  repeat split; [|now rewrite Ha2, Ha1|exact Hc].
  rewrite E2, E1. cbn [initial_state st_trace app].
  now rewrite spawns_app, Q1, Q2.
Qed.

(** *** C1 *)

(** C1.  Once both checksums are there, their equality alone decides: if
    the remote checksum is present and equal to the local one, the run
    ends successfully after reporting the download address, and starts no
    program at all (no authentication, no upload); otherwise its next
    step is the authentication.  An absent remote checksum is never equal
    to the local one. *)
Theorem C1_decision_gate w a k d st1 lcl rem st2 :
  locate w a (initial_state w) = (Ok (k, d), st1) ->
  checksums w d st1 = (Ok (lcl, rem), st2) ->
  (rem = Some lcl ->
     run w a = (Ok tt, st_trace st2 ++ skip_report d)
     /\ spawns (st_trace st2 ++ skip_report d) = [])
  /\ (rem <> Some lcl ->
     exists r res post,
       run w a = (r, st_trace st2 ++ Spawn (activate_argv k) res :: post))
  /\ (rem = None ->
     exists r res post,
       run w a = (r, st_trace st2 ++ Spawn (activate_argv k) res :: post)).
Proof.
  intros H1 H2. destruct (before_decision_quiet _ _ _ _ _ _ _ H1 H2) as (Q & Hx & _).
  assert (P : rem <> Some lcl ->
              exists r res post,
                run w a = (r, st_trace st2 ++ Spawn (activate_argv k) res :: post)).
  2:{ split; [|split; [exact P|]].
      - intros ->. split; [exact (run_skip w a k d st1 lcl st2 H1 H2)|].
        now rewrite spawns_app, Q.
      - intros ->. apply P. discriminate. }
  { intros Hne.
    destruct (run_publish _ _ _ _ _ _ _ _ H1 H2 Hne) as (r & st3 & Hp & ->).
    exists r. destruct Hp.
    + eexists _, _. rewrite at_exit_nil by exact Hx. reflexivity.
    + eexists _, _. rewrite at_exit_hook by (cbn; now rewrite Hx).
      cbn [st_trace]. rewrite <- app_assoc. reflexivity.
    + eexists _, _. rewrite at_exit_hook by (cbn; now rewrite Hx).
      cbn [st_trace]. rewrite <- !app_assoc. reflexivity. }
Qed.

Lemma C1_decision_gate_witness :
  run Demo.w_published Demo.cmdline
  = (Ok tt, st_trace (Demo.compared Demo.w_published) ++ skip_report Demo.d)
  /\ spawns (st_trace (Demo.compared Demo.w_published) ++ skip_report Demo.d)
     = [].
Proof.
  refine (proj1 (C1_decision_gate Demo.w_published Demo.cmdline
                   "/home/u/key.json" Demo.d (Demo.located Demo.w_published)
                   "abc123  centos.ova" (Some "abc123  centos.ova")
                   (Demo.compared Demo.w_published) _ _) _);
    vm_compute; reflexivity.
Defined.

(** *** C2 *)

(** C2.  In a run that knows its destination, a copy of the checksum is
    only ever started after a copy of the artifact that ended with status
    0; and when the copy of the artifact fails (a status other than 0, or
    [gsutil] cannot be started), the run ends with that failure raised and
    no copy of the checksum is started. *)
Theorem C2_artifact_before_checksum w a k d st1 r tr :
  locate w a (initial_state w) = (Ok (k, d), st1) ->
  run w a = (r, tr) ->
  (forall pre res2 post,
      tr = pre ++ Spawn (checksum_copy_argv d) res2 :: post ->
      In (Spawn (artifact_copy_argv d) (Exited 0)) pre)
  /\ (forall res1,
        In (Spawn (artifact_copy_argv d) res1) tr ->
        res1 <> Exited 0 ->
        r = checked (artifact_copy_argv d) res1
        /\ (exists e, r = Raise e)
        /\ forall res2, ~ In (Spawn (checksum_copy_argv d) res2) tr).
Proof.
  intros H1 Hrun.
  destruct (locate_ok _ _ _ _ _ _ H1)
    as (p & cwd' & text & name & version & _ & _ & _ & _ & Hd & _).
  pose proof (copies_distinct name version) as Hdist. rewrite <- Hd in Hdist.
  clear Hd.
  apply run_cases in Hrun.
  destruct Hrun as [e st1' H1' | k' d' st1' e st2 H1' H2 | k' d' st1' lcl st2 H1' H2
                   | k' d' st1' lcl rem st2 r st3 H1' H2 Hne Hp];
    rewrite H1 in H1'; try discriminate H1'; injection H1' as <- <- <-.
  - (* the checksums could not be obtained *)
    destruct (before_decision_quiet _ _ _ _ _ _ _ H1 H2) as (Q & _).
    split.
    + intros pre res2 post E. exfalso.
      apply (quiet_no_spawn _ (checksum_copy_argv d) res2 Q).
      rewrite E. apply in_elt.
    + intros res1 Hin. exfalso. exact (quiet_no_spawn _ _ _ Q Hin).
  - (* SKIP *)
    destruct (before_decision_quiet _ _ _ _ _ _ _ H1 H2) as (Q & _).
    assert (Q' : spawns (st_trace st2 ++ skip_report d) = [])
      by now rewrite spawns_app, Q.
    split.
    + intros pre res2 post E. exfalso.
      apply (quiet_no_spawn _ (checksum_copy_argv d) res2 Q').
      rewrite E. apply in_elt.
    + intros res1 Hin. exfalso. exact (quiet_no_spawn _ _ _ Q' Hin).
  - (* publish *)
    destruct (before_decision_quiet _ _ _ _ _ _ _ H1 H2) as (Q & Hx & _).
    destruct Hp as [r1 E1 Hr1 | r2 E1 E2 Hr2 | r3 E1 E2 E3].
    + rewrite at_exit_nil by exact Hx. cbn [st_trace]. split.
      * intros pre res2 post E.
        apply split_app_right in E as (p' & -> & E);
          [|exact (quiet_no_spawn _ _ _ Q)].
        argv_unfold. splits E.
      * intros res1 Hin. argv_unfold. members Q Hin.
    + rewrite at_exit_hook by (cbn; now rewrite Hx). cbn [st_trace st_cwd].
      rewrite <- app_assoc. cbn [app]. split.
      * intros pre res2 post E.
        apply split_app_right in E as (p' & -> & E);
          [|exact (quiet_no_spawn _ _ _ Q)].
        argv_unfold. splits E.
      * intros res1 Hin Hres1. split; [|split].
        -- argv_unfold. members Q Hin. now injection Hin as <-.
        -- now apply checked_failed.
        -- intros res2 Hin2. argv_unfold. members Q Hin2.
    + rewrite at_exit_hook by (cbn; now rewrite Hx). cbn [st_trace st_cwd].
      destruct (checked (checksum_copy_argv d) r3) as [[]|e];
        rewrite <- !app_assoc; cbn [app]; (split;
        [ intros pre res2 post E;
          apply split_app_right in E as (p' & -> & E);
          [|exact (quiet_no_spawn _ _ _ Q)];
          argv_unfold; splits E; apply in_or_app; right; cbn [In]; auto
        | intros res1 Hin Hres1; exfalso; argv_unfold; members Q Hin ]).
Qed.

Lemma C2_artifact_before_checksum_witness :
  fst (run Demo.w_artifact_copy_fails Demo.cmdline)
  = Raise (CalledProcessError 1 (artifact_copy_argv Demo.d))
  /\ ~ In (Spawn (checksum_copy_argv Demo.d) (Exited 0))
          (snd (run Demo.w_artifact_copy_fails Demo.cmdline)).
Proof.
  assert (H1 : locate Demo.w_artifact_copy_fails Demo.cmdline
                 (initial_state Demo.w_artifact_copy_fails)
               = (Ok ("/home/u/key.json", Demo.d),
                  Demo.located Demo.w_artifact_copy_fails))
    by (vm_compute; reflexivity).
  assert (Hrun : run Demo.w_artifact_copy_fails Demo.cmdline
                 = (fst (run Demo.w_artifact_copy_fails Demo.cmdline),
                    snd (run Demo.w_artifact_copy_fails Demo.cmdline)))
    by (vm_compute; reflexivity).
  destruct (C2_artifact_before_checksum _ _ _ _ _ _ _ H1 Hrun) as [_ P].
  destruct (P (Exited 1)) as (Hr & _ & Hno).
  - vm_compute. repeat (first [left; reflexivity | right]).
  - discriminate.
  - split; [exact Hr | exact (Hno (Exited 0))].
Defined.

(** *** C5 *)

(** C5.  In every run: if the authentication was started and ended with
    status 0, the revocation is started exactly once, as the last step of
    the run, whatever became of the uploads in between; if the
    authentication failed, the run ends with an exception raised and the
    revocation is never started. *)
Theorem C5_revocation_follows_authentication w a r tr :
  run w a = (r, tr) ->
  (forall k,
      In (Spawn (activate_argv k) (Exited 0)) tr ->
      exists pre res,
        tr = pre ++ [Spawn revoke_argv res]
        /\ In (Spawn (activate_argv k) (Exited 0)) pre
        /\ forall res', ~ In (Spawn revoke_argv res') pre)
  /\ (forall k res,
        In (Spawn (activate_argv k) res) tr ->
        res <> Exited 0 ->
        (exists e, r = Raise e)
        /\ forall res', ~ In (Spawn revoke_argv res') tr).
Proof.
  intros Hrun. apply run_cases in Hrun.
  destruct Hrun as [e st1 H1 | k d st1 e st2 H1 H2 | k d st1 lcl st2 H1 H2
                   | k d st1 lcl rem st2 r st3 H1 H2 Hne Hp].
  - (* no destination *)
    apply locate_quiet in H1 as (_ & t & E & Q). cbn in E. subst t.
    split; [intros k0 Hin | intros k0 res Hin];
      exfalso; exact (quiet_no_spawn _ _ _ Q Hin).
  - (* no checksums *)
    destruct (before_decision_quiet _ _ _ _ _ _ _ H1 H2) as (Q & _).
    split; [intros k0 Hin | intros k0 res Hin];
      exfalso; exact (quiet_no_spawn _ _ _ Q Hin).
  - (* SKIP *)
    destruct (before_decision_quiet _ _ _ _ _ _ _ H1 H2) as (Q & _).
    assert (Q' : spawns (st_trace st2 ++ skip_report d) = [])
      by now rewrite spawns_app, Q.
    split; [intros k0 Hin | intros k0 res Hin];
      exfalso; exact (quiet_no_spawn _ _ _ Q' Hin).
  - (* publish *)
    destruct (before_decision_quiet _ _ _ _ _ _ _ H1 H2) as (Q & Hx & _).
    destruct Hp as [r1 E1 Hr1 | r2 E1 E2 Hr2 | r3 E1 E2 E3].
    + rewrite at_exit_nil by exact Hx. cbn [st_trace]. split.
      * intros k0 Hin. exfalso. argv_unfold. members Q Hin.
      * intros k0 res Hin Hres. split; [now apply checked_failed|].
        intros res' Hin'. argv_unfold. members Q Hin'.
    + rewrite at_exit_hook by (cbn; now rewrite Hx). cbn [st_trace st_cwd].
      split.
      * intros k0 Hin. eexists _, _. split; [reflexivity|]. split.
        -- rewrite <- app_assoc in Hin. cbn [app] in Hin.
           apply in_or_app. right. argv_unfold. members Q Hin.
           injection Hin as ->. now left.
        -- intros res' Hin'. argv_unfold. members Q Hin'.
      * intros k0 res Hin Hres. exfalso.
        rewrite <- app_assoc in Hin. cbn [app] in Hin.
        argv_unfold. members Q Hin.
    + rewrite at_exit_hook by (cbn; now rewrite Hx). cbn [st_trace st_cwd].
      split.
      * intros k0 Hin. eexists _, _. split; [reflexivity|].
        destruct (checked (checksum_copy_argv d) r3) as [[]|e];
          rewrite <- ?app_assoc in *; cbn [app] in *; (split;
          [ apply in_or_app; right; argv_unfold; members Q Hin;
            injection Hin as ->; now left
          | intros res' Hin'; argv_unfold; members Q Hin' ]).
      * intros k0 res Hin Hres. exfalso.
        destruct (checked (checksum_copy_argv d) r3) as [[]|e];
          rewrite <- ?app_assoc in *; cbn [app] in *;
          argv_unfold; members Q Hin.
Qed.

Lemma C5_revocation_follows_authentication_witness :
  (exists pre res,
     snd (run Demo.w_artifact_copy_fails Demo.cmdline)
     = pre ++ [Spawn revoke_argv res]
     /\ In (Spawn (activate_argv "/home/u/key.json") (Exited 0)) pre
     /\ forall res', ~ In (Spawn revoke_argv res') pre)
  /\ ((exists e, fst (run Demo.w_gcloud_fails Demo.cmdline) = Raise e)
      /\ forall res',
          ~ In (Spawn revoke_argv res')
               (snd (run Demo.w_gcloud_fails Demo.cmdline))).
Proof.
  split.
  - refine (proj1 (C5_revocation_follows_authentication
                     Demo.w_artifact_copy_fails Demo.cmdline _ _ _)
                  "/home/u/key.json" _).
    + vm_compute. reflexivity.
    + vm_compute. repeat (first [left; reflexivity | right]).
  - refine (proj2 (C5_revocation_follows_authentication
                     Demo.w_gcloud_fails Demo.cmdline _ _ _)
                  "/home/u/key.json" (Exited 1) _ _).
    + vm_compute. reflexivity.
    + vm_compute. repeat (first [left; reflexivity | right]).
    + discriminate.
Defined.

(** *** C6 *)

Lemma checksums_local w d st lcl rem st2 :
  checksums w d st = (Ok (lcl, rem), st2) ->
  exists st', get_local_checksum w (ova_sum d) st = (Ok lcl, st').
Proof.
  unfold checksums, bind.
  destruct (get_local_checksum w (ova_sum d) st) as [[l|e] st']; [|discriminate].
  unfold print at 1, emit.
  destruct (get_remote_checksum w _ _) as [[r|e] st'']; [|discriminate].
  unfold print, emit, ret. intros [= -> _ _]. now exists st'.
Qed.

(** C6.  [get_local_checksum] returns the first line of the sidecar file
    stripped of surrounding whitespace, and raises [IOError] when the file
    cannot be opened.  In a run that failure is fatal: the run ends with
    [IOError] right after the failed attempt to open the sidecar file,
    having started no program; so whenever a run starts a program at all,
    it has read a local checksum before. *)
Theorem C6_local_checksum w :
  (forall path st text,
      w_open w (st_trace st) (OsPath.join (st_cwd st) path) = Some text ->
      exists c,
        fst (get_local_checksum w path st) = Ok c
        /\ stripped_of (PyStr.first_line text) c)
  /\ (forall path st,
        w_open w (st_trace st) (OsPath.join (st_cwd st) path) = None ->
        fst (get_local_checksum w path st) = Raise IOError)
  /\ (forall a k d st1,
        locate w a (initial_state w) = (Ok (k, d), st1) ->
        w_open w (st_trace st1) (OsPath.join (st_cwd st1) (ova_sum d)) = None ->
        run w a
        = (Raise IOError,
           st_trace st1 ++ [Open (OsPath.join (st_cwd st1) (ova_sum d)) false])
        /\ spawns (snd (run w a)) = [])
  /\ (forall a r tr argv res,
        run w a = (r, tr) ->
        In (Spawn argv res) tr ->
        exists k d st1 lcl st2,
          locate w a (initial_state w) = (Ok (k, d), st1)
          /\ get_local_checksum w (ova_sum d) st1 = (Ok lcl, st2)).
Proof.
  split; [|split; [|split]].
  - intros path st text Hopen. rewrite get_local_checksum_eq. cbv zeta.
    rewrite Hopen. cbn [fst local_checksum]. eexists. split; [reflexivity|].
    rewrite PyStrFacts.strip_readline. apply PyStrFacts.strip_spec.
  - intros path st Hopen. rewrite get_local_checksum_eq. cbv zeta.
    now rewrite Hopen.
  - intros a k d st1 H1 Hopen.
    assert (H2 : checksums w d st1
                 = (Raise IOError,
                    record (Open (OsPath.join (st_cwd st1) (ova_sum d)) false)
                           st1)).
    { unfold checksums, bind. rewrite get_local_checksum_eq. cbv zeta.
      now rewrite Hopen. }
    rewrite (run_checksums_failed _ _ _ _ _ _ _ H1 H2). split; [reflexivity|].
    cbn [snd]. now destruct (before_decision_quiet _ _ _ _ _ _ _ H1 H2).
  - intros a r tr argv res Hrun Hin. apply run_cases in Hrun.
    destruct Hrun as [e st1 H1 | k d st1 e st2 H1 H2 | k d st1 lcl st2 H1 H2
                     | k d st1 lcl rem st2 r st3 H1 H2 Hne Hp].
    + apply locate_quiet in H1 as (_ & t & E & Q). cbn in E. subst t.
      exfalso. exact (quiet_no_spawn _ _ _ Q Hin).
    + destruct (before_decision_quiet _ _ _ _ _ _ _ H1 H2) as (Q & _).
      exfalso. exact (quiet_no_spawn _ _ _ Q Hin).
    + destruct (checksums_local _ _ _ _ _ _ H2) as (st' & Hl). now eauto 8.
    + destruct (checksums_local _ _ _ _ _ _ H2) as (st' & Hl). now eauto 8.
Qed.

Lemma C6_local_checksum_witness :
  (exists c,
     fst (get_local_checksum Demo.w_first "centos.ova.sha256"
            (Demo.located Demo.w_first)) = Ok c
     /\ stripped_of (PyStr.first_line Demo.sidecar_text) c)
  /\ run Demo.w_no_sidecar Demo.cmdline
     = (Raise IOError,
        st_trace (Demo.located Demo.w_no_sidecar)
          ++ [Open (OsPath.join (st_cwd (Demo.located Demo.w_no_sidecar))
                                (ova_sum Demo.d)) false])
  /\ spawns (snd (run Demo.w_no_sidecar Demo.cmdline)) = [].
Proof.
  split.
  - apply (proj1 (C6_local_checksum Demo.w_first)). vm_compute. reflexivity.
  - apply (proj1 (proj2 (proj2 (C6_local_checksum Demo.w_no_sidecar)))
             Demo.cmdline "/home/u/key.json"); vm_compute; reflexivity.
Defined.

(** *** C8 *)

Section SameButRevoke.

Variables w w' : world.
Hypothesis same : same_but_revoke w w'.

Lemma check_call_same argv st :
  argv <> revoke_argv ->
  subprocess_check_call w argv st = subprocess_check_call w' argv st.
Proof.
  intros Hargv. rewrite !check_call_eq.
  now rewrite (sbr_spawn _ _ same _ _ _ Hargv).
Qed.

Lemma locate_same a st : locate w a st = locate w' a st.
Proof.
  unfold locate, bind, os_path_abspath, os_chdir, load_manifest, bind, open_r.
  destruct (key_file a) as [p|]; [|reflexivity].
  rewrite (sbr_chdir _ _ same).
  destruct (w_chdir w' _ _ _) as [cwd'|]; [|reflexivity].
  unfold print at 1 3, emit. norm.
  rewrite (sbr_open _ _ same).
  destruct (w_open w' _ _) as [text|]; [|reflexivity].
  rewrite (sbr_manifest _ _ same). reflexivity.
Qed.

Lemma checksums_same d st : checksums w d st = checksums w' d st.
Proof.
  unfold checksums, bind. rewrite !get_local_checksum_eq. cbv zeta.
  rewrite (sbr_open _ _ same).
  destruct (local_checksum _) as [lcl|e]; [|reflexivity].
  unfold print at 1 3, emit. rewrite !get_remote_checksum_eq.
  rewrite (sbr_get _ _ same). reflexivity.
Qed.

Lemma decide_same k d lcl rem st :
  decide w k d lcl rem st = decide w' k d lcl rem st.
Proof.
  unfold decide. destruct (py_eq lcl rem); [reflexivity|].
  unfold activate_service_account, bind.
  rewrite (check_call_same _ st) by discriminate.
  destruct (subprocess_check_call w' _ st) as [[[]|e] st1]; [|reflexivity].
  unfold atexit_register at 1 2. unfold print at 1 4, emit.
  rewrite (check_call_same _ (record _ _)) by discriminate.
  destruct (subprocess_check_call w' _ _) as [[[]|e] st2]; [|reflexivity].
  unfold print at 1 3, emit.
  rewrite (check_call_same _ (record _ _)) by discriminate.
  reflexivity.
Qed.

Lemma main_same a : main w a (initial_state w) = main w' a (initial_state w').
Proof.
  rewrite !main_phases. unfold main_by_phases, bind, initial_state.
  rewrite (sbr_cwd _ _ same), locate_same.
  destruct (locate w' a _) as [[[k d]|e] st1]; [|reflexivity].
  cbn [fst snd]. rewrite checksums_same.
  destruct (checksums w' d st1) as [[[lcl rem]|e] st2]; [|reflexivity].
  cbn [fst snd]. apply decide_same.
Qed.

End SameButRevoke.

Lemma run_result w a : fst (run w a) = fst (main w a (initial_state w)).
Proof. unfold run. now destruct (main w a (initial_state w)). Qed.

(** C8.  A failing revocation is not escalated.  Whatever status
    [gcloud auth revoke] ends with, [deactivate_service_account] returns
    normally.  The result of a run, and with it the exit status, is the
    same in two environments that differ only in how the revocation ends
    (be it with a status other than 0 or by not starting at all).  And a
    run whose copy of the checksum ended with status 0 succeeds, with exit
    status 0, whatever the revocation does afterwards. *)
Theorem C8_revocation_failure_is_not_escalated :
  (forall w st returncode,
      w_spawn w (st_trace st) (st_cwd st) revoke_argv = Exited returncode ->
      fst (deactivate_service_account w st) = Ok tt)
  /\ (forall w w' a,
        same_but_revoke w w' ->
        fst (run w a) = fst (run w' a)
        /\ exit_status (fst (run w a)) = exit_status (fst (run w' a)))
  /\ (forall w a k d st1 r tr,
        locate w a (initial_state w) = (Ok (k, d), st1) ->
        run w a = (r, tr) ->
        In (Spawn (checksum_copy_argv d) (Exited 0)) tr ->
        r = Ok tt /\ exit_status r = 0%Z).
Proof.
  split; [|split].
  - intros w st c H. unfold deactivate_service_account, subprocess_call, bind.
    fold revoke_argv. now rewrite H.
  - intros w w' a Hsame. rewrite !run_result, (main_same _ _ Hsame). auto.
  - intros w a k d st1 r tr H1 Hrun Hin.
    destruct (locate_ok _ _ _ _ _ _ H1)
      as (p & cwd' & text & name & version & _ & _ & _ & _ & Hd & _).
    pose proof (copies_distinct name version) as Hdist. rewrite <- Hd in Hdist.
    clear Hd. apply run_cases in Hrun.
    destruct Hrun as [e st1' H1' | k' d' st1' e st2 H1' H2
                     | k' d' st1' lcl st2 H1' H2
                     | k' d' st1' lcl rem st2 r st3 H1' H2 Hne Hp];
      rewrite H1 in H1'; try discriminate H1'; injection H1' as <- <- <-.
    + destruct (before_decision_quiet _ _ _ _ _ _ _ H1 H2) as (Q & _).
      exfalso. exact (quiet_no_spawn _ _ _ Q Hin).
    + auto.
    + destruct (before_decision_quiet _ _ _ _ _ _ _ H1 H2) as (Q & Hx & _).
      destruct Hp as [r1 E1 Hr1 | r2 E1 E2 Hr2 | r3 E1 E2 E3].
      * rewrite at_exit_nil in Hin by exact Hx. cbn [st_trace] in Hin.
        exfalso. argv_unfold. members Q Hin.
      * rewrite at_exit_hook in Hin by (cbn; now rewrite Hx).
        cbn [st_trace st_cwd] in Hin. rewrite <- app_assoc in Hin.
        cbn [app] in Hin. exfalso. argv_unfold. members Q Hin.
      * rewrite at_exit_hook in Hin by (cbn; now rewrite Hx).
        cbn [st_trace st_cwd] in Hin.
        destruct (checked (checksum_copy_argv d) r3) as [[]|e] eqn:E4;
          [auto|].
        exfalso. rewrite <- ?app_assoc in Hin. cbn [app] in Hin.
        apply checked_raise in E4.
        argv_unfold. members Q Hin.
Qed.

Lemma same_but_revoke_demo :
  same_but_revoke Demo.w_first Demo.w_revoke_fails.
Proof.
  split; try reflexivity.
  intros t c argv Hargv. cbn. unfold Demo.all_succeed, Demo.revoke_fails.
  now destruct (list_eq_dec string_dec argv revoke_argv).
Qed.

Lemma C8_revocation_failure_is_not_escalated_witness :
  fst (deactivate_service_account Demo.w_revoke_fails
         (Demo.compared Demo.w_revoke_fails)) = Ok tt
  /\ exit_status (fst (run Demo.w_first Demo.cmdline))
     = exit_status (fst (run Demo.w_revoke_fails Demo.cmdline))
  /\ fst (run Demo.w_revoke_fails Demo.cmdline) = Ok tt.
Proof.
  destruct C8_revocation_failure_is_not_escalated as (P1 & P2 & P3).
  split; [|split].
  - apply (P1 _ _ 1%Z). vm_compute. reflexivity.
  - apply P2. exact same_but_revoke_demo.
  - refine (proj1 (P3 Demo.w_revoke_fails Demo.cmdline "/home/u/key.json"
                      Demo.d (Demo.located Demo.w_revoke_fails)
                      (fst (run Demo.w_revoke_fails Demo.cmdline))
                      (snd (run Demo.w_revoke_fails Demo.cmdline)) _ _ _)).
    + vm_compute. reflexivity.
    + vm_compute. reflexivity.
    + vm_compute. repeat (first [left; reflexivity | right]).
Defined.

(** *** C9 *)

(** C9.  In a run given the key file [p], whenever the authentication is
    started, the key file handed to it is [p] made absolute against the
    directory the tool was started in: for a relative [p], that directory
    joined with [p] and normalised.  At that time the working directory
    has already been changed: the change to the build directory is the
    first event of the run.  Neither the build directory nor the directory
    [os.chdir] ends up in has any influence on the key file. *)
Theorem C9_key_file_resolved_before_chdir w a p r tr :
  key_file a = Some p ->
  run w a = (r, tr) ->
  forall k res,
    In (Spawn (activate_argv k) res) tr ->
    k = OsPath.abspath (w_cwd w) p
    /\ (OsPath.isabs p = false ->
        k = OsPath.normpath (OsPath.join (w_cwd w) p))
    /\ exists post, tr = Chdir (build_dir a) true :: post.
Proof.
  intros Hp Hrun k res Hin.
  assert (A : OsPath.isabs p = false ->
              OsPath.abspath (w_cwd w) p
              = OsPath.normpath (OsPath.join (w_cwd w) p))
    by (unfold OsPath.abspath; now intros ->).
  apply run_cases in Hrun.
  destruct Hrun as [e st1 H1 | k0 d st1 e st2 H1 H2 | k0 d st1 lcl st2 H1 H2
                   | k0 d st1 lcl rem st2 r st3 H1 H2 Hne Hpub].
  - apply locate_quiet in H1 as (_ & t & E & Q). cbn in E. subst t.
    exfalso. exact (quiet_no_spawn _ _ _ Q Hin).
  - destruct (before_decision_quiet _ _ _ _ _ _ _ H1 H2) as (Q & _).
    exfalso. exact (quiet_no_spawn _ _ _ Q Hin).
  - destruct (before_decision_quiet _ _ _ _ _ _ _ H1 H2) as (Q & _).
    assert (Q' : spawns (st_trace st2 ++ skip_report d) = [])
      by now rewrite spawns_app, Q.
    exfalso. exact (quiet_no_spawn _ _ _ Q' Hin).
  - destruct (before_decision_quiet _ _ _ _ _ _ _ H1 H2) as (Q & Hx & _).
    destruct (locate_ok _ _ _ _ _ _ H1)
      as (p' & cwd' & text & name & version & Hp' & Hk & _ & _ & _ & _ & _
          & Ht1 & _).
    rewrite Hp in Hp'. injection Hp' as <-. cbn [initial_state st_cwd] in Hk.
    apply checksums_quiet in H2 as (_ & _ & t2 & Ht2 & _).
    assert (Hk0 : k = k0).
    { destruct Hpub as [r1 E1 Hr1 | r2 E1 E2 Hr2 | r3 E1 E2 E3].
      - rewrite at_exit_nil in Hin by exact Hx. cbn [st_trace] in Hin.
        argv_unfold. members Q Hin. now injection Hin as ->.
      - rewrite at_exit_hook in Hin by (cbn; now rewrite Hx).
        cbn [st_trace st_cwd] in Hin. rewrite <- app_assoc in Hin.
        cbn [app] in Hin. argv_unfold. members Q Hin. now injection Hin as ->.
      - rewrite at_exit_hook in Hin by (cbn; now rewrite Hx).
        cbn [st_trace st_cwd] in Hin.
        destruct (checked (checksum_copy_argv d) r3) as [[]|e];
          rewrite <- ?app_assoc in Hin; cbn [app] in Hin;
          argv_unfold; members Q Hin; now injection Hin as ->. }
    rewrite Hk0. split; [exact Hk|]. split; [intros Hrel; rewrite Hk; auto|].
    assert (Hst3 : exists t3, st_trace st3 = st_trace st2 ++ t3)
      by (destruct Hpub; cbn [st_trace]; eauto).
    destruct Hst3 as (t3 & Ht3).
    assert (Hex : exists t4, at_exit w st3 = st_trace st3 ++ t4).
    { destruct (publish_outcome_atexit _ _ _ _ _ _ Hpub) as (_ & [Ha|Ha]).
      - exists []. rewrite at_exit_nil, app_nil_r by now rewrite Ha. reflexivity.
      - eexists. apply at_exit_hook. now rewrite Ha, Hx. }
    destruct Hex as (t4 & ->). rewrite Ht3, Ht2, Ht1.
    cbn [initial_state st_trace app]. eexists. reflexivity.
Qed.

Lemma C9_key_file_resolved_before_chdir_witness :
  "/home/u/key.json" = OsPath.abspath "/home/u" "key.json"
  /\ (OsPath.isabs "key.json" = false ->
      "/home/u/key.json" = OsPath.normpath (OsPath.join "/home/u" "key.json"))
  /\ exists post, snd (run Demo.w_first Demo.cmdline) = Chdir "out" true :: post.
Proof.
  refine (C9_key_file_resolved_before_chdir Demo.w_first Demo.cmdline "key.json"
            (fst (run Demo.w_first Demo.cmdline))
            (snd (run Demo.w_first Demo.cmdline)) _ _
            "/home/u/key.json" (Exited 0) _).
  - reflexivity.
  - vm_compute. reflexivity.
  - vm_compute. repeat (first [left; reflexivity | right]).
Defined.

(** *** C10 *)

(** C10.  On a sidecar file that is empty, or whose first line holds
    nothing but whitespace, [get_local_checksum] does not fail: it returns
    the empty string.  If then the endpoint answers with a status from 200
    to 299 and a body that strips to the empty string, the run takes SKIP:
    it ends successfully after reporting the download address and starts
    no program. *)
Theorem C10_empty_checksums_skip w :
  (forall path st text,
      w_open w (st_trace st) (OsPath.join (st_cwd st) path) = Some text ->
      PyStr.all_space (PyStr.first_line text) = true ->
      fst (get_local_checksum w path st) = Ok "")
  /\ (forall a k d st1 text status_code body,
        locate w a (initial_state w) = (Ok (k, d), st1) ->
        let sidecar := OsPath.join (st_cwd st1) (ova_sum d) in
        let asked :=
          st_trace st1 ++
            [Open sidecar true; Print "image-upload-ova:  local sha256 "] in
        w_open w (st_trace st1) sidecar = Some text ->
        PyStr.all_space (PyStr.first_line text) = true ->
        w_get w asked (url_ova_sum d) = Response status_code body ->
        (200 <= status_code <= 299)%Z ->
        PyStr.strip body = "" ->
        run w a
        = (Ok tt,
           asked ++
             [HttpGet (url_ova_sum d) (Response status_code body);
              Print "image-upload-ova: remote sha256 "] ++ skip_report d)
        /\ spawns (snd (run w a)) = []).
Proof.
  assert (L : forall path st text,
             w_open w (st_trace st) (OsPath.join (st_cwd st) path) = Some text ->
             PyStr.all_space (PyStr.first_line text) = true ->
             local_checksum (w_open w (st_trace st)
                               (OsPath.join (st_cwd st) path)) = Ok "").
  { intros path st text -> Hsp. cbn [local_checksum].
    now rewrite PyStrFacts.strip_readline, PyStrFacts.strip_all_space. }
  split.
  - intros path st text Hopen Hsp. rewrite get_local_checksum_eq. cbv zeta.
    cbn [fst]. now apply (L path st text).
  - intros a k d st1 text s body H1 sidecar asked Hopen Hsp Hget Hs Hbody.
    subst sidecar asked.
    assert (H2 : checksums w d st1
                 = (Ok ("", Some ""),
                    mkState (st_cwd st1)
                      (st_trace st1 ++
                         [Open (OsPath.join (st_cwd st1) (ova_sum d)) true;
                          Print "image-upload-ova:  local sha256 ";
                          HttpGet (url_ova_sum d) (Response s body);
                          Print "image-upload-ova: remote sha256 "])
                      (st_atexit st1))).
    { unfold checksums, bind. rewrite get_local_checksum_eq. cbv zeta.
      rewrite (L _ _ _ Hopen Hsp), Hopen.
      unfold print at 1, emit. rewrite get_remote_checksum_eq. norm.
      rewrite append_nil_r, Hget. cbn [remote_checksum].
      replace ((s >=? 200) && (s <=? 299))%Z with true
        by (symmetry; apply andb_true_intro; split; lia).
      rewrite Hbody. unfold print, emit, ret. norm. cbn [str_of].
      rewrite append_nil_r. reflexivity. }
    pose proof (run_skip _ _ _ _ _ _ _ H1 H2) as Hrun. cbn [st_trace] in Hrun.
    rewrite <- !app_assoc. cbn [app]. rewrite <- app_assoc in Hrun.
    cbn [app] in Hrun. rewrite Hrun. split; [reflexivity|].
    cbn [snd]. destruct (before_decision_quiet _ _ _ _ _ _ _ H1 H2) as (Q & _).
    cbn [st_trace] in Q. rewrite spawns_app in Q.
    apply app_eq_nil in Q as [Q _]. rewrite spawns_app, Q. reflexivity.
Qed.

Lemma C10_empty_checksums_skip_witness :
  fst (get_local_checksum Demo.w_empty "centos.ova.sha256"
         (Demo.located Demo.w_empty)) = Ok ""
  /\ fst (run Demo.w_empty Demo.cmdline) = Ok tt
  /\ spawns (snd (run Demo.w_empty Demo.cmdline)) = [].
Proof.
  destruct (C10_empty_checksums_skip Demo.w_empty) as (P1 & P2).
  split.
  - apply (P1 _ _ ""); vm_compute; reflexivity.
  - destruct (P2 Demo.cmdline "/home/u/key.json" Demo.d
                 (Demo.located Demo.w_empty) "" 200%Z (String PyStr.LF ""))
      as (Hrun & Hq).
    + vm_compute. reflexivity.
    + vm_compute. reflexivity.
    + vm_compute. reflexivity.
    + vm_compute. reflexivity.
    + lia.
    + vm_compute. reflexivity.
    + split; [now rewrite Hrun | exact Hq].
Defined.

(** *** C3 *)

(** C3, as the script has it.  For an answer with a status from 200 to 299
    [get_remote_checksum] returns the body stripped of surrounding
    whitespace; for an answer with any other status it returns [None], so
    that 500 is treated like 404; a failure of the transport is not
    caught: the exception of [requests.get] leaves [get_remote_checksum]
    and ends the run. *)
Theorem C3_remote_checksum w url st :
  (forall status_code body,
      w_get w (st_trace st) url = Response status_code body ->
      (200 <= status_code <= 299)%Z ->
      exists c,
        fst (get_remote_checksum w url st) = Ok (Some c)
        /\ stripped_of body c)
  /\ (forall status_code body,
        w_get w (st_trace st) url = Response status_code body ->
        ~ (200 <= status_code <= 299)%Z ->
        fst (get_remote_checksum w url st) = Ok None)
  /\ (w_get w (st_trace st) url = TransportFailure ->
      fst (get_remote_checksum w url st) = Raise ConnectionError).
Proof.
  rewrite get_remote_checksum_eq. cbn [fst]. split; [|split].
  - intros s body -> Hs. cbn [remote_checksum].
    replace ((s >=? 200) && (s <=? 299))%Z with true
      by (symmetry; apply andb_true_intro; split; lia).
    eexists. split; [reflexivity | apply PyStrFacts.strip_spec].
  - intros s body -> Hs. cbn [remote_checksum].
    destruct ((s >=? 200) && (s <=? 299))%Z eqn:E; [|reflexivity].
    apply andb_prop in E as [E1 E2]. exfalso. apply Hs. lia.
  - now intros ->.
Qed.

Lemma C3_remote_checksum_witness :
  (exists c,
     fst (get_remote_checksum Demo.w_published (url_ova_sum Demo.d)
            (initial_state Demo.w_published)) = Ok (Some c)
     /\ stripped_of Demo.sidecar_text c)
  /\ fst (get_remote_checksum Demo.w_server_error (url_ova_sum Demo.d)
            (initial_state Demo.w_server_error)) = Ok None
  /\ fst (get_remote_checksum Demo.w_first (url_ova_sum Demo.d)
            (initial_state Demo.w_first)) = Ok None
  /\ fst (get_remote_checksum Demo.w_offline (url_ova_sum Demo.d)
            (initial_state Demo.w_offline)) = Raise ConnectionError.
Proof.
  split; [|split; [|split]].
  - apply (proj1 (C3_remote_checksum Demo.w_published _ _) 200%Z);
      [reflexivity | lia].
  - apply (proj1 (proj2 (C3_remote_checksum Demo.w_server_error _ _))
             500%Z "Internal Server Error"); [reflexivity | lia].
  - apply (proj1 (proj2 (C3_remote_checksum Demo.w_first _ _))
             404%Z "Not Found"); [reflexivity | lia].
  - apply (proj2 (proj2 (C3_remote_checksum Demo.w_offline _ _))).
    reflexivity.
Defined.

(** C3, as the specification has it, fails when the endpoint cannot be
    reached: [get_remote_checksum] does not return [None] but raises, and
    the run ends with that exception. *)
Lemma C3_transport_failure_counterexample :
  w_get Demo.w_offline (st_trace (initial_state Demo.w_offline))
        (url_ova_sum Demo.d) = TransportFailure
  /\ fst (get_remote_checksum Demo.w_offline (url_ova_sum Demo.d)
            (initial_state Demo.w_offline)) <> Ok None
  /\ fst (run Demo.w_offline Demo.cmdline) = Raise ConnectionError.
Proof.
  split; [reflexivity|]. split; [|vm_compute; reflexivity].
  vm_compute. discriminate.
Qed.

(** *** C7 *)

(** C7.  The destination is a function of the name and the version alone,
    so two resolutions of the same name and version give the same strings.
    The remote artifact is [{name}-kube-{version}.ova]; the storage path
    is the bucket root followed by the classification, the version and the
    name of the remote artifact; the address for downloads has the same
    components after the public root; the checksum object is named like
    the artifact with [.sha256] appended, under both roots.  The
    destination [main] works with is the one resolved from the name and
    the version decoded from the manifest it has read, whatever else the
    environment and the command line are. *)
Theorem C7_destination :
  (forall name version,
      let d := Resolve name version in
      rem_ova d = (name ++ "-kube-" ++ version ++ ".ova")%string
      /\ upload_dir d = classify version
      /\ (upload_dir d = "release" \/ upload_dir d = "ci")
      /\ gcs_ova d
         = (bucket_root ++ upload_dir d ++ "/" ++ version ++ "/"
              ++ rem_ova d)%string
      /\ gcs_ova_sum d
         = (bucket_root ++ upload_dir d ++ "/" ++ version ++ "/"
              ++ (rem_ova d ++ ".sha256"))%string
      /\ url_ova d
         = (public_root ++ upload_dir d ++ "/" ++ version ++ "/"
              ++ rem_ova d)%string
      /\ url_ova_sum d
         = (public_root ++ upload_dir d ++ "/" ++ version ++ "/"
              ++ (rem_ova d ++ ".sha256"))%string)
  /\ (forall name version name' version',
        name = name' -> version = version' ->
        Resolve name version = Resolve name' version')
  /\ (forall w a k d st1,
        locate w a (initial_state w) = (Ok (k, d), st1) ->
        exists text name version,
          w_open w
            [Chdir (build_dir a) true;
             Print ("image-build-ova: cd " ++ build_dir a)%string]
            (OsPath.join (st_cwd st1) "packer-manifest.json") = Some text
          /\ w_manifest w text = Ok (name, version)
          /\ d = Resolve name version).
Proof.
  split; [|split].
  - intros name version d. subst d. cbn [Resolve rem_ova upload_dir gcs_ova
      gcs_ova_sum url_ova url_ova_sum]. unfold bucket_root, public_root.
    repeat split.
    + unfold classify. destruct (Re.match_ _ _); auto.
    + now rewrite !append_assoc.
    + now rewrite !append_assoc.
  - now intros name version name' version' -> ->.
  - intros w a k d st1 H1.
    destruct (locate_ok _ _ _ _ _ _ H1)
      as (p & cwd' & text & name & version & _ & _ & _ & Hm & Hd & Hc & _ & _
          & Ho).
    exists text, name, version. rewrite Hc. auto.
Qed.

Lemma C7_destination_witness :
  exists text name version,
    w_open Demo.w_first
      [Chdir "out" true; Print "image-build-ova: cd out"]
      (OsPath.join (st_cwd (Demo.located Demo.w_first))
                   "packer-manifest.json") = Some text
    /\ w_manifest Demo.w_first text = Ok (name, version)
    /\ Demo.d = Resolve name version.
Proof.
  apply (proj2 (proj2 C7_destination) Demo.w_first Demo.cmdline
               "/home/u/key.json" Demo.d (Demo.located Demo.w_first)).
  vm_compute. reflexivity.
Defined.

(* ================================================================== *)
(** ** The two patterns *)

Module ReFacts.
Import Re ReSpec.

Lemma repeat1_spec (step : cursor -> list cursor)
      (R : cursor -> cursor -> Prop) :
  (forall c c', In c' (step c) <-> R c c') ->
  forall fuel c c',
    String.length (rest c) < fuel ->
    (In c' (repeat1 step fuel c) <-> iter1 R c c').
Proof.
  intros Hstep fuel. induction fuel as [|fuel IH]; intros c c' Hfuel; [lia|].
  cbn [repeat1]. rewrite in_flat_map. split.
  - intros (c1 & Hin1 & Hin). apply Hstep in Hin1.
    apply in_app_or in Hin as [Hin | [<- | []]].
    + destruct (String.length (rest c1) <? String.length (rest c))%nat eqn:Hlt;
        [|contradiction].
      apply Nat.ltb_lt in Hlt. apply IH in Hin; [|lia].
      now apply iter1_more with c1.
    + now apply iter1_once.
  - intros Hit. destruct Hit as [c c' H | c c1 c2 H Hlt Hit].
    + exists c'. split; [now apply Hstep|]. apply in_or_app. right. now left.
    + exists c1. split; [now apply Hstep|]. apply in_or_app. left.
      apply Nat.ltb_lt in Hlt as Hlt'. rewrite Hlt'. apply IH; [lia|exact Hit].
Qed.

(** The matcher finds exactly the matches. *)
Theorem exec_spec r : forall c c', In c' (exec r c) <-> matches r c c'.
Proof.
  induction r as [| |a| |r1 IH1 r2 IH2|r IH|r IH]; intros c c'; cbn [exec matches].
  - destruct (consumed c =? 0)%nat eqn:E.
    + apply Nat.eqb_eq in E. cbn. intuition congruence.
    + apply Nat.eqb_neq in E. cbn. intuition congruence.
  - destruct (rest c) as [|a [|b s]] eqn:E.
    + cbn. intuition congruence.
    + destruct (Ascii.eqb_spec a PyStr.LF) as [->|N]; cbn.
      * intuition congruence.
      * split; [contradiction|].
        intros [[H|H] _]; [discriminate H | injection H as H; contradiction].
    + cbn. split; [contradiction|]. intros [[H|H] _]; discriminate.
  - destruct (rest c) as [|b s] eqn:E.
    + cbn. split; [contradiction|]. intros (s' & H & _). discriminate.
    + destruct (Ascii.eqb_spec a b) as [->|N]; cbn.
      * split.
        -- intros [<-|[]]. eauto.
        -- intros (s' & [= ->] & ->). now left.
      * split; [contradiction|]. intros (s' & [= H _] & _). congruence.
  - destruct (rest c) as [|b s] eqn:E.
    + cbn. split; [contradiction|]. intros (b' & s' & H & _). discriminate.
    + destruct (PyStr.isdigit b) eqn:Hb; cbn.
      * split.
        -- intros [<-|[]]. eauto.
        -- intros (b' & s' & [= -> ->] & _ & ->). now left.
      * split; [contradiction|]. intros (b' & s' & [= -> ->] & H & _).
        congruence.
  - rewrite in_flat_map. split.
    + intros (c1 & H1 & H2). exists c1. split; [now apply IH1 | now apply IH2].
    + intros (c1 & H1 & H2). exists c1. split; [now apply IH1 | now apply IH2].
  - rewrite in_app_iff, IH. cbn. intuition congruence.
  - apply repeat1_spec; [exact IH | lia].
Qed.

Lemma match_spec r s : match_ r s = true <-> exists c', matches r (0, s) c'.
Proof.
  unfold match_. destruct (exec r (0, s)) as [|c l] eqn:E.
  - split; [discriminate|]. intros (c' & H). apply exec_spec in H.
    rewrite E in H. contradiction.
  - split; [|reflexivity]. intros _. exists c. apply exec_spec. rewrite E.
    now left.
Qed.

Lemma fullmatch_spec r s :
  fullmatch r s = true <-> exists n, matches r (0, s) (n, "").
Proof.
  unfold fullmatch. rewrite existsb_exists. split.
  - intros ([n t] & Hin & Ht). cbn in Ht. destruct t; [|discriminate].
    exists n. now apply exec_spec.
  - intros (n & H). exists (n, ""). split; [now apply exec_spec | reflexivity].
Qed.

End ReFacts.

Module ShapeFacts.
Import Re ReSpec ReFacts.

Lemma lit_rest a c c' : matches (Lit a) c c' -> rest c = String a (rest c').
Proof. intros (s & E & ->). exact E. Qed.

Lemma digit_rest c c' :
  matches Digit c c' ->
  exists b, PyStr.isdigit b = true /\ rest c = String b (rest c').
Proof. intros (b & s & E & Hb & ->). now exists b. Qed.

Lemma number_rest c c' :
  matches (Plus Digit) c c' ->
  exists ds, number ds /\ rest c = (ds ++ rest c')%string.
Proof.
  cbn [matches]. induction 1 as [c c' H | c c1 c2 H Hlt Hit (ds & [Hne Hds] & E)].
  - apply digit_rest in H as (b & Hb & E). exists (String b "").
    repeat split; [discriminate | cbn; now rewrite Hb | exact E].
  - apply digit_rest in H as (b & Hb & E1). exists (String b ds).
    repeat split; [discriminate | cbn; now rewrite Hb | ].
    cbn. now rewrite E1, E.
Qed.

Lemma lit_intro a c s :
  rest c = String a s -> matches (Lit a) c (S (consumed c), s).
Proof. intros E. exists s. auto. Qed.

Lemma digit_intro b c s :
  PyStr.isdigit b = true -> rest c = String b s ->
  matches Digit c (S (consumed c), s).
Proof. intros Hb E. exists b, s. auto. Qed.

Lemma number_intro ds :
  number ds ->
  forall c s, rest c = (ds ++ s)%string ->
              exists n, matches (Plus Digit) c (n, s).
Proof.
  intros [Hne Hds]. induction ds as [|b ds IH]; [congruence|].
  intros c s E. cbn in Hds. apply andb_prop in Hds as [Hb Hds].
  destruct ds as [|b' ds'].
  - exists (S (consumed c)). apply iter1_once. now apply digit_intro with b.
  - destruct (IH ltac:(discriminate) Hds (S (consumed c), (String b' ds' ++ s)%string) s
                 eq_refl) as (n & Hn).
    exists n. apply iter1_more with (S (consumed c), (String b' ds' ++ s)%string).
    + now apply digit_intro with b.
    + rewrite E. cbn. lia.
    + exact Hn.
Qed.

Lemma build_rest c c' :
  matches (Opt (Seq (Lit "-") (Plus Digit))) c c' ->
  exists build,
    rest c = (build ++ rest c')%string
    /\ (build = "" \/ exists b, number b /\ build = String "-" b).
Proof.
  intros [(c1 & H1 & H2) | ->].
  - apply lit_rest in H1. apply number_rest in H2 as (b & Hb & E).
    exists (String "-" b). split; [cbn; now rewrite H1, E | right; eauto].
  - exists "". auto.
Qed.

Lemma build_intro build c s :
  (build = "" \/ exists b, number b /\ build = String "-" b) ->
  rest c = (build ++ s)%string ->
  exists n, matches (Opt (Seq (Lit "-") (Plus Digit))) c (n, s).
Proof.
  intros [-> | (b & Hb & ->)] E.
  - exists (consumed c). right. destruct c. cbn in *. now subst.
  - destruct (number_intro b Hb (S (consumed c), (b ++ s)%string) s eq_refl)
      as (n & Hn).
    exists n. left. eexists. split; [|exact Hn]. now apply lit_intro.
Qed.

Lemma prefix_rest c c' :
  matches (Opt (Lit "v")) c c' ->
  exists pre, rest c = (pre ++ rest c')%string /\ (pre = "" \/ pre = "v").
Proof.
  intros [H | ->].
  - apply lit_rest in H. exists "v". auto.
  - exists "". auto.
Qed.

Lemma prefix_intro pre c s :
  (pre = "" \/ pre = "v") -> rest c = (pre ++ s)%string ->
  exists n, matches (Opt (Lit "v")) c (n, s).
Proof.
  intros [-> | ->] E.
  - exists (consumed c). right. destruct c. cbn in *. now subst.
  - exists (S (consumed c)). left. now apply lit_intro.
Qed.

(** What the pattern of the script matches. *)
Theorem release_pattern_shape v :
  match_ release_pattern v = true <-> script_release_shape v.
Proof.
  rewrite match_spec. unfold release_pattern. split.
  - intros (c' & c1 & [_ ->] & c2 & Hpre & c3 & Hmaj & c4 & Hd1 & c5 & Hmin
            & c6 & Hd2 & c7 & Hpatch & c8 & Hbuild & [Hnl ->]).
    apply prefix_rest in Hpre as (pre & Epre & Hpre).
    apply number_rest in Hmaj as (major & Hmaj & Emaj).
    apply lit_rest in Hd1. apply number_rest in Hmin as (minor & Hmin & Emin).
    apply lit_rest in Hd2. apply digit_rest in Hpatch as (patch & Hpatch & Epatch).
    apply build_rest in Hbuild as (build & Ebuild & Hbuild).
    exists pre, major, minor, patch, build, (rest c8).
    repeat split; try assumption; try apply Hmaj; try apply Hmin.
    cbn [rest snd] in Epre. rewrite Epre, Emaj, Hd1, Emin, Hd2, Epatch, Ebuild.
    reflexivity.
  - intros (pre & major & minor & patch & build & nl & -> & Hpre & Hmaj & Hmin
            & Hpatch & Hbuild & Hnl).
    set (t6 := String patch (build ++ nl)).
    set (t4 := (minor ++ String "." t6)%string).
    set (t2 := (major ++ String "." t4)%string).
    destruct (prefix_intro pre (0, (pre ++ t2)%string) t2 Hpre eq_refl)
      as (n2 & H2).
    destruct (number_intro major Hmaj (n2, t2) (String "." t4) eq_refl)
      as (n3 & H3).
    destruct (number_intro minor Hmin (S n3, t4) (String "." t6) eq_refl)
      as (n5 & H5).
    destruct (build_intro build (S (S n5), (build ++ nl)%string) nl Hbuild
                eq_refl) as (n8 & H8).
    exists (n8, nl). exists (0, (pre ++ t2)%string).
    split; [split; reflexivity|].
    eexists. split; [exact H2|]. eexists. split; [exact H3|].
    eexists. split; [now apply lit_intro|]. eexists. split; [exact H5|].
    eexists. split; [now apply lit_intro|].
    eexists. split; [now apply digit_intro with patch|].
    eexists. split; [exact H8|]. split; [exact Hnl | reflexivity].
Qed.

(** What the pattern in the words of the specification matches. *)
Theorem spec_release_pattern_shape v :
  fullmatch spec_release_pattern v = true <-> spec_release_shape v.
Proof.
  rewrite fullmatch_spec. unfold spec_release_pattern. split.
  - intros (n & c2 & Hpre & c3 & Hmaj & c4 & Hd1 & c5 & Hmin
            & c6 & Hd2 & c7 & Hpatch & Hbuild).
    apply prefix_rest in Hpre as (pre & Epre & Hpre).
    apply number_rest in Hmaj as (major & Hmaj & Emaj).
    apply lit_rest in Hd1. apply number_rest in Hmin as (minor & Hmin & Emin).
    apply lit_rest in Hd2. apply number_rest in Hpatch as (patch & Hpatch & Epatch).
    apply build_rest in Hbuild as (build & Ebuild & Hbuild).
    exists pre, major, minor, patch, build.
    repeat split; try assumption; try apply Hmaj; try apply Hmin;
      try apply Hpatch.
    cbn [rest snd] in Epre, Ebuild.
    rewrite Epre, Emaj, Hd1, Emin, Hd2, Epatch, Ebuild.
    now rewrite append_nil_r.
  - intros (pre & major & minor & patch & build & -> & Hpre & Hmaj & Hmin
            & Hpatch & Hbuild).
    set (t6 := (patch ++ build)%string).
    set (t4 := (minor ++ String "." t6)%string).
    set (t2 := (major ++ String "." t4)%string).
    destruct (prefix_intro pre (0, (pre ++ t2)%string) t2 Hpre eq_refl)
      as (n2 & H2).
    destruct (number_intro major Hmaj (n2, t2) (String "." t4) eq_refl)
      as (n3 & H3).
    destruct (number_intro minor Hmin (S n3, t4) (String "." t6) eq_refl)
      as (n5 & H5).
    destruct (number_intro patch Hpatch (S n5, t6) build eq_refl)
      as (n7 & H7).
    destruct (build_intro build (n7, build) "" Hbuild) as (n8 & H8);
      [cbn; now rewrite append_nil_r|].
    exists n8.
    eexists. split; [exact H2|]. eexists. split; [exact H3|].
    eexists. split; [now apply lit_intro|]. eexists. split; [exact H5|].
    eexists. split; [now apply lit_intro|].
    eexists. split; [exact H7|]. exact H8.
Qed.

End ShapeFacts.

Module PatchFacts.
Import ShapeFacts.

(** A run of digits ends where the first other character stands. *)
Lemma digits_end ds ds' x y s s' :
  all_digits ds = true -> all_digits ds' = true ->
  PyStr.isdigit x = false -> PyStr.isdigit y = false ->
  (ds ++ String x s = ds' ++ String y s')%string ->
  ds = ds' /\ x = y /\ s = s'.
Proof.
  revert ds'. induction ds as [|b ds IH]; intros [|b' ds'] Hds Hds' Hx Hy E;
    cbn in *.
  - injection E as -> ->. auto.
  - injection E as -> _. apply andb_prop in Hds' as [Hb _]. congruence.
  - injection E as -> _. apply andb_prop in Hds as [Hb _]. congruence.
  - injection E as -> E. apply andb_prop in Hds as [_ Hds].
    apply andb_prop in Hds' as [_ Hds'].
    destruct (IH ds' Hds Hds' Hx Hy E) as (-> & -> & ->). auto.
Qed.

Lemma number_first ds : number ds -> exists b t, ds = String b t /\ PyStr.isdigit b = true.
Proof.
  intros [Hne Hds]. destruct ds as [|b t]; [congruence|].
  cbn in Hds. apply andb_prop in Hds as [Hb _]. eauto.
Qed.

(** The optional [v] is determined by what follows it. *)
Lemma prefix_end pre pre' major major' s s' :
  (pre = "" \/ pre = "v") -> (pre' = "" \/ pre' = "v") ->
  number major -> number major' ->
  (pre ++ major ++ s = pre' ++ major' ++ s')%string ->
  (major ++ s = major' ++ s')%string.
Proof.
  intros Hpre Hpre' Hmaj Hmaj' E.
  destruct (number_first _ Hmaj) as (b & t & -> & Hb).
  destruct (number_first _ Hmaj') as (b' & t' & -> & Hb').
  destruct Hpre as [-> | ->], Hpre' as [-> | ->]; cbn in E |- *.
  - exact E.
  - injection E as -> _. discriminate Hb.
  - injection E as <- _. discriminate Hb'.
  - injection E as -> ->. reflexivity.
Qed.

(** A version of the shape of the specification whose patch number has two
    digits or more is not matched by the pattern of the script. *)
Theorem long_patch_not_matched pre major minor patch build :
  (pre = "" \/ pre = "v") ->
  number major -> number minor -> number patch ->
  2 <= String.length patch ->
  (build = "" \/ exists b, number b /\ build = String "-" b) ->
  Re.match_ release_pattern
    (pre ++ major ++ "." ++ minor ++ "." ++ patch ++ build) = false.
Proof.
  intros Hpre Hmaj Hmin Hpatch Hlen Hbuild.
  destruct (Re.match_ release_pattern _) eqn:E; [exfalso|reflexivity].
  apply release_pattern_shape in E
    as (pre' & major' & minor' & p & build' & nl & E & Hpre' & Hmaj' & Hmin'
        & Hp & Hbuild' & Hnl).
  apply (prefix_end pre pre' major major') in E; auto.
  apply digits_end in E as (_ & _ & E);
    [|apply Hmaj|apply Hmaj'|reflexivity|reflexivity].
  apply digits_end in E as (_ & _ & E);
    [|apply Hmin|apply Hmin'|reflexivity|reflexivity].
  destruct Hpatch as [_ Hds].
  destruct patch as [|q1 [|q2 r]]; cbn in Hlen; try lia.
  cbn in Hds. apply andb_prop in Hds as [_ Hds].
  apply andb_prop in Hds as [Hq2 _].
  cbn in E. injection E as _ E.
  destruct Hbuild' as [-> | (b & _ & ->)].
  - destruct Hnl as [-> | ->]; cbn in E; [discriminate E|].
    injection E as -> _. discriminate Hq2.
  - cbn in E. injection E as -> _. discriminate Hq2.
Qed.

End PatchFacts.

(** Such a version is a release for the specification and a CI build for
    the script. *)
Lemma long_patch_is_ci pre major minor patch build :
  (pre = "" \/ pre = "v") ->
  number major -> number minor -> number patch ->
  2 <= String.length patch ->
  (build = "" \/ exists b, number b /\ build = String "-" b) ->
  classify (pre ++ major ++ "." ++ minor ++ "." ++ patch ++ build) = "ci"
  /\ spec_classify (pre ++ major ++ "." ++ minor ++ "." ++ patch ++ build)
     = "release".
Proof.
  intros Hpre Hmaj Hmin Hpatch Hlen Hbuild. unfold classify, spec_classify.
  rewrite PatchFacts.long_patch_not_matched by assumption.
  split; [reflexivity|].
  replace (Re.fullmatch spec_release_pattern _) with true; [reflexivity|].
  symmetry. apply ShapeFacts.spec_release_pattern_shape.
  exists pre, major, minor, patch, build. auto 10.
Qed.

(** *** C4 *)

(** The examples of the specification are classified alike by the script
    and by the pattern in the words of the specification. *)
Lemma classification_examples :
  map classify ["v1.2.3"; "1.2.3"; "v1.2.3-4"; "v1.2.3-rc.1"; "1.2"; "v1.2.3.4"]
  = ["release"; "release"; "release"; "ci"; "ci"; "ci"]
  /\ map spec_classify
         ["v1.2.3"; "1.2.3"; "v1.2.3-4"; "v1.2.3-rc.1"; "1.2"; "v1.2.3.4"]
     = ["release"; "release"; "release"; "ci"; "ci"; "ci"].
Proof. split; vm_compute; reflexivity. Qed.

(** [$] also matches just before a newline that ends the version. *)
Lemma final_newline_is_release :
  classify ("v1.2.3" ++ String PyStr.LF "") = "release"
  /\ spec_classify ("v1.2.3" ++ String PyStr.LF "") = "ci".
Proof. split; vm_compute; reflexivity. Qed.

(** C4.  The pattern of the script takes one digit where the patch number
    is, not one or more: the version [v1.2.10], with a patch number of two
    digits, matches the pattern in the words of the specification, yet the
    script files it, and with it the whole destination, under [ci].
    [long_patch_is_ci] has the same for every such version. *)
Theorem C4_patch_number_of_two_digits :
  classify "v1.2.10" = "ci"
  /\ spec_classify "v1.2.10" = "release"
  /\ gcs_ova (Resolve "centos" "v1.2.10")
     = "gs://capv-images/ci/v1.2.10/centos-kube-v1.2.10.ova".
Proof. repeat split; vm_compute; reflexivity. Qed.

(* ================================================================== *)
(** ** More about whole runs *)

Lemma checksums_cases w d st r st' :
  checksums w d st = (r, st') -> checksums_outcome w d st r st'.
Proof.
  unfold checksums, bind. rewrite get_local_checksum_eq. cbv zeta.
  fold (sidecar_path st d).
  destruct (w_open w (st_trace st) (sidecar_path st d)) as [text|] eqn:Eo;
    cbn [local_checksum].
  2:{ intros [= <- <-]. now apply co_no_sidecar. }
  unfold print at 1, emit. rewrite get_remote_checksum_eq. norm.
  fold (asked st d (PyStr.strip (PyStr.readline text))).
  destruct (w_get w _ (url_ova_sum d)) as [s body|] eqn:Eg.
  - destruct (remote_checksum (Response s body)) as [rem|e] eqn:Er.
    + unfold print, emit, ret. intros [= <- <-]. norm.
      pose proof (co_answer w d st text s body rem Eo Eg Er) as P.
      unfold asked in P. rewrite <- app_assoc in P. exact P.
    + cbn in Er. destruct ((s >=? 200) && (s <=? 299))%Z; discriminate Er.
  - cbn [remote_checksum]. intros [= <- <-]. norm.
    pose proof (co_no_answer w d st text Eo Eg) as P.
    unfold asked in P. rewrite <- app_assoc in P. exact P.
Qed.

(** What [locate] has done when it raises. *)
Lemma locate_raise_cases w a st e st1 :
  locate w a st = (Raise e, st1) ->
  (key_file a = None /\ e = TypeError /\ st_trace st1 = st_trace st)
  \/ (exists p,
        key_file a = Some p
        /\ w_chdir w (st_trace st) (st_cwd st) (build_dir a) = None
        /\ e = IOError
        /\ st_trace st1 = st_trace st ++ [Chdir (build_dir a) false])
  \/ (exists p cwd',
        key_file a = Some p
        /\ w_chdir w (st_trace st) (st_cwd st) (build_dir a) = Some cwd'
        /\ exists found,
            st_trace st1
            = st_trace st ++
                [Chdir (build_dir a) true;
                 Print ("image-build-ova: cd " ++ build_dir a)%string;
                 Open (OsPath.join cwd' "packer-manifest.json") found]
            /\ match
                 w_open w
                   (st_trace st ++
                      [Chdir (build_dir a) true;
                       Print ("image-build-ova: cd " ++ build_dir a)%string])
                   (OsPath.join cwd' "packer-manifest.json")
               with
               | None => found = false /\ e = IOError
               | Some text => found = true /\ w_manifest w text = Raise e
               end).
Proof.
  unfold locate, bind, os_path_abspath, os_chdir, load_manifest, bind, open_r,
    print, emit, ret, raise.
  destruct (key_file a) as [p|].
  2:{ intros [= <- <-]. left. auto. }
  destruct (w_chdir w (st_trace st) (st_cwd st) (build_dir a)) as [cwd'|] eqn:Ec.
  2:{ intros [= <- <-]. right. left. exists p. auto. }
  norm.
  destruct (w_open w _ _) as [text|] eqn:Eo.
  - destruct (w_manifest w text) as [[name version]|e'] eqn:Em; [discriminate|].
    intros [= <- <-]. norm. right. right. exists p, cwd'.
    split; [reflexivity|]. split; [reflexivity|]. exists true.
    split; [reflexivity|]. rewrite Eo. auto.
  - intros [= <- <-]. norm. right. right. exists p, cwd'.
    split; [reflexivity|]. split; [reflexivity|]. exists false.
    split; [reflexivity|]. rewrite Eo. auto.
Qed.

(** *** Lines that are, and are not, download reports *)

Lemma prefix_append p x : String.prefix p (p ++ x) = true.
Proof.
  induction p as [|c p IH]; [now destruct x|].
  cbn. destruct (ascii_dec c c); [exact IH | contradiction].
Qed.

Lemma report_download x :
  is_download_report (Print ("image-upload-ova: download from " ++ x)) = true.
Proof. apply prefix_append. Qed.

Lemma report_cd x :
  is_download_report (Print ("image-build-ova: cd " ++ x)) = false.
Proof. reflexivity. Qed.

Lemma report_loaded x :
  is_download_report (Print ("image-upload-ova: loaded " ++ x)) = false.
Proof. reflexivity. Qed.

Lemma report_local x :
  is_download_report (Print ("image-upload-ova:  local sha256 " ++ x)) = false.
Proof. reflexivity. Qed.

Lemma report_remote x :
  is_download_report (Print ("image-upload-ova: remote sha256 " ++ x)) = false.
Proof. reflexivity. Qed.

Lemma report_upload x :
  is_download_report (Print ("image-upload-ova: upload " ++ x)) = false.
Proof. reflexivity. Qed.

(** Evaluates [spawns], [gets] and [download_reports] on a listed trace. *)
Ltac filters :=
  unfold spawns, gets, download_reports;
  rewrite ?filter_app;
  cbn [filter is_spawn is_get app];
  rewrite ?report_download, ?report_cd, ?report_loaded, ?report_local,
    ?report_remote, ?report_upload;
  cbn [filter is_download_report app];
  rewrite ?app_nil_r.

(** [locate] makes no request and reports no download. *)
Lemma locate_silent w a st r st1 :
  locate w a st = (r, st1) ->
  exists t,
    st_trace st1 = st_trace st ++ t
    /\ spawns t = [] /\ gets t = [] /\ download_reports t = [].
Proof.
  destruct r as [[k d]|e]; intros H.
  - destruct (locate_ok _ _ _ _ _ _ H)
      as (p & cwd' & text & name & version & _ & _ & _ & _ & _ & _ & _ & Ht & _).
    eexists. split; [exact Ht|]. now filters.
  - destruct (locate_raise_cases _ _ _ _ _ H)
      as [(_ & _ & Ht) | [(p & _ & _ & _ & Ht) | (p & cwd' & _ & _ & f & Ht & _)]].
    + exists []. now rewrite app_nil_r.
    + eexists. split; [exact Ht|]. now filters.
    + eexists. split; [exact Ht|]. now filters.
Qed.

(** Reading the checksums starts no program and reports no download; it
    makes one request, unless the sidecar file cannot be read. *)
Lemma checksums_silent w d st r st' :
  checksums_outcome w d st r st' ->
  st_atexit st' = st_atexit st /\ st_cwd st' = st_cwd st
  /\ exists t,
      st_trace st' = st_trace st ++ t
      /\ spawns t = [] /\ download_reports t = []
      /\ (gets t = []
          \/ exists answer lcl st2,
              gets t = [HttpGet (url_ova_sum d) answer]
              /\ get_local_checksum w (ova_sum d) st = (Ok lcl, st2)).
Proof.
  intros H.
  assert (L : forall text,
             w_open w (st_trace st) (sidecar_path st d) = Some text ->
             exists lcl st2,
               get_local_checksum w (ova_sum d) st = (Ok lcl, st2)).
  { intros text Eo. rewrite get_local_checksum_eq. cbv zeta.
    fold (sidecar_path st d). rewrite Eo. cbn [local_checksum]. eauto. }
  destruct H as [Eo | text Eo Eg | text s body rem Eo Eg Er];
    cbn [st_atexit st_cwd st_trace]; unfold asked;
    rewrite <- ?app_assoc; cbn [app]; (split; [reflexivity|]);
    (split; [reflexivity|]); eexists; (split; [reflexivity|]); filters;
    (split; [reflexivity|]); (split; [reflexivity|]).
  - now left.
  - right. destruct (L text Eo) as (lcl & st2 & Hl). eauto.
  - right. destruct (L text Eo) as (lcl & st2 & Hl). eauto.
Qed.

(** What the trace holds when [main] reaches line 95. *)
Lemma before_decision_silent w a k d st1 r st2 :
  locate w a (initial_state w) = (Ok (k, d), st1) ->
  checksums w d st1 = (r, st2) ->
  spawns (st_trace st2) = [] /\ download_reports (st_trace st2) = []
  /\ st_atexit st2 = []
  /\ (gets (st_trace st2) = []
      \/ exists answer lcl st2',
          gets (st_trace st2) = [HttpGet (url_ova_sum d) answer]
          /\ get_local_checksum w (ova_sum d) st1 = (Ok lcl, st2')).
Proof.
  intros H1 H2.
  destruct (locate_silent _ _ _ _ _ H1) as (t1 & E1 & S1 & G1 & R1).
  destruct (before_decision_quiet _ _ _ _ _ _ _ H1 H2) as (_ & Hx & _).
  apply checksums_cases, checksums_silent in H2
    as (_ & _ & t2 & E2 & S2 & R2 & G2).
  rewrite E2, E1. cbn [initial_state st_trace app].
  unfold spawns, gets, download_reports in *. rewrite !filter_app.
  rewrite S1, S2, R1, R2, G1. cbn [app]. auto.
Qed.

(** X1.  A run starts at most four programs, each at most once and in
    this order: the activation of the service account, the copy of the
    artifact, the copy of the checksum, the revocation.  Each of the first
    three is started only after the one before it ended with status 0,
    the revocation whenever the activation did; the result of the run is
    the outcome of the last of the first three that was started.  No other
    program is ever started. *)
Theorem programs_of_a_run w a :
  spawns (snd (run w a)) = []
  \/ exists k d st1,
      locate w a (initial_state w) = (Ok (k, d), st1)
      /\ ((exists r1,
             r1 <> Exited 0
             /\ spawns (snd (run w a)) = [Spawn (activate_argv k) r1]
             /\ fst (run w a) = checked (activate_argv k) r1)
          \/ (exists r2 rr,
                r2 <> Exited 0
                /\ spawns (snd (run w a))
                   = [Spawn (activate_argv k) (Exited 0);
                      Spawn (artifact_copy_argv d) r2;
                      Spawn revoke_argv rr]
                /\ fst (run w a) = checked (artifact_copy_argv d) r2)
          \/ (exists r3 rr,
                spawns (snd (run w a))
                = [Spawn (activate_argv k) (Exited 0);
                   Spawn (artifact_copy_argv d) (Exited 0);
                   Spawn (checksum_copy_argv d) r3;
                   Spawn revoke_argv rr]
                /\ fst (run w a) = checked (checksum_copy_argv d) r3)).
Proof.
  destruct (run w a) as [r tr] eqn:Hrun. cbn [fst snd]. apply run_cases in Hrun.
  destruct Hrun as [e st1 H1 | k d st1 e st2 H1 H2 | k d st1 lcl st2 H1 H2
                   | k d st1 lcl rem st2 r st3 H1 H2 Hne Hp].
  - left. destruct (locate_silent _ _ _ _ _ H1) as (t & E & S & _).
    cbn in E. now subst t.
  - left. now destruct (before_decision_silent _ _ _ _ _ _ _ H1 H2).
  - left. destruct (before_decision_silent _ _ _ _ _ _ _ H1 H2) as (S & _).
    now rewrite spawns_app, S.
  - right. exists k, d, st1. split; [exact H1|].
    destruct (before_decision_silent _ _ _ _ _ _ _ H1 H2) as (S & _ & Hx & _).
    destruct Hp as [r1 E1 Hr1 | r2 E1 E2 Hr2 | r3 E1 E2 E3].
    + left. exists r1. rewrite at_exit_nil by exact Hx. cbn [st_trace].
      rewrite spawns_app, S. auto.
    + right. left. eexists r2, _.
      rewrite at_exit_hook by (cbn; now rewrite Hx). cbn [st_trace st_cwd].
      rewrite !spawns_app, S. cbn. auto.
    + right. right.
      rewrite at_exit_hook by (cbn; now rewrite Hx). cbn [st_trace st_cwd].
      rewrite !spawns_app, S.
      destruct (checked (checksum_copy_argv d) r3) as [[]|e] eqn:E4;
        eexists r3, _; cbn; rewrite ?E4; auto.
Qed.

(** What the publish path adds to the trace holds no request, and it
    holds the download report exactly when the copy of the checksum ended
    with status 0. *)
Lemma publish_silent w k d st r st3 :
  publish_outcome w k d st r st3 ->
  st_atexit st = [] ->
  gets (at_exit w st3) = gets (st_trace st)
  /\ download_reports (at_exit w st3)
     = download_reports (st_trace st)
         ++ match r with
            | Ok _ =>
                [Print ("image-upload-ova: download from " ++ url_ova d)%string]
            | Raise _ => []
            end.
Proof.
  intros Hp Hx. destruct Hp as [r1 E1 Hr1 | r2 E1 E2 Hr2 | r3 E1 E2 E3].
  - rewrite at_exit_nil by exact Hx. cbn [st_trace].
    destruct (checked_failed (activate_argv k) r1 Hr1) as (e & ->).
    now filters.
  - rewrite at_exit_hook by (cbn; now rewrite Hx). cbn [st_trace st_cwd].
    destruct (checked_failed (artifact_copy_argv d) r2 Hr2) as (e & ->).
    now filters.
  - rewrite at_exit_hook by (cbn; now rewrite Hx). cbn [st_trace st_cwd].
    destruct (checked (checksum_copy_argv d) r3) as [[]|e]; now filters.
Qed.

(** X2.  A run makes at most one HTTP request, and that one for the
    checksum object of its destination, after it has read the local
    checksum: a run that cannot read the manifest or the sidecar file
    makes none. *)
Theorem requests_of_a_run w a :
  gets (snd (run w a)) = []
  \/ exists k d st1 lcl st2 answer,
      locate w a (initial_state w) = (Ok (k, d), st1)
      /\ get_local_checksum w (ova_sum d) st1 = (Ok lcl, st2)
      /\ gets (snd (run w a)) = [HttpGet (url_ova_sum d) answer].
Proof.
  destruct (run w a) as [r tr] eqn:Hrun. cbn [fst snd]. apply run_cases in Hrun.
  destruct Hrun as [e st1 H1 | k d st1 e st2 H1 H2 | k d st1 lcl st2 H1 H2
                   | k d st1 lcl rem st2 r st3 H1 H2 Hne Hp].
  - left. destruct (locate_silent _ _ _ _ _ H1) as (t & E & _ & G & _).
    cbn in E. now subst t.
  - destruct (before_decision_silent _ _ _ _ _ _ _ H1 H2)
      as (_ & _ & _ & [G | (answer & lcl & st2' & G & Hl)]); [now left | right].
    exists k, d, st1, lcl, st2', answer. auto.
  - destruct (before_decision_silent _ _ _ _ _ _ _ H1 H2)
      as (_ & _ & _ & [G | (answer & lcl' & st2' & G & Hl)]).
    + left. unfold gets in *. now rewrite filter_app, G.
    + right. exists k, d, st1, lcl', st2', answer. repeat split; auto.
      unfold gets in *. now rewrite filter_app, G.
  - destruct (before_decision_silent _ _ _ _ _ _ _ H1 H2)
      as (_ & _ & Hx & HG).
    destruct (publish_silent _ _ _ _ _ _ Hp Hx) as (-> & _).
    destruct HG as [G | (answer & lcl' & st2' & G & Hl)]; [now left | right].
    exists k, d, st1, lcl', st2', answer. auto.
Qed.



(** X4.  A run that cannot get as far as its destination ends with the
    exception of the first step that failed, having done nothing after
    it: without a value for [--key-file] nothing at all is done; if the
    build directory cannot be entered nothing is read; if the manifest
    cannot be read or decoded neither the sidecar file nor the endpoint is
    touched.  No program is started in any of these runs. *)
Theorem startup_failures w a :
  (key_file a = None -> run w a = (Raise TypeError, []))
  /\ (forall p,
        key_file a = Some p ->
        w_chdir w [] (w_cwd w) (build_dir a) = None ->
        run w a = (Raise IOError, [Chdir (build_dir a) false]))
  /\ (forall p cwd',
        key_file a = Some p ->
        w_chdir w [] (w_cwd w) (build_dir a) = Some cwd' ->
        let entered :=
          [Chdir (build_dir a) true;
           Print ("image-build-ova: cd " ++ build_dir a)%string] in
        let manifest := OsPath.join cwd' "packer-manifest.json" in
        (w_open w entered manifest = None ->
         run w a = (Raise IOError, entered ++ [Open manifest false]))
        /\ (forall text e,
              w_open w entered manifest = Some text ->
              w_manifest w text = Raise e ->
              run w a = (Raise e, entered ++ [Open manifest true]))).
Proof.
  assert (L : forall e t,
             locate w a (initial_state w) = (Raise e, mkState (w_cwd w) t []) \/
             (exists cwd',
                 locate w a (initial_state w) = (Raise e, mkState cwd' t [])) ->
             run w a = (Raise e, t)).
  { intros e t [H | (cwd' & H)]; now rewrite (run_locate_failed _ _ _ _ H). }
  split; [|split].
  - intros Hk. apply L. left.
    unfold locate, bind, os_path_abspath. now rewrite Hk.
  - intros p Hk Hc. apply L. left.
    unfold locate, bind, os_path_abspath, os_chdir. rewrite Hk.
    cbn [initial_state st_trace st_cwd]. now rewrite Hc.
  - intros p cwd' Hk Hc entered manifest. split.
    + intros Ho. apply L. right. exists cwd'.
      unfold locate, bind, os_path_abspath, os_chdir, load_manifest, bind,
        open_r, print, emit. rewrite Hk.
      cbn [initial_state st_trace st_cwd]. rewrite Hc. norm.
      fold entered. fold manifest. now rewrite Ho.
    + intros text e Ho Hm. apply L. right. exists cwd'.
      unfold locate, bind, os_path_abspath, os_chdir, load_manifest, bind,
        open_r, print, emit, raise. rewrite Hk.
      cbn [initial_state st_trace st_cwd]. rewrite Hc. norm.
      fold entered. fold manifest. rewrite Ho. norm. now rewrite Hm.
Qed.

Lemma startup_failures_witness :
  run Demo.w_first Startup.no_key = (Raise TypeError, [])
  /\ run Startup.w_no_build_dir Demo.cmdline
     = (Raise IOError, [Chdir "out" false])
  /\ run Startup.w_no_manifest Demo.cmdline
     = (Raise IOError,
        [Chdir "out" true; Print "image-build-ova: cd out";
         Open "/home/u/out/packer-manifest.json" false])
  /\ run Startup.w_bad_manifest Demo.cmdline
     = (Raise ValueError,
        [Chdir "out" true; Print "image-build-ova: cd out";
         Open "/home/u/out/packer-manifest.json" true]).
Proof.
  split; [|split; [|split]].
  - apply (proj1 (startup_failures Demo.w_first Startup.no_key)). reflexivity.
  - apply (proj1 (proj2 (startup_failures Startup.w_no_build_dir Demo.cmdline))
             "key.json"); reflexivity.
  - apply (proj1 (proj2 (proj2 (startup_failures Startup.w_no_manifest
                                   Demo.cmdline))
                    "key.json" "/home/u/out" eq_refl eq_refl)).
    reflexivity.
  - apply (proj2 (proj2 (proj2 (startup_failures Startup.w_bad_manifest
                                   Demo.cmdline))
                    "key.json" "/home/u/out" eq_refl eq_refl)
             Demo.manifest_text ValueError); reflexivity.
Defined.

(** ** The decision in terms of what is read and received *)

(** The checksums [main] compares, for a sidecar file and an answer. *)
Lemma checksums_of_inputs w d st1 text answer :
  w_open w (st_trace st1) (sidecar_path st1 d) = Some text ->
  w_get w (asked st1 d (PyStr.strip (PyStr.first_line text))) (url_ova_sum d)
  = answer ->
  exists st2,
    checksums w d st1
    = (match remote_checksum answer with
       | Ok rem => Ok (PyStr.strip (PyStr.first_line text), rem)
       | Raise e => Raise e
       end, st2).
Proof.
  intros Ho Hg. destruct (checksums w d st1) as [r st2] eqn:H. exists st2.
  f_equal. apply checksums_cases in H.
  rewrite <- PyStrFacts.strip_readline in *.
  destruct H as [Eo | text' Eo Eg | text' s body rem Eo Eg Er];
    rewrite Ho in Eo; try discriminate Eo; injection Eo as <-;
    rewrite Eg in Hg; subst answer.
  - reflexivity.
  - now rewrite Er.
Qed.

(** The first program of the publish path is the activation. *)
Lemma publish_starts_with_activation w a k d st1 lcl rem st2 :
  locate w a (initial_state w) = (Ok (k, d), st1) ->
  checksums w d st1 = (Ok (lcl, rem), st2) ->
  rem <> Some lcl ->
  exists res rest,
    spawns (snd (run w a)) = Spawn (activate_argv k) res :: rest.
Proof.
  intros H1 H2 Hne.
  destruct (before_decision_quiet _ _ _ _ _ _ _ H1 H2) as (Q & Hx & _).
  destruct (run_publish _ _ _ _ _ _ _ _ H1 H2 Hne) as (r & st3 & Hp & ->).
  cbn [snd]. destruct Hp as [r1 E1 Hr1 | r2 E1 E2 Hr2 | r3 E1 E2 E3].
  - rewrite at_exit_nil by exact Hx. cbn [st_trace].
    rewrite spawns_app, Q. cbn. eauto.
  - rewrite at_exit_hook by (cbn; now rewrite Hx). cbn [st_trace st_cwd].
    rewrite !spawns_app, Q. cbn. eauto.
  - rewrite at_exit_hook by (cbn; now rewrite Hx). cbn [st_trace st_cwd].
    rewrite !spawns_app, Q. cbn. eauto.
Qed.

(** X5.  What decides between SKIP and upload, in terms of the sidecar
    file and the answer of the endpoint: the run takes SKIP (it succeeds
    and starts no program) exactly when the status is from 200 to 299 and
    the body, stripped, is the first line of the sidecar file, stripped;
    in every other case the first program it starts is the activation of
    the service account. *)
Theorem decision_on_inputs w a k d st1 text status_code body :
  locate w a (initial_state w) = (Ok (k, d), st1) ->
  w_open w (st_trace st1) (sidecar_path st1 d) = Some text ->
  w_get w (asked st1 d (PyStr.strip (PyStr.first_line text))) (url_ova_sum d)
  = Response status_code body ->
  ((200 <= status_code <= 299)%Z
   /\ PyStr.strip body = PyStr.strip (PyStr.first_line text) ->
   fst (run w a) = Ok tt /\ spawns (snd (run w a)) = [])
  /\ (~ ((200 <= status_code <= 299)%Z
         /\ PyStr.strip body = PyStr.strip (PyStr.first_line text)) ->
      exists res rest,
        spawns (snd (run w a)) = Spawn (activate_argv k) res :: rest).
Proof.
  intros H1 Ho Hg.
  destruct (checksums_of_inputs _ _ _ _ _ Ho Hg) as (st2 & H2).
  cbn [remote_checksum] in H2. split.
  - intros [Hs Hb].
    replace ((status_code >=? 200) && (status_code <=? 299))%Z with true in H2
      by (symmetry; apply andb_true_intro; split; lia).
    rewrite Hb in H2. rewrite (run_skip _ _ _ _ _ _ _ H1 H2). cbn [fst snd].
    split; [reflexivity|].
    destruct (before_decision_quiet _ _ _ _ _ _ _ H1 H2) as (Q & _).
    now rewrite spawns_app, Q.
  - intros Hn.
    destruct ((status_code >=? 200) && (status_code <=? 299))%Z eqn:Es.
    + apply (publish_starts_with_activation _ _ _ _ _ _ _ _ H1 H2).
      intros [= Hb]. apply Hn. apply andb_prop in Es as [E1 E2].
      split; [lia | exact Hb].
    + apply (publish_starts_with_activation _ _ _ _ _ _ _ _ H1 H2).
      discriminate.
Qed.

Lemma decision_on_inputs_witness :
  (fst (run Demo.w_published Demo.cmdline) = Ok tt
   /\ spawns (snd (run Demo.w_published Demo.cmdline)) = [])
  /\ exists res rest,
      spawns (snd (run Demo.w_server_error Demo.cmdline))
      = Spawn (activate_argv "/home/u/key.json") res :: rest.
Proof.
  split.
  - refine (proj1 (decision_on_inputs Demo.w_published Demo.cmdline
                     "/home/u/key.json" Demo.d (Demo.located Demo.w_published)
                     Demo.sidecar_text 200%Z Demo.sidecar_text _ _ _) _).
    + vm_compute. reflexivity.
    + vm_compute. reflexivity.
    + vm_compute. reflexivity.
    + split; [lia | vm_compute; reflexivity].
  - refine (proj2 (decision_on_inputs Demo.w_server_error Demo.cmdline
                     "/home/u/key.json" Demo.d
                     (Demo.located Demo.w_server_error)
                     Demo.sidecar_text 500%Z "Internal Server Error" _ _ _) _).
    + vm_compute. reflexivity.
    + vm_compute. reflexivity.
    + vm_compute. reflexivity.
    + intros [Hs _]. lia.
Defined.

(** ** Lines *)

Module LineFacts.
Import PyStr PyStrFacts.

Lemma first_line_one_line s : one_line (first_line s) = true.
Proof.
  induction s as [|c s IH]; [reflexivity|]. cbn [first_line].
  destruct (Ascii.eqb c LF || Ascii.eqb c CR) eqn:E; [reflexivity|].
  cbn [one_line]. now rewrite E, IH.
Qed.

Lemma one_line_lstrip s : one_line s = true -> one_line (lstrip s) = true.
Proof.
  induction s as [|c s IH]; [auto|]. intros H. cbn [lstrip].
  destruct (isspace c); [|exact H].
  cbn [one_line] in H. apply andb_prop in H as [_ H]. auto.
Qed.

Lemma one_line_rstrip s : one_line s = true -> one_line (rstrip s) = true.
Proof.
  induction s as [|c s IH]; [auto|]. intros H. cbn [rstrip].
  destruct (all_space (String c s)); [reflexivity|].
  cbn [one_line] in H. apply andb_prop in H as [Hc H]. cbn [one_line].
  now rewrite Hc, IH.
Qed.

(** The local checksum never holds a line break. *)
Lemma local_checksum_one_line text :
  one_line (strip (first_line text)) = true.
Proof.
  unfold strip. apply one_line_rstrip, one_line_lstrip, first_line_one_line.
Qed.

Lemma first_line_append line rest :
  one_line line = true ->
  first_line (line ++ rest) = (line ++ first_line rest)%string.
Proof.
  induction line as [|c line IH]; [reflexivity|]. intros H.
  cbn [one_line] in H. apply andb_prop in H as [Hc H].
  apply negb_true_iff in Hc. cbn [append first_line]. rewrite Hc.
  now rewrite IH.
Qed.

Lemma all_space_first_line s : all_space s = true -> all_space (first_line s) = true.
Proof.
  induction s as [|c s IH]; [auto|]. intros H. cbn [all_space] in H.
  apply andb_prop in H as [Hc H]. cbn [first_line].
  destruct (Ascii.eqb c LF || Ascii.eqb c CR); [reflexivity|].
  cbn [all_space]. now rewrite Hc, IH.
Qed.

(** The local checksum of a file of one line, whatever blank space
    follows the line. *)
Lemma strip_first_line_append line rest :
  one_line line = true -> all_space rest = true ->
  strip (first_line (line ++ rest)) = strip line.
Proof.
  intros Hl Hr. rewrite first_line_append by exact Hl.
  apply strip_app_space. now apply all_space_first_line.
Qed.

End LineFacts.

(** X6.  Publishing is idempotent for a sidecar file of one line: if the
    file holds one line, followed by nothing but blank space, and the
    endpoint answers with status 200 to 299 and that line, followed by
    nothing but blank space (as when it serves a copy of the file), the
    run takes SKIP: it succeeds and starts no program. *)
Theorem one_line_sidecar_is_skipped w a k d st1 line rest rest' status_code :
  locate w a (initial_state w) = (Ok (k, d), st1) ->
  one_line line = true ->
  PyStr.all_space rest = true -> PyStr.all_space rest' = true ->
  w_open w (st_trace st1) (sidecar_path st1 d) = Some (line ++ rest)%string ->
  w_get w (asked st1 d (PyStr.strip line)) (url_ova_sum d)
  = Response status_code (line ++ rest')%string ->
  (200 <= status_code <= 299)%Z ->
  fst (run w a) = Ok tt /\ spawns (snd (run w a)) = [].
Proof.
  intros H1 Hl Hr Hr' Ho Hg Hs.
  rewrite <- (LineFacts.strip_first_line_append line rest Hl Hr) in Hg.
  destruct (checksums_of_inputs _ _ _ _ _ Ho Hg) as (st2 & H2).
  cbn [remote_checksum] in H2.
  replace ((status_code >=? 200) && (status_code <=? 299))%Z with true in H2
    by (symmetry; apply andb_true_intro; split; lia).
  rewrite (PyStrFacts.strip_app_space line rest' Hr') in H2.
  rewrite (LineFacts.strip_first_line_append line rest Hl Hr) in H2.
  rewrite (run_skip _ _ _ _ _ _ _ H1 H2). cbn [fst snd].
  split; [reflexivity|].
  destruct (before_decision_quiet _ _ _ _ _ _ _ H1 H2) as (Q & _).
  now rewrite spawns_app, Q.
Qed.

Lemma one_line_sidecar_is_skipped_witness :
  fst (run Demo.w_published Demo.cmdline) = Ok tt
  /\ spawns (snd (run Demo.w_published Demo.cmdline)) = [].
Proof.
  apply (one_line_sidecar_is_skipped Demo.w_published Demo.cmdline
           "/home/u/key.json" Demo.d (Demo.located Demo.w_published)
           "abc123  centos.ova" (String PyStr.LF "") (String PyStr.LF "")
           200%Z); try (vm_compute; reflexivity).
  lia.
Defined.

(** X7.  The local checksum is a single line, the remote one need not be:
    whenever the body of an answer, stripped, still holds a line break,
    the run does not take SKIP, whatever the sidecar file holds; the first
    program it starts is the activation of the service account. *)
Theorem remote_of_several_lines_is_uploaded w a k d st1 text status_code body :
  locate w a (initial_state w) = (Ok (k, d), st1) ->
  w_open w (st_trace st1) (sidecar_path st1 d) = Some text ->
  w_get w (asked st1 d (PyStr.strip (PyStr.first_line text))) (url_ova_sum d)
  = Response status_code body ->
  one_line (PyStr.strip body) = false ->
  exists res rest,
    spawns (snd (run w a)) = Spawn (activate_argv k) res :: rest.
Proof.
  intros H1 Ho Hg Hb.
  destruct (checksums_of_inputs _ _ _ _ _ Ho Hg) as (st2 & H2).
  cbn [remote_checksum] in H2.
  destruct ((status_code >=? 200) && (status_code <=? 299))%Z.
  - apply (publish_starts_with_activation _ _ _ _ _ _ _ _ H1 H2).
    intros [= E]. rewrite E, LineFacts.local_checksum_one_line in Hb.
    discriminate Hb.
  - apply (publish_starts_with_activation _ _ _ _ _ _ _ _ H1 H2). discriminate.
Qed.

Lemma remote_of_several_lines_is_uploaded_witness :
  exists res rest,
    spawns (snd (run Startup.w_two_lines Demo.cmdline))
    = Spawn (activate_argv "/home/u/key.json") res :: rest.
Proof.
  apply (remote_of_several_lines_is_uploaded Startup.w_two_lines Demo.cmdline
           "/home/u/key.json" Demo.d (Demo.located Startup.w_two_lines)
           Demo.sidecar_text 200%Z
           ("abc123  centos.ova" ++ String PyStr.LF "x")%string);
    vm_compute; reflexivity.
Defined.

(** ** Absolute paths *)

Module OsPathFacts.
Import OsPath.

Lemma isabs_cons p : isabs p = true -> exists q, p = String "/" q.
Proof.
  unfold isabs, PyStr.startswith. destruct p as [|c q]; cbn [String.prefix].
  - discriminate.
  - destruct (ascii_dec "/" c) as [<-|]; [eauto | discriminate].
Qed.

Lemma isabs_slash q : isabs (String "/" q) = true.
Proof.
  unfold isabs, PyStr.startswith. cbn [String.prefix].
  destruct (ascii_dec "/" "/"); [now destruct q | contradiction].
Qed.

Lemma isabs_normpath p : isabs p = true -> isabs (normpath p) = true.
Proof.
  intros H. destruct (isabs_cons p H) as (q & ->). unfold normpath.
  change (String "/" q =? "")%string with false. cbv zeta.
  assert (I : initial_slashes (String "/" q) = 1
              \/ initial_slashes (String "/" q) = 2).
  { unfold initial_slashes. unfold isabs in H. rewrite H.
    destruct (_ && _); auto. }
  destruct I as [-> | ->]; cbn [append String.eqb]; apply isabs_slash.
Qed.

Lemma isabs_join cwd p : isabs cwd = true -> isabs (join cwd p) = true.
Proof.
  intros H. unfold join. destruct (PyStr.startswith p "/") eqn:Hp; [exact Hp|].
  destruct (isabs_cons cwd H) as (q & ->).
  destruct (_ || _); cbn [append]; apply isabs_slash.
Qed.

(** From an absolute working directory every path is made absolute. *)
Lemma isabs_abspath cwd p : isabs cwd = true -> isabs (abspath cwd p) = true.
Proof.
  intros H. unfold abspath. apply isabs_normpath.
  destruct (isabs p) eqn:Hp; [exact Hp | now apply isabs_join].
Qed.

End OsPathFacts.

(** The key file of an activation is the one [locate] has resolved. *)
Lemma activation_key w a r tr k res :
  run w a = (r, tr) ->
  In (Spawn (activate_argv k) res) tr ->
  exists d st1, locate w a (initial_state w) = (Ok (k, d), st1).
Proof.
  intros Hrun Hin. apply run_cases in Hrun.
  destruct Hrun as [e st1 H1 | k0 d st1 e st2 H1 H2 | k0 d st1 lcl st2 H1 H2
                   | k0 d st1 lcl rem st2 r st3 H1 H2 Hne Hp].
  - apply locate_quiet in H1 as (_ & t & E & Q). cbn in E. subst t.
    exfalso. exact (quiet_no_spawn _ _ _ Q Hin).
  - destruct (before_decision_quiet _ _ _ _ _ _ _ H1 H2) as (Q & _).
    exfalso. exact (quiet_no_spawn _ _ _ Q Hin).
  - destruct (before_decision_quiet _ _ _ _ _ _ _ H1 H2) as (Q & _).
    assert (Q' : spawns (st_trace st2 ++ skip_report d) = [])
      by now rewrite spawns_app, Q.
    exfalso. exact (quiet_no_spawn _ _ _ Q' Hin).
  - destruct (before_decision_quiet _ _ _ _ _ _ _ H1 H2) as (Q & Hx & _).
    assert (Hk : k = k0).
    { destruct Hp as [r1 E1 Hr1 | r2 E1 E2 Hr2 | r3 E1 E2 E3].
      - rewrite at_exit_nil in Hin by exact Hx. cbn [st_trace] in Hin.
        argv_unfold. members Q Hin. now injection Hin as ->.
      - rewrite at_exit_hook in Hin by (cbn; now rewrite Hx).
        cbn [st_trace st_cwd] in Hin. rewrite <- app_assoc in Hin.
        cbn [app] in Hin. argv_unfold. members Q Hin. now injection Hin as ->.
      - rewrite at_exit_hook in Hin by (cbn; now rewrite Hx).
        cbn [st_trace st_cwd] in Hin.
        destruct (checked (checksum_copy_argv d) r3) as [[]|e];
          rewrite <- ?app_assoc in Hin; cbn [app] in Hin;
          argv_unfold; members Q Hin; now injection Hin as ->. }
    subst k0. eauto.
Qed.

(** X8.  The programs are started in the build directory, which is why
    the key file must not be relative: when the tool is started in an
    absolute working directory (as [os.getcwd] always gives one), the key
    file handed to [gcloud] is an absolute path, whatever was given on
    the command line. *)
Theorem key_file_is_absolute w a r tr k res :
  OsPath.isabs (w_cwd w) = true ->
  run w a = (r, tr) ->
  In (Spawn (activate_argv k) res) tr ->
  OsPath.isabs k = true.
Proof.
  intros Hcwd Hrun Hin.
  destruct (activation_key _ _ _ _ _ _ Hrun Hin) as (d & st1 & H1).
  destruct (locate_ok _ _ _ _ _ _ H1) as (p & _ & _ & _ & _ & _ & -> & _).
  now apply OsPathFacts.isabs_abspath.
Qed.

Lemma key_file_is_absolute_witness :
  OsPath.isabs "/home/u/key.json" = true.
Proof.
  apply (key_file_is_absolute Demo.w_first Demo.cmdline
           (fst (run Demo.w_first Demo.cmdline))
           (snd (run Demo.w_first Demo.cmdline))
           "/home/u/key.json" (Exited 0)).
  - reflexivity.
  - vm_compute. reflexivity.
  - vm_compute. repeat (first [left; reflexivity | right]).
Defined.

(** X9.  What the script files under [release]: exactly the versions made
    of an optional [v], a number, a dot, a number, a dot, one digit, then
    optionally a dash and a number, and at the very end optionally a line
    feed.  Every other version is filed under [ci]; there is no third
    directory. *)
Theorem classify_release_iff v :
  (classify v = "release" <-> script_release_shape v)
  /\ (classify v = "ci" <-> ~ script_release_shape v)
  /\ forall name,
      upload_dir (Resolve name v) = "release"
      \/ upload_dir (Resolve name v) = "ci".
Proof.
  pose proof (ShapeFacts.release_pattern_shape v) as S.
  cbn [Resolve upload_dir]. unfold classify.
  destruct (Re.match_ release_pattern v).
  - assert (Hs : script_release_shape v) by now apply S.
    split; [|split].
    + split; auto.
    + split; [discriminate | contradiction].
    + auto.
  - assert (Hs : ~ script_release_shape v)
      by (intros Hs; apply S in Hs; discriminate Hs).
    split; [|split].
    + split; [discriminate | contradiction].
    + split; auto.
    + auto.
Qed.

(* ================================================================== *)
(** ** The build target and its helpers *)

Module GoBuildFacts.
Import GoBuild GoBuildSpec.

(** *** Dictionaries *)

Lemma dict_get_set_same d k v : dict_get (dict_set d k v) k = Some v.
Proof.
  induction d as [|[k' v'] d IH]; cbn [dict_set dict_get].
  - now rewrite String.eqb_refl.
  - destruct (k' =? k)%string eqn:E; cbn [dict_get]; rewrite E;
      [reflexivity | exact IH].
Qed.

Lemma dict_get_set_other d k v k' :
  k' <> k -> dict_get (dict_set d k v) k' = dict_get d k'.
Proof.
  intros N. induction d as [|[k0 v0] d IH]; cbn [dict_set dict_get].
  - destruct (String.eqb_spec k k'); [congruence | reflexivity].
  - destruct (String.eqb_spec k0 k) as [->|N0]; cbn [dict_get].
    + destruct (String.eqb_spec k k'); [congruence | reflexivity].
    + destruct (k0 =? k')%string; [reflexivity | exact IH].
Qed.

(** *** Slices and base names *)

Lemma slice_to_from i p : p = (slice_to i p ++ slice_from i p)%string.
Proof.
  revert p. induction i as [|i IH]; intros [|c p]; cbn; try reflexivity.
  now rewrite <- IH.
Qed.

Lemma all_app p s t : all p (s ++ t)%string = all p s && all p t.
Proof.
  induction s as [|c s IH]; cbn [all append]; [reflexivity|].
  now rewrite IH, andb_assoc.
Qed.

(** Without a slash the whole path is its base name. *)
Lemma rfind_zero p : rfind_slash_plus_1 p = 0 -> no_slash p.
Proof.
  unfold no_slash. induction p as [|c p IH]; cbn [rfind_slash_plus_1 all];
    [reflexivity|].
  destruct (rfind_slash_plus_1 p); [|discriminate].
  destruct (Ascii.eqb c "/"); [discriminate|]. intros _. now rewrite IH.
Qed.

Lemma basename_no_slash p : no_slash (basename p).
Proof.
  unfold basename. induction p as [|c p IH]; cbn [rfind_slash_plus_1];
    [reflexivity|].
  destruct (rfind_slash_plus_1 p) as [|n] eqn:E.
  - destruct (Ascii.eqb c "/") eqn:Ec; cbn [slice_from].
    + exact IH.
    + unfold no_slash. cbn [all]. rewrite Ec. cbn [negb andb].
      now apply rfind_zero.
  - cbn [slice_from]. exact IH.
Qed.

(** What comes before the base name is empty or ends in a slash. *)
Lemma dirname_slash p :
  let dir := slice_to (rfind_slash_plus_1 p) p in
  dir = "" \/ exists d, dir = (d ++ "/")%string.
Proof.
  cbn zeta. induction p as [|c p IH]; cbn [rfind_slash_plus_1];
    [now left|].
  destruct (rfind_slash_plus_1 p) as [|n] eqn:E.
  - destruct (Ascii.eqb_spec c "/") as [->|N]; cbn [slice_to].
    + right. now exists "".
    + now left.
  - cbn [slice_to]. right. destruct IH as [H | (d & H)].
    + destruct p; [discriminate E | discriminate H].
    + exists (String c d). cbn [append]. now rewrite <- H.
Qed.

Lemma rfind_ends_in_slash d :
  rfind_slash_plus_1 (d ++ "/") = S (String.length d).
Proof.
  induction d as [|c d IH]; [reflexivity|].
  cbn [append rfind_slash_plus_1 String.length]. now rewrite IH.
Qed.

Lemma basename_ends_in_slash d : basename (d ++ "/") = "".
Proof.
  unfold basename. rewrite rfind_ends_in_slash.
  induction d as [|c d IH]; [reflexivity | exact IH].
Qed.

End GoBuildFacts.

Import GoBuild GoBuildSpec GoBuildFacts.

(** X10.  The log of a directory command.  When [MkdirCommand] returns a
    command, a log name that was given and is not empty is kept as it is;
    without one the log is ["mkdir-" ++ b ++ ".log"], where [b] is what
    follows the last slash of the path: the path is [dir ++ b] with [dir]
    empty or ending in a slash, and there is no slash in [b], so the log
    names a file and no directory.  For a path that ends in a slash the
    log is ["mkdir-.log"]. *)
Theorem MkdirCommand_log environ hosttype path root logfile c :
  MkdirCommand environ hosttype path root logfile = Returns c ->
  (forall name, logfile = Some name -> name <> ""%string -> log c = name)
  /\ (not_given logfile = true ->
      log c = ("mkdir-" ++ basename path ++ ".log")%string
      /\ no_slash (log c)
      /\ (exists dir,
            path = (dir ++ basename path)%string
            /\ (dir = ""%string \/ exists d, dir = (d ++ "/")%string))
      /\ (forall d, path = (d ++ "/")%string -> log c = "mkdir-.log"%string)).
Proof.
  unfold MkdirCommand. intros H.
  assert (Hlog : log c =
                 if not_given logfile
                 then ("mkdir-" ++ basename path ++ ".log")%string
                 else match logfile with Some s => s | None => ""%string end).
  { destruct (PyStr.startswith hosttype "linux");
      [|destruct (PyStr.startswith hosttype "macosx");
        [|destruct (PyStr.startswith hosttype "windows")]];
      try discriminate H; injection H as <-; reflexivity. }
  clear H. split.
  - intros name -> N. rewrite Hlog. cbn [not_given].
    destruct (String.eqb_spec name ""); [contradiction | reflexivity].
  - intros Hnot. rewrite Hnot in Hlog. rewrite Hlog. split; [reflexivity|].
    split; [|split].
    + unfold no_slash. change ("mkdir-" ++ basename path ++ ".log")%string
        with ("mkdir-" ++ (basename path ++ ".log"))%string.
      rewrite !all_app, (basename_no_slash path). reflexivity.
    + exists (slice_to (rfind_slash_plus_1 path) path). split.
      * apply slice_to_from.
      * apply dirname_slash.
    + intros d ->. now rewrite basename_ends_in_slash.
Qed.

Lemma MkdirCommand_log_witness :
  exists c,
    MkdirCommand [] "linux-centos64" "/build/out/" "" (Some ""%string)
    = Returns c
    /\ log c = "mkdir-.log"%string.
Proof.
  eexists. split; [reflexivity|].
  refine (proj2 (proj2 (proj2 (proj2
    (MkdirCommand_log [] "linux-centos64" "/build/out/" "" (Some ""%string)
                      _ eq_refl) eq_refl))) "/build/out" eq_refl).
Defined.

(** X11.  The host types of a directory command.  [MkdirCommand] returns
    a command exactly for a host type that starts with [linux], [macosx]
    or [windows]: the command line is a program, [-p] and the path, the
    root is the one given and the environment is empty.  For any other
    host type it raises [TargetException] with the message
    ["Unknown hosttype "] and the host type, whatever the other
    arguments are.  Unless the host type starts with [windows] the
    environment of the process makes no difference. *)
Theorem MkdirCommand_host_types environ hosttype path root logfile :
  (known_host hosttype = true ->
   exists mkdir lg,
     MkdirCommand environ hosttype path root logfile
     = Returns (mkCommand ("Creating directory " ++ path)%string root lg
                          (mkdir ++ " -p " ++ path)%string []))
  /\ (known_host hosttype = false ->
      MkdirCommand environ hosttype path root logfile
      = Raises (TargetException ("Unknown hosttype " ++ hosttype)%string))
  /\ (PyStr.startswith hosttype "windows" = false ->
      forall environ',
        MkdirCommand environ' hosttype path root logfile
        = MkdirCommand environ hosttype path root logfile).
Proof.
  unfold known_host, MkdirCommand.
  destruct (PyStr.startswith hosttype "linux");
    [|destruct (PyStr.startswith hosttype "macosx");
      [|destruct (PyStr.startswith hosttype "windows")]];
    cbn [orb]; (split; [|split]); intros H; try discriminate H;
    eauto.
Qed.

Lemma MkdirCommand_host_types_witness :
  (exists mkdir lg,
     MkdirCommand [("TCROOT", "D:/tc")%string] "windows-2008" "out/bin" "r"
                  None
     = Returns (mkCommand "Creating directory out/bin" "r" lg
                          (mkdir ++ " -p out/bin")%string []))
  /\ MkdirCommand [] "solaris" "out/bin" "r" None
     = Raises (TargetException "Unknown hosttype solaris")
  /\ MkdirCommand [("TCROOT", "D:/tc")%string] "macosx-10" "out/bin" "r" None
     = MkdirCommand [] "macosx-10" "out/bin" "r" None.
Proof.
  split; [|split].
  - exact (proj1 (MkdirCommand_host_types
                    [("TCROOT", "D:/tc")%string] "windows-2008" "out/bin" "r"
                    None) eq_refl).
  - exact (proj1 (proj2 (MkdirCommand_host_types
                           [] "solaris" "out/bin" "r" None)) eq_refl).
  - exact (proj2 (proj2 (MkdirCommand_host_types
                           [] "macosx-10" "out/bin" "r" None)) eq_refl
                 [("TCROOT", "D:/tc")%string]).
Defined.

(** X12.  The environment of the build commands.  When [_GetEnvironment]
    returns, the environment it started from had a [PATH], and in the
    result [PATH] is, joined by colons: the directories of the tool
    chain, the system directories, the directories of the tool chain once
    more, those of git and rsync, and last the [PATH] it started from.
    [PYTHONPATH] is the three package directories, whatever it was
    before, and every other variable is as it was. *)
Theorem GetEnvironment_result SafeEnvironment hosttype env' :
  _GetEnvironment SafeEnvironment hosttype = Returns env' ->
  exists old,
    dict_get (SafeEnvironment hosttype) "PATH" = Some old
    /\ dict_get env' "PATH"
       = Some (PyStr.join pathsep
                 (toolchain ++ system_dirs ++ toolchain ++ more_tools
                  ++ [old]))
    /\ dict_get env' "PYTHONPATH" = Some (PyStr.join pathsep python_path)
    /\ forall key,
         key <> "PATH"%string -> key <> "PYTHONPATH"%string ->
         dict_get env' key = dict_get (SafeEnvironment hosttype) key.
Proof.
  unfold _GetEnvironment.
  destruct (PyStr.startswith hosttype "linux"); cbn [negb]; [|discriminate].
  destruct (dict_get (SafeEnvironment hosttype) "PATH") as [old|] eqn:E;
    [|discriminate].
  rewrite dict_get_set_same. intros [= <-]. exists old.
  split; [reflexivity|]. split; [|split].
  - rewrite dict_get_set_other by discriminate.
    rewrite dict_get_set_same. reflexivity.
  - rewrite dict_get_set_same. reflexivity.
  - intros key N1 N2. now rewrite !dict_get_set_other by congruence.
Qed.

Lemma GetEnvironment_result_witness :
  exists env',
    _GetEnvironment
      (fun _ => [("HOME", "/root"); ("PATH", "/opt/bin");
                 ("PYTHONPATH", "/x")]%string)
      "linux-centos64"
    = Returns env'
    /\ dict_get env' "HOME" = Some "/root"%string
    /\ dict_get env' "PYTHONPATH" = Some (PyStr.join pathsep python_path).
Proof.
  eexists. split; [reflexivity|].
  destruct (GetEnvironment_result
              (fun _ => [("HOME", "/root"); ("PATH", "/opt/bin");
                         ("PYTHONPATH", "/x")]%string)
              "linux-centos64" _ eq_refl) as (old & _ & _ & Hpy & Hother).
  split; [|exact Hpy].
  rewrite (Hother "HOME"%string) by discriminate. reflexivity.
Defined.

(** X13.  When there is no environment for the build commands.
    [_GetEnvironment] fails an assertion exactly for a host type that
    does not start with [linux], raises [KeyError] for [PATH] exactly
    when the host type does and the environment it starts from has no
    [PATH], and returns in every other case; it raises nothing else. *)
Theorem GetEnvironment_failures SafeEnvironment hosttype :
  (_GetEnvironment SafeEnvironment hosttype = Raises AssertionError
   <-> PyStr.startswith hosttype "linux" = false)
  /\ (_GetEnvironment SafeEnvironment hosttype = Raises (KeyError "PATH")
      <-> PyStr.startswith hosttype "linux" = true
          /\ dict_get (SafeEnvironment hosttype) "PATH" = None)
  /\ ((exists env', _GetEnvironment SafeEnvironment hosttype = Returns env')
      <-> PyStr.startswith hosttype "linux" = true
          /\ exists old,
               dict_get (SafeEnvironment hosttype) "PATH" = Some old)
  /\ forall e,
        _GetEnvironment SafeEnvironment hosttype = Raises e ->
        e = AssertionError \/ e = KeyError "PATH".
Proof.
  unfold _GetEnvironment.
  destruct (PyStr.startswith hosttype "linux"); cbn [negb].
  - destruct (dict_get (SafeEnvironment hosttype) "PATH") as [old|] eqn:E.
    + rewrite dict_get_set_same. repeat split; try discriminate; eauto.
      all: try (intros [_ H]; discriminate H).
    + repeat split; try discriminate; eauto.
      all: try (intros [H _]; discriminate H).
      all: try (intros [_ [? H]]; discriminate H).
      all: try (intros [? H]; discriminate H).
      all: try (intros e [= <-]; now right).
      all: try match goal with
               | H : exists _, _ |- _ => destruct H as [? H]; discriminate H
               end.
  - repeat split; try discriminate; eauto.
    all: try (intros [H _]; discriminate H).
    all: try (intros [? H]; discriminate H).
    all: try (intros e [= <-]; now left).
    all: try match goal with
             | H : exists _, _ |- _ => destruct H as [? H]; discriminate H
             end.
Qed.

(** *** The pattern of [ExtractMacro] *)

Module RxFacts.
Import GoBuild GoBuildSpec GoBuildFacts RxSpec.

Lemma many_spec (step : rx_cursor -> list rx_cursor)
      (R : rx_cursor -> rx_cursor -> Prop) :
  (forall c c', In c' (step c) <-> R c c') ->
  forall fuel c c',
    String.length (rest c) <= fuel ->
    (In c' (many step fuel c) <-> iter R c c').
Proof.
  intros Hstep fuel. induction fuel as [|fuel IH]; intros c c' Hfuel.
  - cbn [many]. split.
    + intros [<-|[]]. apply iter_stop.
    + intros Hit. destruct Hit as [c | c c1 c2 _ Hlt _]; [now left | lia].
  - cbn [many]. rewrite in_app_iff, in_flat_map. split.
    + intros [(c1 & Hin1 & Hin) | [<-|[]]]; [|apply iter_stop].
      apply Hstep in Hin1.
      destruct (String.length (rest c1) <? String.length (rest c))%nat eqn:Hlt;
        [|contradiction].
      apply Nat.ltb_lt in Hlt. apply IH in Hin; [|lia].
      now apply iter_more with c1.
    + intros Hit. destruct Hit as [c | c c1 c2 H Hlt Hit].
      * right. now left.
      * left. exists c1. split; [now apply Hstep|].
        apply Nat.ltb_lt in Hlt as Hlt'. rewrite Hlt'.
        apply IH; [lia | exact Hit].
Qed.

(** The matcher finds exactly the matches. *)
Theorem rx_exec_spec r : forall c c', In c' (rx_exec r c) <-> rx_matches r c c'.
Proof.
  induction r as [| | |p|r1 IH1 r2 IH2|r IH|r IH|r IH]; intros c c';
    cbn [rx_exec rx_matches].
  - cbn. intuition congruence.
  - destruct (consumed c =? 0)%nat eqn:E.
    + apply Nat.eqb_eq in E. cbn. intuition congruence.
    + apply Nat.eqb_neq in E. cbn. intuition congruence.
  - destruct (rest c) as [|a [|b s]] eqn:E.
    + cbn. intuition congruence.
    + destruct (Ascii.eqb_spec a PyStr.LF) as [->|N]; cbn.
      * intuition congruence.
      * split; [contradiction|].
        intros [[H|H] _]; [discriminate H | injection H as H; contradiction].
    + cbn. split; [contradiction|]. intros [[H|H] _]; discriminate.
  - destruct (rest c) as [|b s] eqn:E.
    + cbn. split; [contradiction|]. intros (b' & s' & H & _). discriminate.
    + destruct (p b) eqn:Hb; cbn.
      * split.
        -- intros [<-|[]]. eauto.
        -- intros (b' & s' & [= -> ->] & _ & ->). now left.
      * split; [contradiction|]. intros (b' & s' & [= -> ->] & H & _).
        congruence.
  - rewrite in_flat_map. split.
    + intros (c1 & H1 & H2). exists c1. split; [now apply IH1 | now apply IH2].
    + intros (c1 & H1 & H2). exists c1. split; [now apply IH1 | now apply IH2].
  - apply many_spec; [exact IH | lia].
  - rewrite in_flat_map. split.
    + intros (c1 & H1 & H2). exists c1. split; [now apply IH|].
      eapply many_spec; [exact IH | | exact H2]. lia.
    + intros (c1 & H1 & H2). exists c1. split; [now apply IH|].
      eapply many_spec; [exact IH | lia | exact H2].
  - rewrite in_map_iff. split.
    + intros (c1 & <- & H). exists c1. split; [now apply IH | reflexivity].
    + intros (c1 & H & ->). exists c1. split; [reflexivity | now apply IH].
Qed.

Lemma cursor_eq c c' :
  consumed c = consumed c' -> rest c = rest c' -> group1 c = group1 c' ->
  c = c'.
Proof. destruct c, c'. cbn. now intros -> -> ->. Qed.

Lemma span_nil c c' : span c "" c' <-> c' = c.
Proof.
  unfold span. cbn [append String.length]. split.
  - intros (H1 & H2 & H3). apply cursor_eq; [lia | congruence | congruence].
  - intros ->. repeat split. lia.
Qed.

Lemma span_app c t c1 u c' :
  span c t c1 -> span c1 u c' -> span c (t ++ u) c'.
Proof.
  unfold span. intros (H1 & H2 & H3) (H1' & H2' & H3').
  rewrite length_append, append_assoc. 
  repeat split; [congruence | lia | congruence].
Qed.

Lemma span_after c t s : rest c = (t ++ s)%string -> span c t (after c t s).
Proof. intros H. unfold span, after. cbn. auto. Qed.

Lemma span_is_after c t c' : span c t c' -> c' = after c t (rest c').
Proof.
  intros (H1 & H2 & H3). apply cursor_eq; cbn; congruence.
Qed.

Lemma chr_spec p c c' :
  rx_matches (Chr p) c c' <-> exists b, p b = true /\ span c (String b "") c'.
Proof.
  cbn [rx_matches]. split.
  - intros (b & s & H & Hb & ->). exists b. split; [exact Hb|].
    unfold span. cbn. repeat split; [exact H | lia].
  - intros (b & Hb & H1 & H2 & H3). exists b, (rest c'). cbn in H1, H2.
    repeat split; [exact H1 | exact Hb |].
    apply cursor_eq; cbn; [lia | reflexivity | exact H3].
Qed.

Lemma lit_spec a c c' : rx_matches (lit a) c c' <-> span c (String a "") c'.
Proof.
  unfold lit. rewrite chr_spec. split.
  - intros (b & Hb & H). apply Ascii.eqb_eq in Hb. now subst b.
  - intros H. exists a. split; [apply Ascii.eqb_refl | exact H].
Qed.

Lemma literal_spec s : forall c c', rx_matches (literal s) c c' <-> span c s c'.
Proof.
  induction s as [|a s IH]; intros c c'; cbn [literal rx_matches].
  - now rewrite span_nil.
  - split.
    + intros (c1 & H1 & H2). apply lit_spec in H1. apply IH in H2.
      exact (span_app _ _ _ _ _ H1 H2).
    + intros (H1 & H2 & H3). cbn [append String.length] in H1, H2.
      exists (after c (String a "") (s ++ rest c')). split.
      * apply lit_spec, span_after. exact H1.
      * apply IH. unfold span, after. cbn. repeat split; [lia | exact H3].
Qed.

Lemma star_spec p : forall c c',
  rx_matches (Star (Chr p)) c c' <-> exists t, all p t = true /\ span c t c'.
Proof.
  intros c c'. cbn [rx_matches]. split.
  - intros Hit. induction Hit as [c | c c1 c2 H Hlt Hit IH].
    + exists ""%string. split; [reflexivity | now apply span_nil].
    + destruct IH as (t & Ht & Hs).
      change (rx_matches (Chr p) c c1) in H. apply chr_spec in H.
      destruct H as (b & Hb & H). exists (String b t). split.
      * cbn [all]. now rewrite Hb, Ht.
      * exact (span_app _ _ _ _ _ H Hs).
  - intros (t & Ht & Hs). revert c Hs.
    induction t as [|b t IH]; intros c Hs.
    + apply span_nil in Hs. subst c'. apply iter_stop.
    + cbn [all] in Ht. apply andb_prop in Ht as [Hb Ht].
      destruct Hs as (H1 & H2 & H3). cbn [append String.length] in H1, H2.
      apply iter_more with (after c (String b "") (t ++ rest c')).
      * change (rx_matches (Chr p) c (after c (String b "") (t ++ rest c'))).
        apply chr_spec. exists b. split; [exact Hb|].
        apply span_after. exact H1.
      * rewrite H1. cbn. lia.
      * apply IH; [exact Ht|]. unfold span, after. cbn.
        repeat split; [lia | exact H3].
Qed.

Lemma plus_spec p c c' :
  rx_matches (Plus (Chr p)) c c'
  <-> exists t, t <> ""%string /\ all p t = true /\ span c t c'.
Proof.
  change (rx_matches (Plus (Chr p)) c c')
    with (exists c1, rx_matches (Chr p) c c1 /\ rx_matches (Star (Chr p)) c1 c').
  split.
  - intros (c1 & H1 & H2). apply chr_spec in H1 as (b & Hb & H1).
    apply star_spec in H2 as (t & Ht & H2). exists (String b t).
    split; [discriminate|]. split.
    + cbn [all]. now rewrite Hb, Ht.
    + exact (span_app _ _ _ _ _ H1 H2).
  - intros (t & N & Ht & H1 & H2 & H3). destruct t as [|b t]; [congruence|].
    cbn [all] in Ht. apply andb_prop in Ht as [Hb Ht].
    cbn [append String.length] in H1, H2.
    exists (after c (String b "") (t ++ rest c')). split.
    + apply chr_spec. exists b. split; [exact Hb|]. apply span_after. exact H1.
    + apply star_spec. exists t. split; [exact Ht|].
      unfold span, after. cbn. repeat split; [lia | exact H3].
Qed.

Lemma denotes_lit a : denotes (lit a) (fun t => t = String a "").
Proof.
  intros c c'. rewrite lit_spec. split.
  - intros H. eauto.
  - now intros (t & -> & H).
Qed.

Lemma denotes_literal s : denotes (literal s) (fun t => t = s).
Proof.
  intros c c'. rewrite literal_spec. split.
  - intros H. eauto.
  - now intros (t & -> & H).
Qed.

Lemma denotes_star p : denotes (Star (Chr p)) (fun t => all p t = true).
Proof. intros c c'. apply star_spec. Qed.

Lemma denotes_plus p :
  denotes (Plus (Chr p)) (fun t => all p t = true /\ t <> ""%string).
Proof.
  intros c c'. rewrite plus_spec. split; intros (t & H); exists t; tauto.
Qed.

(** One step along a sequence. *)
Lemma seq_step r1 P1 r2 c c' :
  denotes r1 P1 ->
  (rx_matches (Seq r1 r2) c c'
   <-> exists t s,
         P1 t /\ rest c = (t ++ s)%string /\ rx_matches r2 (after c t s) c').
Proof.
  intros D. cbn [rx_matches]. split.
  - intros (c1 & H1 & H2). apply D in H1 as (t & Pt & Hs).
    exists t, (rest c1). split; [exact Pt|]. split; [apply Hs|].
    now rewrite <- (span_is_after _ _ _ Hs).
  - intros (t & s & Pt & Hr & H2). exists (after c t s). split; [|exact H2].
    apply D. exists t. split; [exact Pt | now apply span_after].
Qed.

Lemma denotes_seq r1 P1 r2 P2 :
  denotes r1 P1 -> denotes r2 P2 ->
  denotes (Seq r1 r2)
          (fun t => exists t1 t2, t = (t1 ++ t2)%string /\ P1 t1 /\ P2 t2).
Proof.
  intros D1 D2 c c'. rewrite (seq_step _ _ _ _ _ D1). split.
  - intros (t1 & s & P1t & Hr & H2). apply D2 in H2 as (t2 & P2t & Hs).
    exists (t1 ++ t2)%string. split; [eauto|].
    exact (span_app _ _ _ _ _ (span_after _ _ _ Hr) Hs).
  - intros (t & (t1 & t2 & -> & P1t & P2t) & H1 & H2 & H3).
    exists t1, (t2 ++ rest c')%string. split; [exact P1t|].
    split; [now rewrite <- append_assoc|].
    apply D2. exists t2. split; [exact P2t|].
    unfold span, after. cbn. rewrite length_append in H2.
    repeat split; [lia | exact H3].
Qed.

Lemma slice_to_length v s : slice_to (String.length v) (v ++ s) = v.
Proof. induction v as [|a v IH]; [now destruct s | cbn; now rewrite IH]. Qed.

(** The group of the pattern. *)
Lemma denotes_version :
  denotes (Seq (Plus (Chr dot)) (Seq (lit ".")
          (Seq (Plus (Chr dot)) (Seq (lit ".") (Plus (Chr dot))))))
          version_text.
Proof.
  intros c c'.
  rewrite (denotes_seq _ _ _ _ (denotes_plus dot)
             (denotes_seq _ _ _ _ (denotes_lit ".")
                (denotes_seq _ _ _ _ (denotes_plus dot)
                   (denotes_seq _ _ _ _ (denotes_lit ".")
                      (denotes_plus dot)))) c c').
  split; intros (v & Hv & Hs); exists v; (split; [|exact Hs]).
  - destruct Hv as (x & ? & -> & [Hx Nx] & d1 & ? & -> & -> & y & ? & ->
                    & [Hy Ny] & d2 & z & -> & -> & [Hz Nz]).
    exists x, y, z. unfold on_line. auto 10.
  - destruct Hv as (x & y & z & -> & Nx & Ny & Nz & Hx & Hy & Hz).
    exists x, ("." ++ y ++ "." ++ z)%string. repeat split; auto.
    exists "."%string, (y ++ "." ++ z)%string. repeat split; auto.
    exists y, ("." ++ z)%string. repeat split; auto.
    exists "."%string, z. repeat split; auto.
Qed.

Lemma group_step r P r2 c c' :
  denotes r P ->
  (rx_matches (Seq (Group r) r2) c c'
   <-> exists v s,
         P v /\ rest c = (v ++ s)%string
         /\ rx_matches r2 (mkCursor (consumed c + String.length v) s (Some v))
                       c').
Proof.
  intros D. cbn [rx_matches]. split.
  - intros (c2 & (c1 & H1 & ->) & H2). apply D in H1 as (v & Pv & H1 & H2' & H3).
    exists v, (rest c1). split; [exact Pv|]. split; [exact H1|].
    rewrite H2', H1 in H2.
    replace (consumed c + String.length v - consumed c)
      with (String.length v) in H2 by lia.
    now rewrite slice_to_length in H2.
  - intros (v & s & Pv & Hr & H2).
    exists (mkCursor (consumed c + String.length v) s (Some v)).
    split; [|exact H2].
    exists (after c v s). split.
    + apply D. exists v. split; [exact Pv | now apply span_after].
    + unfold after. cbn [consumed rest]. rewrite Hr.
      replace (consumed c + String.length v - consumed c)
        with (String.length v) by lia.
      now rewrite slice_to_length.
Qed.

Lemma blanks_app s t : blanks s -> blanks t -> blanks (s ++ t).
Proof. unfold blanks. intros Hs Ht. now rewrite all_app, Hs, Ht. Qed.

Ltac step H D :=
  apply (proj1 (seq_step _ _ _ _ _ D)) in H;
  let t := fresh "t" in
  let s := fresh "s" in
  let P := fresh "P" in
  let E := fresh "E" in
  destruct H as (t & s & P & E & H); cbn [after rest consumed group1] in E, H.

(** What a match of the pattern says about the line. *)
Lemma pattern_defines macro regexp line m :
  ExtractMacro_pattern macro = Some regexp ->
  rx_matches regexp (mkCursor 0 line None) m ->
  defines macro line (group m).
Proof.
  unfold ExtractMacro_pattern. destruct (plain macro); [|discriminate].
  intros [= <-] H. destruct H as (c1 & [_ ->] & H).
  step H (denotes_star blank). step H (denotes_lit "#").
  step H (denotes_star blank). step H (denotes_literal "define").
  step H (denotes_plus blank). step H (denotes_literal macro).
  step H (denotes_plus blank). step H (denotes_lit quote).
  apply (proj1 (group_step _ _ _ _ _ denotes_version)) in H.
  destruct H as (v & s8 & Hv & E8 & H).
  cbn [after rest consumed group1] in E8, H.
  step H (denotes_lit quote). step H (denotes_star blank).
  destruct H as [He Hm]. cbn [after rest consumed group1] in He, Hm.
  subst. unfold group. cbn [group1]. exists t, t1, t3, t5, (t8 ++ s9)%string.
  split; [reflexivity|]. destruct P3 as [P3 N3], P5 as [P5 N5].
  repeat split; auto.
  apply blanks_app; [exact P8|]. destruct He as [-> | ->]; reflexivity.
Qed.

Ltac step_to D t s :=
  apply (proj2 (seq_step _ _ _ _ _ D)); exists t, s;
  cbn [after rest consumed group1];
  split; [|split; [try reflexivity|]].

(** A line that defines the macro is matched. *)
Lemma defines_pattern macro regexp line v :
  ExtractMacro_pattern macro = Some regexp ->
  defines macro line v ->
  exists m, rx_matches regexp (mkCursor 0 line None) m /\ group m = v.
Proof.
  unfold ExtractMacro_pattern. destruct (plain macro); [|discriminate].
  intros [= <-] (b1 & b2 & b3 & b4 & b5 & -> & H1 & H2 & H3 & N3 & H4 & N4
                 & H5 & Hv).
  eexists. split.
  - eexists. split; [split; reflexivity|].
    step_to (denotes_star blank) b1
            ("#" ++ b2 ++ "define" ++ b3 ++ macro ++ b4
             ++ String quote (v ++ String quote b5))%string; [exact H1|].
    step_to (denotes_lit "#") "#"%string
            (b2 ++ "define" ++ b3 ++ macro ++ b4
             ++ String quote (v ++ String quote b5))%string; [reflexivity|].
    step_to (denotes_star blank) b2
            ("define" ++ b3 ++ macro ++ b4
             ++ String quote (v ++ String quote b5))%string; [exact H2|].
    step_to (denotes_literal "define") "define"%string
            (b3 ++ macro ++ b4
             ++ String quote (v ++ String quote b5))%string; [reflexivity|].
    step_to (denotes_plus blank) b3
            (macro ++ b4 ++ String quote (v ++ String quote b5))%string;
      [now split|].
    step_to (denotes_literal macro) macro
            (b4 ++ String quote (v ++ String quote b5))%string; [reflexivity|].
    step_to (denotes_plus blank) b4
            (String quote (v ++ String quote b5)); [now split|].
    step_to (denotes_lit quote) (String quote "")
            (v ++ String quote b5)%string; [reflexivity|].
    apply (proj2 (group_step _ _ _ _ _ denotes_version)).
    exists v, (String quote b5). cbn [after rest consumed group1].
    split; [exact Hv|]. split; [reflexivity|].
    step_to (denotes_lit quote) (String quote "") b5; [reflexivity|].
    step_to (denotes_star blank) b5 ""%string;
      [exact H5 | now rewrite append_nil_r |].
    split; [now left | reflexivity].
  - reflexivity.
Qed.

(** [regexp.match(line)] *)
Lemma rx_match_some macro regexp line m :
  ExtractMacro_pattern macro = Some regexp ->
  rx_match regexp line = Some m ->
  defines macro line (group m).
Proof.
  intros Hp. unfold rx_match.
  destruct (rx_exec regexp (mkCursor 0 line None)) as [|m' l] eqn:E;
    [discriminate|].
  intros [= <-]. apply (pattern_defines _ _ _ _ Hp), rx_exec_spec.
  rewrite E. now left.
Qed.

Lemma rx_match_none macro regexp line :
  ExtractMacro_pattern macro = Some regexp ->
  rx_match regexp line = None ->
  forall v, ~ defines macro line v.
Proof.
  intros Hp. unfold rx_match.
  destruct (rx_exec regexp (mkCursor 0 line None)) as [|m' l] eqn:E;
    [|discriminate].
  intros _ v Hd. destruct (defines_pattern _ _ _ _ Hp Hd) as (m & Hm & _).
  apply rx_exec_spec in Hm. rewrite E in Hm. contradiction.
Qed.

Lemma version_text_nonempty v : version_text v -> v <> ""%string.
Proof.
  intros (x & y & z & -> & Nx & _). destruct x; [congruence | discriminate].
Qed.

(** The loop over the lines. *)
Lemma first_match_spec macro regexp lines :
  ExtractMacro_pattern macro = Some regexp ->
  (first_match regexp lines = ""%string
   /\ forall line, In line lines -> forall v, ~ defines macro line v)
  \/ (exists before line after,
        lines = before ++ line :: after
        /\ (forall l, In l before -> forall v, ~ defines macro l v)
        /\ defines macro line (first_match regexp lines)).
Proof.
  intros Hp. induction lines as [|line lines IH]; cbn [first_match].
  - left. split; [reflexivity|]. intros line [].
  - destruct (rx_match regexp line) as [m|] eqn:E.
    + right. exists [], line, lines. split; [reflexivity|].
      split; [intros l []|]. exact (rx_match_some _ _ _ _ Hp E).
    + pose proof (rx_match_none _ _ _ Hp E) as Hn.
      destruct IH as [[H1 H2] | (before & l & after & -> & H1 & H2)].
      * left. split; [exact H1|]. intros l [<-|Hin]; [exact Hn | now apply H2].
      * right. exists (line :: before), l, after. split; [reflexivity|].
        split; [|exact H2]. intros l' [<-|Hin]; [exact Hn | now apply H1].
Qed.

(** *** One value on a line *)

Lemma blanks_cons a s : blanks (String a s) -> blank a = true /\ blanks s.
Proof. unfold blanks. cbn [all]. intros H. now apply andb_prop in H. Qed.

(** Blanks end where the first other character is. *)
Lemma blanks_end b b' a a' s s' :
  blanks b -> blanks b' -> blank a = false -> blank a' = false ->
  (b ++ String a s)%string = (b' ++ String a' s')%string ->
  b = b' /\ String a s = String a' s'.
Proof.
  revert b'. induction b as [|x b IH]; intros [|x' b'] Hb Hb' Ha Ha' E;
    cbn [append] in E.
  - now split.
  - injection E as -> _. apply blanks_cons in Hb' as [Hx _]. congruence.
  - injection E as -> _. apply blanks_cons in Hb as [Hx _]. congruence.
  - injection E as -> E. apply blanks_cons in Hb as [_ Hb].
    apply blanks_cons in Hb' as [_ Hb'].
    destruct (IH b' Hb Hb' Ha Ha' E) as [-> H]. now split.
Qed.

(** A text ends where its last character that is no blank is. *)
Lemma blanks_begin v v' a b b' :
  blanks b -> blanks b' -> blank a = false ->
  (v ++ String a b)%string = (v' ++ String a b')%string ->
  v = v'.
Proof.
  intros Hb Hb' Ha. revert v'.
  assert (Hno : forall w c t, blanks t -> t <> (w ++ String a c)%string).
  { intros w c t. revert w. induction t as [|x t IH]; intros [|y w] Ht E;
      cbn [append] in E; try discriminate E.
    - injection E as -> _. apply blanks_cons in Ht as [Hx _]. congruence.
    - injection E as _ E. apply blanks_cons in Ht as [_ Ht].
      exact (IH w Ht E). }
  induction v as [|x v IH]; intros [|x' v'] E; cbn [append] in E.
  - reflexivity.
  - injection E as _ E. exfalso. exact (Hno _ _ _ Hb E).
  - injection E as _ E. exfalso. symmetry in E. exact (Hno _ _ _ Hb' E).
  - injection E as -> E. f_equal. now apply IH.
Qed.

Lemma append_inj_l s t t' : (s ++ t)%string = (s ++ t')%string -> t = t'.
Proof.
  induction s as [|a s IH]; cbn [append]; [trivial|].
  intros [= E]. now apply IH.
Qed.

(** A line defines a macro that does not begin with a blank in one way
    only. *)
Lemma defines_one_value macro line v v' :
  (forall a m, macro = String a m -> blank a = false) ->
  defines macro line v -> defines macro line v' -> v = v'.
Proof.
  intros Hm (b1 & b2 & b3 & b4 & b5 & -> & H1 & H2 & H3 & N3 & H4 & N4
             & H5 & _)
         (c1 & c2 & c3 & c4 & c5 & E & K1 & K2 & K3 & M3 & K4 & M4 & K5 & _).
  apply (blanks_end _ _ "#" "#") in E as [<- E];
    [|assumption|assumption|reflexivity|reflexivity].
  injection E as E.
  apply (blanks_end _ _ "d" "d") in E as [<- E];
    [|assumption|assumption|reflexivity|reflexivity].
  apply (append_inj_l "define") in E.
  assert (E' : String quote (v ++ String quote b5)
               = String quote (v' ++ String quote c5)).
  { destruct macro as [|a m].
    - cbn [append] in E. rewrite <- !append_assoc in E.
      apply (blanks_end _ _ quote quote) in E as [_ E];
        [exact E|now apply blanks_app|now apply blanks_app
         |reflexivity|reflexivity].
    - cbn [append] in E.
      apply (blanks_end _ _ a a) in E as [_ E];
        [|assumption|assumption|now apply (Hm a m)|now apply (Hm a m)].
      injection E as E. apply append_inj_l in E.
      apply (blanks_end _ _ quote quote) in E as [_ E];
        [exact E|assumption|assumption|reflexivity|reflexivity]. }
  injection E' as E'.
  exact (blanks_begin _ _ quote _ _ H5 K5 eq_refl E').
Qed.

End RxFacts.

Import GoBuild GoBuildSpec RxSpec RxFacts.

(** X14.  What [ExtractMacro] finds.  For a macro without special
    characters the result is the empty string when the file cannot be
    read or none of its lines defines the macro; otherwise it is a value
    that the first line that defines the macro defines it as, and that
    value is not empty. *)
Theorem ExtractMacro_first_definition files filename macro v :
  ExtractMacro files filename macro = Some v ->
  (v = ""%string
   /\ forall text, files filename = Some text ->
      forall line, In line (readlines text) ->
      forall v', ~ defines macro line v')
  \/ (v <> ""%string
      /\ exists text before line after,
           files filename = Some text
           /\ readlines text = before ++ line :: after
           /\ (forall l, In l before -> forall v', ~ defines macro l v')
           /\ defines macro line v).
Proof.
  unfold ExtractMacro.
  destruct (ExtractMacro_pattern macro) as [regexp|] eqn:Hp; [|discriminate].
  intros [= <-]. destruct (files filename) as [text|].
  - destruct (first_match_spec macro regexp (readlines text) Hp)
      as [[H1 H2] | (before & line & after & E & H1 & H2)].
    + left. split; [exact H1|]. now intros text' [= <-].
    + right. split.
      * destruct H2 as (_ & _ & _ & _ & _ & _ & _ & _ & _ & _ & _ & _ & _ & Hv).
        exact (version_text_nonempty _ Hv).
      * exists text, before, line, after. auto.
  - left. split; [reflexivity|]. discriminate.
Qed.
Lemma ExtractMacro_first_definition_witness :
  ExtractMacro MacroDemo.headers "version.h" "PRODUCT_VERSION"
  = Some "1.2.3"%string
  /\ exists line,
       In line (readlines MacroDemo.header)
       /\ defines "PRODUCT_VERSION" line "1.2.3".
Proof.
  split; [reflexivity|].
  destruct (ExtractMacro_first_definition
              MacroDemo.headers "version.h" "PRODUCT_VERSION" "1.2.3" eq_refl)
    as [[H _] | (_ & text & before & line & after & Ht & E & _ & Hd)].
  - discriminate H.
  - injection Ht as <-. exists line. split; [|exact Hd].
    rewrite E. apply in_or_app. right. now left.
Defined.

(** X15.  The value [ExtractMacro] returns.  For a macro without special
    characters that does not begin with a blank, a line defines the macro
    as one value at most, and [ExtractMacro] returns the value of the
    first line of the file that defines it. *)
Theorem ExtractMacro_value files filename macro text before line after v :
  plain macro = true ->
  (forall a m, macro = String a m -> blank a = false) ->
  files filename = Some text ->
  readlines text = before ++ line :: after ->
  (forall l, In l before -> forall v', ~ defines macro l v') ->
  defines macro line v ->
  ExtractMacro files filename macro = Some v.
Proof.
  intros Hplain Hm Ht E Hb Hd.
  destruct (ExtractMacro files filename macro) as [r|] eqn:Er.
  - f_equal.
    destruct (ExtractMacro_first_definition _ _ _ _ Er)
      as [[_ Hn] | (_ & text' & before' & line' & after' & Ht' & E' & Hb' & Hd')].
    + exfalso. refine (Hn text Ht line _ v Hd).
      rewrite E. apply in_or_app. right. now left.
    + rewrite Ht in Ht'. injection Ht' as <-. rewrite E in E'.
      assert (Hsame : before = before' /\ line = line').
      { clear - E' Hb Hb' Hd Hd'. revert before' E' Hb'.
        induction before as [|l before IH]; intros [|l' before'] E' Hb';
          cbn [app] in E'.
        - injection E' as -> _. now split.
        - injection E' as -> _. exfalso.
          exact (Hb' l' (or_introl eq_refl) v Hd).
        - injection E' as -> _. exfalso.
          exact (Hb line' (or_introl eq_refl) _ Hd').
        - injection E' as -> E'.
          destruct (IH (fun x Hx => Hb x (or_intror Hx)) before' E'
                       (fun x Hx => Hb' x (or_intror Hx))) as [-> ->].
          now split. }
      destruct Hsame as [_ <-].
      exact (defines_one_value _ _ _ _ Hm Hd' Hd).
  - unfold ExtractMacro, ExtractMacro_pattern in Er. rewrite Hplain in Er.
    discriminate Er.
Qed.

Lemma ExtractMacro_value_witness :
  ExtractMacro MacroDemo.headers "version.h" "PRODUCT_VERSION"
  = Some "1.2.3"%string.
Proof.
  apply (ExtractMacro_value
           MacroDemo.headers "version.h" "PRODUCT_VERSION" MacroDemo.header
           [("/* version */" ++ String PyStr.LF "")%string]
           ("  # define  PRODUCT_VERSION   " ++ String quote
            ("1.2.3" ++ String quote (String PyStr.LF "")))%string
           [("#define OTHER 1" ++ String PyStr.LF "")%string]).
  - reflexivity.
  - intros a m [= <- _]. reflexivity.
  - reflexivity.
  - reflexivity.
  - intros l [<-|[]].
    apply (rx_match_none "PRODUCT_VERSION"
             (match ExtractMacro_pattern "PRODUCT_VERSION" with
              | Some r => r
              | None => Eps
              end)); reflexivity.
  - exists "  "%string, " "%string, "  "%string, "   "%string,
      (String PyStr.LF "").
    split; [reflexivity|].
    repeat (split; [first [reflexivity | discriminate]|]).
    exists "1"%string, "2"%string, "3"%string.
    repeat (split; [first [reflexivity | discriminate]|]). reflexivity.
Defined.
